(** * mindpark / vizbot: the Gym environment adapter and the benchmark driver

    A shallow embedding of [mindpark/run/gym_env.py] (class [GymEnv]) and of
    [vizbot/core/benchmark.py] (class [Benchmark]), followed by the
    properties of these two classes.

    Python objects with mutable state are modelled by explicit state
    passing: a statement is a function from the state before it to its
    outcome (a value or a raised exception) and the state after it. *)

From Stdlib Require Import Ascii QArith Qround.
From stdpp Require Import gmap strings pretty sorting list_numbers.
Close Scope Q_scope.

(** ** Statements: state and exceptions *)

Inductive result (E A : Type) : Type :=
| Return (a : A)
| Raise (e : E).
Arguments Return {E A} a.
Arguments Raise {E A} e.

Definition M (W E A : Type) : Type := W → result E A * W.

Definition ret {W E A} (a : A) : M W E A := λ w, (Return a, w).

Definition raise {W E A} (e : E) : M W E A := λ w, (Raise e, w).

Definition bind {W E A B} (c : M W E A) (k : A → M W E B) : M W E B :=
  λ w, match c w with
       | (Return a, w') => k a w'
       | (Raise e, w') => (Raise e, w')
       end.

Declare Scope py_scope.
Delimit Scope py_scope with py.
Notation "'let*' x ':=' c 'in' k" := (bind c (λ x, k))
  (at level 10, x pattern, c at level 100, k at level 200) : py_scope.
Notation "c ';;;' k" := (bind c (λ _, k))
  (at level 100, k at level 200, right associativity) : py_scope.
Open Scope py_scope.

(** [try: c  except <handled>: handler] *)
Definition try_except {W E A} (c : M W E A) (handled : E → bool)
    (handler : M W E A) : M W E A :=
  λ w, match c w with
       | (Return a, w') => (Return a, w')
       | (Raise e, w') => if handled e then handler w' else (Raise e, w')
       end.

(** A computation without effects, used as a statement. *)
Definition pure {W E A} (r : result E A) : M W E A := λ w, (r, w).

(** The exceptions of a callee, seen by the caller under another type. *)
Definition lift {W E E' A} (f : E → E') (c : M W E A) : M W E' A :=
  λ w, match c w with
       | (Return a, w') => (Return a, w')
       | (Raise e, w') => (Raise (f e), w')
       end.

(** [for x in l: body], with the variables the body assigns as [s]. *)
Fixpoint for_each {W E A S} (l : list A) (body : A → S → M W E S) (s : S)
    : M W E S :=
  match l with
  | [] => ret s
  | x :: l' => let* s' := body x s in for_each l' body s'
  end.

(** ** Python values *)

(** The values that cross the adapter: actions, observations and rewards
    are arbitrary Python objects.  An instance of any other class carries
    the method resolution order of its class, which is what [isinstance]
    inspects. *)
#[warnings="-register-all"]
Inductive pyval : Type :=
| PyNone
| PyBool (b : bool)
| PyInt (n : Z)
| PyFloat (x : Q)
| PyStr (s : string)
| PyList (items : list pyval)
| PyObject (mro : list string) (repr : string).

Definition type_mro (v : pyval) : list string :=
  match v with
  | PyNone => ["NoneType"; "object"]
  | PyBool _ => ["bool"; "int"; "object"]
  | PyInt _ => ["int"; "object"]
  | PyFloat _ => ["float"; "object"]
  | PyStr _ => ["str"; "object"]
  | PyList _ => ["list"; "object"]
  | PyObject mro _ => mro
  end.

(** [isinstance(v, (c1, ..., cn))] *)
Definition isinstance (v : pyval) (classes : list string) : bool :=
  existsb (λ c, bool_decide (c ∈ type_mro v)) classes.

(** The instances of [int] and of [float]: booleans, integers, floats, and
    the instances of the classes that derive from [int] or [float]. *)
Definition numeric (v : pyval) : Prop :=
  match v with
  | PyBool _ | PyInt _ | PyFloat _ => True
  | PyObject mro _ => "int" ∈ mro ∨ "float" ∈ mro
  | PyNone | PyStr _ | PyList _ => False
  end.

(** [yes(d) if directory else no], for a [directory] that is a path [d] or
    [None]: the empty path is false as well. *)
Definition if_set {A} (directory : option string) (yes : string → A) (no : A)
    : A :=
  match directory with
  | Some d => if bool_decide (d = EmptyString) then no else yes d
  | None => no
  end.

Definition truthy (directory : option string) : bool :=
  if_set directory (λ _, true) false.

(** ** mindpark/run/gym_env.py *)

Module GymEnv.

(** The three [assert] statements of [step], in the order of the code. *)
Inductive assertion : Type :=
| action_in_space
| observation_in_space
| reward_is_number.

(** What [step] can raise: one of its own assertions, or whatever the
    wrapped environment raised. *)
Inductive exn (X : Type) : Type :=
| AssertionError (which : assertion)
| Propagated (x : X).
Arguments AssertionError {X} which.
Arguments Propagated {X} x.

(** A Gym space: the membership test is all the adapter uses. *)
Record Space : Type := { contains : pyval → bool }.

(** The wrapped [gym.Env]: [S] is its internal state, [X] the exceptions
    it may raise.  [step] returns (observation, reward, done, info). *)
Record Env (S X : Type) : Type := {
  observation_space : Space;
  action_space : Space;
  env_reset : M S X pyval;
  env_step : pyval → M S X (pyval * pyval * bool * pyval);
  env_close : M S X unit;
  monitor_close : M S X unit
}.
Arguments observation_space {S X} _.
Arguments action_space {S X} _.
Arguments env_reset {S X} _.
Arguments env_step {S X} _ _.
Arguments env_close {S X} _.
Arguments monitor_close {S X} _.

Record GymEnv (S X : Type) : Type := {
  _env : Env S X;
  _directory : option string
}.
Arguments _env {S X} _.
Arguments _directory {S X} _.

Section adapter.
Context {S X : Type}.
(** [gym.make] and [gym.wrappers.Monitor] *)
Variable make : string → Env S X.
Variable Monitor : Env S X → string → bool → Env S X.

Definition __init__ (env_name : string) (directory : option string)
    (videos : bool) : GymEnv S X :=
  let env := make env_name in
  {| _env := if_set directory (λ d, Monitor env d videos) env;
     _directory := directory |}.

Definition observs (self : GymEnv S X) : Space :=
  observation_space (_env self).

Definition actions (self : GymEnv S X) : Space :=
  action_space (_env self).

Definition assert_ (b : bool) (which : assertion) : M S (exn X) unit :=
  if b then ret tt else raise (AssertionError which).

Definition reset (self : GymEnv S X) : M S (exn X) pyval :=
  let* observation := lift Propagated (env_reset (_env self)) in
  ret observation.

Definition step (self : GymEnv S X) (action : pyval)
    : M S (exn X) (pyval * pyval) :=
  assert_ (contains (actions self) action) action_in_space;;;
  let* (observation, reward, done, _) :=
    lift Propagated (env_step (_env self) action) in
  assert_ (contains (observs self) observation) observation_in_space;;;
  assert_ (isinstance reward ["int"; "float"]) reward_is_number;;;
  let observation := if done then PyNone else observation in
  ret (reward, observation).

Definition close (self : GymEnv S X) : M S (exn X) unit :=
  (if truthy (_directory self)
   then lift Propagated (monitor_close (_env self))
   else ret tt);;;
  lift Propagated (env_close (_env self)).
End adapter.

End GymEnv.

(** ** Strings and paths *)

(** [c in s] *)
Fixpoint occurs (c : ascii) (s : string) : bool :=
  match s with
  | EmptyString => false
  | String a s' => bool_decide (a = c) || occurs c s'
  end.

Definition startswith (c : ascii) (s : string) : bool :=
  match s with
  | EmptyString => false
  | String a _ => bool_decide (a = c)
  end.

Fixpoint endswith (c : ascii) (s : string) : bool :=
  match s with
  | EmptyString => false
  | String a EmptyString => bool_decide (a = c)
  | String _ s' => endswith c s'
  end.

(** The parts of [s] before and after the last occurrence of [c], when
    there is one. *)
Fixpoint rpartition (c : ascii) (s : string) : option (string * string) :=
  match s with
  | EmptyString => None
  | String a s' =>
      match rpartition c s' with
      | Some (l, r) => Some (String a l, r)
      | None => if bool_decide (a = c) then Some (EmptyString, s') else None
      end
  end.

(** [s.rsplit(c, 1)] *)
Definition rsplit1 (c : ascii) (s : string) : list string :=
  match rpartition c s with
  | Some (l, r) => [l; r]
  | None => [s]
  end.

(** [s.split(c)] *)
Fixpoint split (c : ascii) (s : string) : list string :=
  match s with
  | EmptyString => [EmptyString]
  | String a s' =>
      if bool_decide (a = c) then EmptyString :: split c s'
      else match split c s' with
           | piece :: pieces => String a piece :: pieces
           | [] => [String a EmptyString]
           end
  end.

(** ['{:0>width}'.format(s)]: [s] right-aligned in [width] columns, filled
    with zeros. *)
Fixpoint zeros (n : nat) : string :=
  match n with
  | O => EmptyString
  | S n' => String "0"%char (zeros n')
  end.

Definition zero_pad (width : nat) (s : string) : string :=
  zeros (width - String.length s) +:+ s.

(** ** Numbers: the scores and durations of episodes

    Scores and durations are Python numbers; they are taken as rationals,
    which covers the integers and the finite floats, and are compared as
    such. *)

(** [max(x)]: the first of the largest items. *)
Definition py_max {E} (empty : E) (x : list Q) : result E Q :=
  match x with
  | [] => Raise empty
  | a :: l => Return (foldl (λ m y, if Qlt_le_dec m y then y else m) a l)
  end.

(** [[f(x) for x in l]], which raises what the first failing [f(x)] does. *)
Fixpoint comprehension {E A B} (f : A → result E B) (l : list A)
    : result E (list B) :=
  match l with
  | [] => Return []
  | x :: l' =>
      match f x with
      | Raise e => Raise e
      | Return y =>
          match comprehension f l' with
          | Raise e => Raise e
          | Return ys => Return (y :: ys)
          end
      end
  end.

(** ** Exceptions *)

Inductive exception : Type :=
| StopTraining
| ZeroDivisionError
| ValueError (message : string)
| KeyError
| FileNotFoundError (path : string)
| NotADirectoryError (path : string)
| IsADirectoryError (path : string)
| OSError (path : string)
(** Anything else an agent may raise while it trains. *)
| AgentError (description : string).

Definition max_of_empty : exception :=
  ValueError "max() arg is an empty sequence".

Definition cannot_unpack : exception :=
  ValueError "not enough values to unpack (expected 2, got 1)".

(** ** Arithmetic

    The summary of a pair is computed by [sum(best) / len(best)] and
    [round(., 3)].  This arithmetic is Python's: exact on integers, in
    floating point as soon as a float is involved, and it can raise
    ([OverflowError]).  What it yields depends on the types that the
    trainer gives to its scores and on the interpreter, and is left open:
    [number] is what it computes with, [py_sum] is [sum], [divide x n] is
    [x / n] for a length [n] that is not zero, [py_round] is [round], and
    [str] is the text that [format] makes of a number. *)
Class Arithmetic : Type := {
  number : Type;
  py_sum : list Q → number;
  divide : number → nat → result exception number;
  py_round : number → nat → result exception number;
  str : number → string
}.

(** [sum(best) / len(best)]: the sum of no item is the integer 0 and the
    length is 0, and [0 / 0] raises [ZeroDivisionError]. *)
Definition mean `{Arithmetic} (best : list Q) : result exception number :=
  match best with
  | [] => Raise ZeroDivisionError
  | _ :: _ => divide (py_sum best) (length best)
  end.

(** ** The file system *)

(** A file holds a numeric array written by [np.save], or anything else. *)
Inductive file : Type :=
| Npy (array : list Q)
| Bytes (content : string).

#[warnings="-register-all"]
Inductive node : Type :=
| File (f : file)
| Dir (entries : gmap string node).

(** *** Looking up a path *)

(** The errors of a look up: no such entry, and a file where a directory
    has to be. *)
Inductive errno : Type :=
| ENOENT
| ENOTDIR.

(** The names that stay in place: the empty name, which is what a slash at
    an end or two slashes in a row leave, and [.] *)
Definition stays (x : string) : bool :=
  bool_decide (x = EmptyString ∨ x = ".").

(** Going through [names] from the node [here], below the directories
    [above] (its parent first): a name that stays in place leaves [here],
    [..] leads to the parent (the root is its own parent), any other name
    leads to the entry of that name; each of them needs [here] to be a
    directory.  What is reached comes with the directories above it. *)
Fixpoint descend (above : list node) (here : node) (names : list string)
    : errno + list node * node :=
  match names with
  | [] => inr (above, here)
  | x :: names' =>
      match here with
      | File _ => inl ENOTDIR
      | Dir entries =>
          if stays x then descend above here names'
          else if bool_decide (x = "..") then
            match above with
            | [] => descend [] here names'
            | parent :: above' => descend above' parent names'
            end
          else
            match entries !! x with
            | Some child => descend (here :: above) child names'
            | None => inl ENOENT
            end
      end
  end.

(** The node at [path].  A path is looked up from the root directory,
    which is taken to be the working directory as well; the empty path
    names nothing. *)
Definition locate (root : node) (path : string) : errno + node :=
  if bool_decide (path = EmptyString) then inl ENOENT
  else match descend [] root (split "/"%char path) with
       | inr (_, n) => inr n
       | inl e => inl e
       end.

Definition resolve (root : node) (path : string) : option node :=
  match locate root path with
  | inr n => Some n
  | inl _ => None
  end.

(** The exception of a look up that failed. *)
Definition os_error (e : errno) (path : string) : exception :=
  match e with
  | ENOENT => FileNotFoundError path
  | ENOTDIR => NotADirectoryError path
  end.

(** *** Creating directories

    What follows serves the trainer, which creates its directory: the
    proper names of a path (its names without the ones that stay in place),
    the node at the end of proper names, and the update of the tree at the
    end of proper names. *)
Definition components (path : string) : list string :=
  filter (λ x, x ≠ EmptyString ∧ x ≠ ".") (split "/"%char path).

(** No [..] among the names of the path. *)
Definition plain (path : string) : bool :=
  bool_decide (".." ∉ split "/"%char path).

Fixpoint walk (names : list string) (t : option node) : option node :=
  match names with
  | [] => t
  | x :: names' =>
      match t with
      | Some (Dir entries) => walk names' (entries !! x)
      | _ => None
      end
  end.

(** Replace what is at the end of [names] by [f] of it, creating the
    directories on the way that do not exist; [None] when a file is in the
    way or when [f] refuses. *)
Fixpoint update (f : option node → option node) (names : list string)
    (t : option node) : option node :=
  match names with
  | [] => f t
  | x :: names' =>
      match t with
      | None =>
          match update f names' None with
          | Some c => Some (Dir {[ x := c ]})
          | None => None
          end
      | Some (Dir entries) =>
          match update f names' (entries !! x) with
          | Some c => Some (Dir (<[ x := c ]> entries))
          | None => None
          end
      | Some (File _) => None
      end
  end.

Module os.

Module path.

(** [posixpath.join(a, b)] *)
Definition join (a b : string) : string :=
  if startswith "/"%char b then b
  else if bool_decide (a = EmptyString) || endswith "/"%char a then a +:+ b
  else a +:+ "/" +:+ b.

(** [posixpath.basename(p)] *)
Definition basename (p : string) : string :=
  match rpartition "/"%char p with
  | Some (_, r) => r
  | None => p
  end.

Definition isdir (root : node) (p : string) : bool :=
  match resolve root p with
  | Some (Dir _) => true
  | _ => false
  end.

End path.

(** The entries of a directory, in the arbitrary order of the system. *)
Definition listdir (root : node) (p : string) : result exception (list string) :=
  match locate root p with
  | inr (Dir entries) => Return (fst <$> map_to_list entries)
  | inr (File _) => Raise (NotADirectoryError p)
  | inl e => Raise (os_error e p)
  end.

End os.

(** [np.load(path)] *)
Definition np_load (root : node) (p : string) : result exception (list Q) :=
  match locate root p with
  | inr (File (Npy array)) => Return array
  | inr (File (Bytes _)) => Raise (OSError p)
  | inr (Dir _) => Raise (IsADirectoryError p)
  | inl e => Raise (os_error e p)
  end.

(** [sorted(l)] for a list of strings: by code points. *)
Definition sorted (l : list string) : list string := merge_sort String.le l.

(** ** vizbot/core/benchmark.py *)

Module Benchmark.

Definition kwargs : Type := list (string * pyval).

(** How one training went: the score and the duration of each episode that
    was completed, and how the call [agent(trainer)()] ended. *)
Inductive ending : Type :=
| Finished
| Stopped
| Crashed (description : string).

Record training : Type := {
  episodes : list (Q * Q);
  ended : ending
}.

(** An agent class.  Classes are compared and hashed by identity, which is
    [agent_id]; [behaviour] is the training the agent does with a trainer
    made for [(directory, env, **kwargs)], and may differ from one trainer
    to the next (its last argument numbers the trainers of the run). *)
Record agent : Type := {
  agent_id : N;
  __name__ : string;
  behaviour : option string → string → kwargs → nat → training
}.

(** Modelled from the spec: class [Trainer] of [vizbot.core] is not among
    the sources.  It is "constructed with (directory_or_none,
    env_identifier, **config)" and "exposes scores and durations sequences
    after training"; this is the state of one such object. *)
Record trainer : Type := {
  trainer_directory : option string;
  trainer_env : string;
  trainer_kwargs : kwargs;
  scores : list Q;
  durations : list Q
}.

(** What the driver prints. *)
Inductive line : Type :=
| Benchmark_on (agent env : string)
| Mean_best_score (mean : string)
| Start_experiment_dry_run
| Start_experiment (experiment : string).

(** The state the driver runs in: the file system, the standard output,
    the trainer objects created so far (a trainer is referred to by its
    position), and the UTC time as [time.strftime] formats it. *)
Record world : Type := {
  fs : node;
  stdout : list line;
  heap : list trainer;
  utcnow : string
}.

Definition set_fs (t : node) (w : world) : world :=
  {| fs := t; stdout := stdout w; heap := heap w; utcnow := utcnow w |}.

Definition set_stdout (out : list line) (w : world) : world :=
  {| fs := fs w; stdout := out; heap := heap w; utcnow := utcnow w |}.

Definition set_heap (h : list trainer) (w : world) : world :=
  {| fs := fs w; stdout := stdout w; heap := h; utcnow := utcnow w |}.

Definition py : Type → Type := M world exception.

Definition print (l : line) : py unit :=
  λ w, (Return tt, set_stdout (stdout w ++ [l]) w).

(** A computation that only reads the file system. *)
Definition reading {A} (f : node → result exception A) : py A :=
  λ w, (f (fs w), w).

(** [time.strftime('%Y-%m-%dT%H-%M-%S', time.gmtime())] *)
Definition strftime_gmtime : py string := λ w, (Return (utcnow w), w).

(** The dictionaries of results: [collections.defaultdict(dict)], from an
    environment to a dictionary from an agent to the list of repeats.  A
    key of the inner dictionary is an agent class ([inl], its identity) or
    a string ([inr]). *)
Abbreviation key := (N + string)%type.
Abbreviation results := (gmap string (gmap key (list (list Q)))).

(** [d[env][k] = v] *)
Definition setitem (d : results) (env : string) (k : key)
    (v : list (list Q)) : results :=
  <[ env := <[ k := v ]> (default ∅ (d !! env)) ]> d.

(** [d[env][k].append(x)] *)
Definition append (d : results) (env : string) (k : key) (x : list Q)
    : result exception results :=
  match default ∅ (d !! env) !! k with
  | Some l => Return (setitem d env k (l ++ [x]))
  | None => Raise KeyError
  end.

(** [d[env][k]] without the side effect of [defaultdict] *)
Definition getitem (d : results) (env : string) (k : key)
    : option (list (list Q)) :=
  d !! env ≫= λ inner, inner !! k.

(** *** The trainer *)

(** Modelled from the spec: [Trainer(directory, env, **kwargs)] makes a new
    object, with no episode yet. *)
Definition Trainer (directory : option string) (env : string)
    (config : kwargs) : py nat :=
  λ w, (Return (length (heap w)),
        set_heap (heap w ++ [{| trainer_directory := directory;
                                trainer_env := env;
                                trainer_kwargs := config;
                                scores := [];
                                durations := [] |}]) w).

(** [trainer.scores] and [trainer.durations] *)
Definition attr {A} (f : trainer → A) (h : nat) : py A :=
  λ w, match heap w !! h with
       | Some t => (Return (f t), w)
       | None => (Raise KeyError, w)
       end.

(** Modelled from the spec: the trainer "writes its own persisted files
    into the given directory", and [read] is what fixes their names and
    their format: the two arrays [scores.npy] and [durations.npy]; the
    directory is created when it does not exist.  [None] when the two files
    cannot be put there.  How a trainer would create a directory whose path
    holds [..] is not specified: such a path is refused. *)
Definition put_file (name : string) (f : file) (entries : gmap string node)
    : option (gmap string node) :=
  match entries !! name with
  | Some (Dir _) => None
  | _ => Some (<[ name := File f ]> entries)
  end.

Definition save (s d : list Q) (t : option node) : option node :=
  match t with
  | Some (File _) => None
  | Some (Dir entries) =>
      Dir <$> (put_file "scores.npy" (Npy s) entries
               ≫= put_file "durations.npy" (Npy d))
  | None =>
      Dir <$> (put_file "scores.npy" (Npy s) ∅
               ≫= put_file "durations.npy" (Npy d))
  end.

Definition persist (t : trainer) (root : node) : result exception node :=
  if_set (trainer_directory t)
    (λ d, if plain d then
            match update (save (scores t) (durations t)) (components d)
                    (Some root) with
            | Some root' => Return root'
            | None => Raise (OSError d)
            end
          else Raise (OSError d))
    (Return root).

(** Modelled from the spec: [agent(trainer)()].  The agent "drives
    training against the trainer until it raises a stop signal or
    completes"; the trainer then holds one score and one duration for each
    episode ("equal length (one entry per episode)") and has written them. *)
Definition after_training (a : agent) (h : nat) (t : trainer) : trainer :=
  let run := behaviour a (trainer_directory t) (trainer_env t)
               (trainer_kwargs t) h in
  {| trainer_directory := trainer_directory t;
     trainer_env := trainer_env t;
     trainer_kwargs := trainer_kwargs t;
     scores := (episodes run).*1;
     durations := (episodes run).*2 |}.

Definition train (a : agent) (h : nat) : py unit :=
  λ w, match heap w !! h with
       | None => (Raise KeyError, w)
       | Some t =>
           let t' := after_training a h t in
           let w' := set_heap (<[ h := t' ]> (heap w)) w in
           match persist t' (fs w') with
           | Raise e => (Raise e, w')
           | Return root =>
               (match ended (behaviour a (trainer_directory t) (trainer_env t)
                               (trainer_kwargs t) h) with
                | Finished => Return tt
                | Stopped => Raise StopTraining
                | Crashed description => Raise (AgentError description)
                end, set_fs root w')
           end
       end.

(** *** The driver *)

Record Benchmark : Type := {
  _directory : option string;
  _repeats : Z;
  _trainer_kwargs : kwargs
}.

(** [abspath] stands for [os.path.abspath(os.path.expanduser(.))], which
    depends on the process. *)
Definition __init__ (abspath : string → string) (directory : option string)
    (repeats : Z) (config : kwargs) : Benchmark :=
  {| _directory := if_set directory (λ d, Some (abspath d)) directory;
     _repeats := repeats;
     _trainer_kwargs := config |}.

(** [x = None; if directory: x = os.path.join(directory, name)] *)
Definition subdirectory_of (directory : option string) (name : string)
    : option string :=
  if_set directory (λ d, Some (os.path.join d name)) None.

Definition _start_experiment (self : Benchmark) (name : string)
    : py (option string) :=
  if_set (_directory self)
    (λ directory,
       let* timestamp := strftime_gmtime in
       let name := timestamp +:+ "-" +:+ name in
       let experiment := os.path.join directory name in
       print (Start_experiment experiment);;;
       ret (Some experiment))
    (print Start_experiment_dry_run;;;
     ret None).

Definition _get_subdirs (directory : string) : py (list string) :=
  let* subdirs := reading (λ root, os.listdir root directory) in
  let subdirs := os.path.join directory <$> subdirs in
  let* subdirs :=
    reading (λ root, Return (filter (λ x, os.path.isdir root x) subdirs)) in
  ret (sorted subdirs).

(** ['repeat-{:0>w}'.format(repeat)], where [w] is the number of characters
    of [str(repeats - 1)] *)
Definition template_format (repeats repeat : Z) : string :=
  "repeat-" +:+ zero_pad (String.length (pretty (repeats - 1)%Z)) (pretty repeat).

Definition is_StopTraining (e : exception) : bool :=
  match e with
  | StopTraining => true
  | _ => false
  end.

(** The body of the loop of [_benchmark]. *)
Definition benchmark_repeat (self : Benchmark) (directory : option string)
    (env : string) (a : agent) (repeat : Z)
    (acc : list (list Q) * list (list Q))
    : py (list (list Q) * list (list Q)) :=
  let '(scores_, durations_) := acc in
  let subdirectory :=
    subdirectory_of directory (template_format (_repeats self) repeat) in
  let* trainer := Trainer subdirectory env (_trainer_kwargs self) in
  try_except (train a trainer) is_StopTraining (ret tt);;;
  let* s := attr scores trainer in
  let* d := attr durations trainer in
  ret (scores_ ++ [s], durations_ ++ [d]).

Definition _benchmark (self : Benchmark) (directory : option string)
    (env : string) (a : agent) : py (list (list Q) * list (list Q)) :=
  for_each (seqZ 0 (_repeats self)) (benchmark_repeat self directory env a)
    ([], []).

(** The number that the summary of a pair prints:
    [round(sum(best) / len(best), 3)] for [best = [max(x) for x in score]]. *)
Definition mean_best `{Arithmetic} (score : list (list Q))
    : result exception number :=
  match comprehension (py_max max_of_empty) score with
  | Raise e => Raise e
  | Return best =>
      match mean best with
      | Raise e => Raise e
      | Return m => py_round m 3
      end
  end.

(** The body of the loop of [__call__]. *)
Definition benchmark_pair `{Arithmetic} (self : Benchmark)
    (experiment : option string) (pair : string * agent)
    (acc : results * results) : py (results * results) :=
  let '(env, a) := pair in
  let '(scores_, durations_) := acc in
  print (Benchmark_on (__name__ a) env);;;
  let directory := subdirectory_of experiment (env +:+ "-" +:+ __name__ a) in
  let* (score, duration) := _benchmark self directory env a in
  let* m := pure (mean_best score) in
  print (Mean_best_score (str m));;;
  ret (setitem scores_ env (inl (agent_id a)) score,
       setitem durations_ env (inl (agent_id a)) duration).

(** The loop of [__call__] over the pairs: the results it collects in
    memory. *)
Definition train_all `{Arithmetic} (self : Benchmark)
    (experiment : option string) (envs : list string) (agents : list agent)
    : py (results * results) :=
  for_each (list_prod envs agents) (benchmark_pair self experiment) (∅, ∅).

Definition unpack2 (l : list string) : result exception (string * string) :=
  match l with
  | [x; y] => Return (x, y)
  | _ => Raise cannot_unpack
  end.

(** The body of the inner loop of [read]. *)
Definition read_repeat (env agent_ : string) (repeat : string)
    (acc : results * results) : py (results * results) :=
  let '(scores_, durations_) := acc in
  let* score :=
    reading (λ root, np_load root (os.path.join repeat "scores.npy")) in
  let* duration :=
    reading (λ root, np_load root (os.path.join repeat "durations.npy")) in
  let* scores_ := pure (append scores_ env (inr agent_) score) in
  let* durations_ := pure (append durations_ env (inr agent_) duration) in
  ret (scores_, durations_).

(** The body of the outer loop of [read]. *)
Definition read_benchmark (benchmark : string) (acc : results * results)
    : py (results * results) :=
  let '(scores_, durations_) := acc in
  let* (env, agent_) :=
    pure (unpack2 (rsplit1 "-" (os.path.basename benchmark))) in
  let scores_ := setitem scores_ env (inr agent_) [] in
  let durations_ := setitem durations_ env (inr agent_) [] in
  let* repeats := _get_subdirs benchmark in
  for_each repeats (read_repeat env agent_) (scores_, durations_).

Definition read (experiment : string) : py (results * results) :=
  let* benchmarks := _get_subdirs experiment in
  for_each benchmarks read_benchmark (∅, ∅).

Definition __call__ `{Arithmetic} (self : Benchmark) (name : string)
    (envs : list string) (agents : list agent)
    : py (option string * results * results) :=
  let* experiment := _start_experiment self name in
  let* (scores_, durations_) := train_all self experiment envs agents in
  if_set experiment
    (λ experiment,
       let* (scores_, durations_) := read experiment in
       ret (Some experiment, scores_, durations_))
    (ret (None, scores_, durations_)).

Arguments benchmark_repeat : simpl never.
Arguments _benchmark : simpl never.
Arguments benchmark_pair : simpl never.
Arguments train_all : simpl never.
Arguments read_repeat : simpl never.
Arguments read_benchmark : simpl never.
Arguments read : simpl never.
Arguments _get_subdirs : simpl never.

End Benchmark.

(** ** Sample objects

    A small environment and two agents, on which the properties below are
    exercised. *)

Module Sample.

(** A chain of four states: the observation is the state, an action is 0
    or 1, every step is rewarded by 1.0 and the episode ends in state 3.
    Stepped after the end, the environment first repeats its last
    observation and rewards by a string, then keeps emitting the pair
    [(9, 9)], which is outside of its observation space. *)
Definition chain : GymEnv.Env nat string := {|
  GymEnv.observation_space :=
    {| GymEnv.contains v :=
         match v with
         | PyInt n => bool_decide (0 ≤ n < 4)%Z
         | _ => false
         end |};
  GymEnv.action_space :=
    {| GymEnv.contains v :=
         match v with
         | PyInt n => bool_decide (0 ≤ n < 2)%Z
         | _ => false
         end |};
  GymEnv.env_reset := λ _, (Return (PyInt 0), 0%nat);
  GymEnv.env_step := λ _ s,
    if bool_decide (s < 3)%nat
    then (Return (PyInt (Z.of_nat (S s)), PyFloat 1%Q,
                  bool_decide (S s = 3%nat), PyNone), S s)
    else if bool_decide (s = 3)%nat
    then (Return (PyInt 3, PyStr "late", true, PyNone), S s)
    else (Return (PyList [PyInt 9; PyInt 9], PyFloat 0%Q, true, PyNone), s);
  GymEnv.env_close := λ s, (Return tt, s);
  GymEnv.monitor_close := λ s, (Return tt, s)
|}.

Definition chain_env : GymEnv.GymEnv nat string :=
  {| GymEnv._env := chain; GymEnv._directory := None |}.

(** An arithmetic for the examples: exact, on the rationals; a number is
    printed as a fraction. *)
Definition exact_sum (x : list Q) : Q := foldl Qplus 0%Q x.

Definition exact_divide (x : Q) (n : nat) : result exception Q :=
  Return (x / inject_Z (Z.of_nat n))%Q.

(** To the nearest integer, ties to the even one. *)
Definition round_half_even (x : Q) : Z :=
  let f := Qfloor x in
  match (x - inject_Z f ?= 1 # 2)%Q with
  | Lt => f
  | Gt => (f + 1)%Z
  | Eq => if Z.even f then f else (f + 1)%Z
  end.

Definition exact_round (x : Q) (ndigits : nat) : result exception Q :=
  let scale := (10 ^ Z.of_nat ndigits)%Z in
  Return (inject_Z (round_half_even (x * inject_Z scale)) / inject_Z scale)%Q.

Definition fraction (x : Q) : string :=
  pretty (Qnum x) +:+ "/" +:+ pretty (Z.pos (Qden x)).

#[export] Instance exact : Arithmetic := {|
  number := Q;
  py_sum := exact_sum;
  divide := exact_divide;
  py_round := exact_round;
  str := fraction
|}.

(** An agent that plays two episodes and is stopped in every other
    training, one that plays one episode, one that is stopped before the
    end of its first episode, and one that fails. *)
Definition Random : Benchmark.agent := {|
  Benchmark.agent_id := 1;
  Benchmark.__name__ := "Random";
  Benchmark.behaviour := λ _ _ _ h,
    {| Benchmark.episodes := [(inject_Z (Z.of_nat h), 1%Q); (3%Q, 2%Q)];
       Benchmark.ended :=
         if Nat.even h then Benchmark.Stopped else Benchmark.Finished |}
|}.

Definition DQN : Benchmark.agent := {|
  Benchmark.agent_id := 2;
  Benchmark.__name__ := "DQN";
  Benchmark.behaviour := λ _ _ _ _,
    {| Benchmark.episodes := [(5%Q, 1%Q)];
       Benchmark.ended := Benchmark.Finished |}
|}.

Definition Idle : Benchmark.agent := {|
  Benchmark.agent_id := 3;
  Benchmark.__name__ := "Idle";
  Benchmark.behaviour := λ _ _ _ _,
    {| Benchmark.episodes := []; Benchmark.ended := Benchmark.Stopped |}
|}.

Definition Broken : Benchmark.agent := {|
  Benchmark.agent_id := 4;
  Benchmark.__name__ := "Broken";
  Benchmark.behaviour := λ _ _ _ _,
    {| Benchmark.episodes := [];
       Benchmark.ended := Benchmark.Crashed "out of memory" |}
|}.

(** An empty disk, on the first second of 2017. *)
Definition blank : Benchmark.world := {|
  Benchmark.fs := Dir ∅;
  Benchmark.stdout := [];
  Benchmark.heap := [];
  Benchmark.utcnow := "2017-01-01T00-00-00"
|}.

Definition dry (repeats : Z) : Benchmark.Benchmark := {|
  Benchmark._directory := None;
  Benchmark._repeats := repeats;
  Benchmark._trainer_kwargs := [("timesteps", PyInt 1000)]
|}.

Definition saved (repeats : Z) : Benchmark.Benchmark := {|
  Benchmark._directory := Some "/home/user/experiments";
  Benchmark._repeats := repeats;
  Benchmark._trainer_kwargs := [("timesteps", PyInt 1000)]
|}.

(** A disk with one experiment: one pair, whose two repeats were numbered
    2 and 10 among eleven or more, next to a file of notes. *)
Definition repeat_dir (s d : list Q) : node :=
  Dir (<[ "scores.npy" := File (Npy s) ]>
         (<[ "durations.npy" := File (Npy d) ]>
            (<[ "monitor.json" := File (Bytes "{}") ]> ∅))).

Definition archive : Benchmark.world := {|
  Benchmark.fs :=
    Dir (<[ "exp" :=
              Dir (<[ "Pong-Random" :=
                        Dir (<[ "repeat-10" := repeat_dir [7%Q; 8%Q] [1%Q; 1%Q] ]>
                               (<[ "repeat-02" := repeat_dir [4%Q] [3%Q] ]>
                                  (<[ "notes.txt" := File (Bytes "to do") ]> ∅)))
                    ]> ∅) ]> ∅);
  Benchmark.stdout := [];
  Benchmark.heap := [];
  Benchmark.utcnow := "2017-01-02T00-00-00"
|}.

(** [gym.make], which knows one environment, and [wrappers.Monitor]: the
    monitor cannot be closed while an episode runs, and closing the
    monitored environment rewinds it. *)
Definition make (env_name : string) : GymEnv.Env nat string := chain.

Definition Monitor (env : GymEnv.Env nat string) (directory : string)
    (videos : bool) : GymEnv.Env nat string := {|
  GymEnv.observation_space := GymEnv.observation_space env;
  GymEnv.action_space := GymEnv.action_space env;
  GymEnv.env_reset := GymEnv.env_reset env;
  GymEnv.env_step := GymEnv.env_step env;
  GymEnv.env_close := λ _, (Return tt, 0%nat);
  GymEnv.monitor_close := λ s,
    if bool_decide (s < 3)%nat then (Raise "episode running", s)
    else (Return tt, (s + 10)%nat)
|}.

(** The chain with a defect: its reset emits no observation, and it fails
    on action 1. *)
Definition stuck : GymEnv.Env nat string := {|
  GymEnv.observation_space := GymEnv.observation_space chain;
  GymEnv.action_space := GymEnv.action_space chain;
  GymEnv.env_reset := λ _, (Return PyNone, 0%nat);
  GymEnv.env_step := λ action s,
    match action with
    | PyInt 1 => (Raise "stuck", S s)
    | _ => GymEnv.env_step chain action s
    end;
  GymEnv.env_close := λ s, (Raise "stuck", s);
  GymEnv.monitor_close := λ s, (Return tt, s)
|}.

Definition stuck_env : GymEnv.GymEnv nat string :=
  {| GymEnv._env := stuck; GymEnv._directory := None |}.

(** The chain when it cannot be started: its reset fails on an assertion
    of its own. *)
Definition dead : GymEnv.Env nat string := {|
  GymEnv.observation_space := GymEnv.observation_space chain;
  GymEnv.action_space := GymEnv.action_space chain;
  GymEnv.env_reset := λ s, (Raise "AssertionError: no display", s);
  GymEnv.env_step := GymEnv.env_step chain;
  GymEnv.env_close := GymEnv.env_close chain;
  GymEnv.monitor_close := GymEnv.monitor_close chain
|}.

Definition dead_env : GymEnv.GymEnv nat string :=
  {| GymEnv._env := dead; GymEnv._directory := None |}.

(** An agent that fails in the second training of a run. *)
Definition Flaky : Benchmark.agent := {|
  Benchmark.agent_id := 5;
  Benchmark.__name__ := "Flaky";
  Benchmark.behaviour := λ _ _ _ h,
    {| Benchmark.episodes := [(1%Q, 1%Q)];
       Benchmark.ended :=
         if bool_decide (h = 1%nat) then Benchmark.Crashed "diverged"
         else Benchmark.Finished |}
|}.

End Sample.

(** ** Notions used in the statements *)

Module Spec.
Import Benchmark.

(** The trainer that the repeat numbered [repeat] makes and trains, when it
    is the [h]-th trainer of the run. *)
Definition repeat_trainer (self : Benchmark) (directory : option string)
    (env : string) (a : agent) (repeat : Z) (h : nat) : trainer :=
  after_training a h
    {| trainer_directory :=
         subdirectory_of directory (template_format (_repeats self) repeat);
       trainer_env := env;
       trainer_kwargs := _trainer_kwargs self;
       scores := [];
       durations := [] |}.

(** How the training of that trainer ends. *)
Definition repeat_ended (self : Benchmark) (directory : option string)
    (env : string) (a : agent) (repeat : Z) (h : nat) : ending :=
  ended (behaviour a
           (subdirectory_of directory (template_format (_repeats self) repeat))
           env (_trainer_kwargs self) h).

Definition crashed (e : ending) : Prop :=
  match e with
  | Crashed _ => True
  | _ => False
  end.

(** The trainers of the repeats of a pair, when the first of them is the
    [h]-th trainer of the run. *)
Definition pair_trainers (self : Benchmark) (directory : option string)
    (env : string) (a : agent) (h : nat) : list trainer :=
  imap (λ i repeat, repeat_trainer self directory env a repeat (h + i))
    (seqZ 0 (_repeats self)).

(** None of the trainings of these repeats raises anything but
    [StopTraining]. *)
Definition no_crash (self : Benchmark) (directory : option string)
    (env : string) (a : agent) : Prop :=
  ∀ repeat h, ¬ crashed (repeat_ended self directory env a repeat h).

(** The state a dry pair leaves, however it ends: the files are untouched
    and the trainers it made have no directory. *)
Definition dry_since (w w' : world) : Prop :=
  fs w' = fs w
  ∧ ∃ ts, heap w' = heap w ++ ts ∧ Forall (λ t, trainer_directory t = None) ts.


(** The results in memory hold what trainers of the run expose: each pair
    has an entry, under the class of its agent; and each entry, of the
    scores or of the durations, is what the trainers of the repeats of a
    pair expose, these trainers being the [h]-th and next ones made
    ([before] and [after] are the trainers before and after the run). *)
Definition held_by (self : Benchmark) (experiment : option string)
    (pairs : list (string * agent)) (before after : list trainer)
    (sc du : results) : Prop :=
  (∀ env a, (env, a) ∈ pairs → is_Some (getitem sc env (inl (agent_id a))))
  ∧ (∀ env k,
       is_Some (getitem sc env k) ∨ is_Some (getitem du env k) →
       ∃ a h, (env, a) ∈ pairs ∧ k = inl (agent_id a) ∧ length before ≤ h
         ∧ let ts :=
             pair_trainers self
               (subdirectory_of experiment (env +:+ "-" +:+ __name__ a))
               env a h in
           take (length ts) (drop h after) = ts
           ∧ getitem sc env k = Some (scores <$> ts)
           ∧ getitem du env k = Some (durations <$> ts)).

(** The directory of the experiment that a run started in [w] derives. *)
Definition experiment_of (self : Benchmark) (name : string) (w : world)
    : option string :=
  if_set (_directory self)
    (λ d, Some (os.path.join d (utcnow w +:+ "-" +:+ name))) None.

(** The state of a run once it has started. *)
Definition started (self : Benchmark) (name : string) (w : world) : world :=
  set_stdout
    (stdout w ++ [match experiment_of self name w with
                  | Some experiment => Start_experiment experiment
                  | None => Start_experiment_dry_run
                  end]) w.

(** The [width] lowest decimal digits of [n], the highest first. *)
Fixpoint fixed (width : nat) (n : N) : string :=
  match width with
  | O => EmptyString
  | S width' =>
      String (pretty_N_char ((n `div` (10 ^ N.of_nat width')) `mod` 10)%N)
        (fixed width' n)
  end.

(** The number of decimal digits of [n], none for 0. *)
Definition digits (n : N) : nat := String.length (pretty_N_go n EmptyString).

(** Strictly before, in the order of [sorted]. *)
Definition before (s1 s2 : string) : Prop := String.le s1 s2 ∧ s1 ≠ s2.

(** A name of a directory entry: not empty, not [.] nor [..], and without
    [/]. *)
Definition valid_name (x : string) : Prop :=
  x ≠ EmptyString ∧ x ≠ "." ∧ x ≠ ".." ∧ occurs "/" x = false.

Global Instance valid_name_dec (x : string) : Decision (valid_name x).
Proof. unfold valid_name. apply _. Defined.

(** The entries of [directory] have names, as in any file system. *)
Definition named_entries (root : node) (directory : string) : Prop :=
  ∀ names, os.listdir root directory = Return names → Forall valid_name names.

(** What [join] puts before a name. *)
Definition join_prefix (d : string) : string :=
  if bool_decide (d = EmptyString) || endswith "/" d then d else d +:+ "/".

(** The entries of a directory, none for what is not one. *)
Definition entries_of (t : option node) : gmap string node :=
  match t with
  | Some (Dir entries) => entries
  | _ => ∅
  end.

Definition is_dir (n : node) : bool :=
  match n with
  | Dir _ => true
  | File _ => false
  end.

(** The names of the directories among the entries of a directory. *)
Definition dir_names (entries : gmap string node) : list string :=
  filter (λ x, from_option is_dir false (entries !! x))
    (fst <$> map_to_list entries).

(** What [_get_subdirs] returns, as a function of the files. *)
Definition subdirs (root : node) (directory : string)
    : result exception (list string) :=
  match os.listdir root directory with
  | Raise e => Raise e
  | Return names =>
      Return (sorted (filter (λ x, os.path.isdir root x)
                        (os.path.join directory <$> names)))
  end.

(** The arrays of the repeats of a pair, loaded one repeat after the
    other. *)
Fixpoint load_all (root : node) (repeats : list string)
    : result exception (list (list Q) * list (list Q)) :=
  match repeats with
  | [] => Return ([], [])
  | repeat :: rest =>
      match np_load root (os.path.join repeat "scores.npy") with
      | Raise e => Raise e
      | Return s =>
          match np_load root (os.path.join repeat "durations.npy") with
          | Raise e => Raise e
          | Return d =>
              match load_all root rest with
              | Raise e => Raise e
              | Return (ss, ds) => Return (s :: ss, d :: ds)
              end
          end
      end
  end.

(** The key that [read] files a benchmark directory under: what is before
    and after the last [-] of its name. *)
Definition key_of (benchmark : string) : option (string * string) :=
  rpartition "-" (os.path.basename benchmark).

(** What [read] does with one benchmark directory, and with all of them,
    as functions of the files. *)
Definition read_one (root : node) (benchmark : string)
    (acc : results * results) : result exception (results * results) :=
  match key_of benchmark with
  | None => Raise cannot_unpack
  | Some (env, agent_) =>
      match subdirs root benchmark with
      | Raise e => Raise e
      | Return repeats =>
          match load_all root repeats with
          | Raise e => Raise e
          | Return (ss, ds) =>
              Return (setitem acc.1 env (inr agent_) ss,
                      setitem acc.2 env (inr agent_) ds)
          end
      end
  end.

Fixpoint read_all (root : node) (benchmarks : list string)
    (acc : results * results) : result exception (results * results) :=
  match benchmarks with
  | [] => Return acc
  | benchmark :: rest =>
      match read_one root benchmark acc with
      | Raise e => Raise e
      | Return acc' => read_all root rest acc'
      end
  end.

(** *** The experiment on disk

    What a run leaves below the directory of its experiment: a directory
    for each pair, holding a directory for each repeat, holding the two
    arrays.  [disk] maps the name of a pair to the names of its repeats, and
    these to their scores and durations. *)
Abbreviation disk := (gmap string (gmap string (list Q * list Q))).

Definition repeat_node (x : list Q * list Q) : node :=
  Dir (<[ "durations.npy" := File (Npy x.2) ]>
         (<[ "scores.npy" := File (Npy x.1) ]> ∅)).

Definition pair_node (reps : gmap string (list Q * list Q)) : node :=
  Dir (repeat_node <$> reps).

(** The directory of a pair gets the arrays [x] of a repeat. *)
Definition write_repeat (pair repeat : string) (x : list Q * list Q)
    (D : disk) : disk :=
  <[ pair := <[ repeat := x ]> (default ∅ (D !! pair)) ]> D.

(** The arrays of the repeats of a pair, written one after the other. *)
Definition write_repeats (n : string)
    (l : list (string * (list Q * list Q))) (D : disk) : disk :=
  foldl (λ D rx, write_repeat n rx.1 rx.2 D) D l.

(** The repeats of a pair, under the names the run gives them. *)
Definition repeat_map (repeats : Z) (scs dus : list (list Q))
    : gmap string (list Q * list Q) :=
  list_to_map (zip (template_format repeats <$> seqZ 0 repeats) (zip scs dus)).

(** ['{}-{}'.format(env, agent.__name__)] *)
Definition pair_name (env : string) (a : agent) : string :=
  env +:+ "-" +:+ __name__ a.

(** [read'] holds, under the names of the agents, what [mem] holds under
    the agents themselves, and nothing else. *)
Definition renamed (agents : list agent) (mem read' : results) : Prop :=
  (∀ env a, a ∈ agents →
     getitem read' env (inr (__name__ a)) = getitem mem env (inl (agent_id a)))
  ∧ (∀ env k, is_Some (getitem read' env k) →
       ∃ a, a ∈ agents ∧ k = inr (__name__ a))
  ∧ (∀ env k, is_Some (getitem mem env k) →
       ∃ a, a ∈ agents ∧ k = inl (agent_id a)).

(** The names of the environments and of the agents can be put together in
    the name of a directory and told apart again: no [/] in them, no [-] in
    the name of an agent; and the agents are told apart by their names as
    they are by their identities. *)
Definition well_named (envs : list string) (agents : list agent) : Prop :=
  Forall (λ env, occurs "/" env = false) envs
  ∧ Forall (λ a, occurs "/" (__name__ a) = false
                 ∧ occurs "-" (__name__ a) = false) agents
  ∧ ∀ a b, a ∈ agents → b ∈ agents →
      (__name__ a = __name__ b ↔ agent_id a = agent_id b).

(** The directories on disk are the ones of the pairs gone through, and
    hold for each pair what the run holds in memory for it. *)
Definition on_disk (self : Benchmark) (pairs : list (string * agent))
    (D : disk) (sc du : results) : Prop :=
  (∀ n reps, D !! n = Some reps →
     ∃ env a scs dus,
       (env, a) ∈ pairs ∧ n = pair_name env a
       ∧ getitem sc env (inl (agent_id a)) = Some scs
       ∧ getitem du env (inl (agent_id a)) = Some dus
       ∧ reps = repeat_map (_repeats self) scs dus
       ∧ length scs = Z.to_nat (_repeats self)
       ∧ length dus = Z.to_nat (_repeats self))
  ∧ (∀ env a, (env, a) ∈ pairs → is_Some (D !! pair_name env a)).

(** What a run prints for its pairs: each pair, followed by the summary of
    its scores. *)
Definition report (pairs : list (string * agent)) (means : list string)
    : list line :=
  concat (zip_with (λ pair mean, [Benchmark_on (__name__ pair.2) pair.1;
                                  Mean_best_score mean])
            pairs means).

End Spec.

(** * Properties *)

(** ** The adapter *)

Lemma isinstance_numeric v : isinstance v ["int"; "float"] = true ↔ numeric v.
Proof.
  destruct v as [| | | | | |mro repr];
    try (vm_compute; split; [intros _; exact I | reflexivity]);
    try (vm_compute; split; [discriminate | intros []]).
  unfold isinstance; simpl.
  rewrite !orb_true_iff, !bool_decide_eq_true. split.
  - intros [Hint|[Hfloat|Hfalse]]; [by left|by right|discriminate].
  - intros [Hint|Hfloat]; [by left|by right; left].
Qed.

Section gym_env.
Context {S X : Type}.
Implicit Types (self : GymEnv.GymEnv S X) (action : pyval) (s : S).

(** [step], one branch for each way out of it. *)
Lemma step_unfold self action s :
  GymEnv.step self action s =
  if GymEnv.contains (GymEnv.actions self) action then
    match GymEnv.env_step (GymEnv._env self) action s with
    | (Raise x, s') => (Raise (GymEnv.Propagated x), s')
    | (Return (observation, reward, terminal, _), s') =>
        if GymEnv.contains (GymEnv.observs self) observation then
          if isinstance reward ["int"; "float"] then
            (Return (reward, if terminal then PyNone else observation), s')
          else (Raise (GymEnv.AssertionError GymEnv.reward_is_number), s')
        else (Raise (GymEnv.AssertionError GymEnv.observation_in_space), s')
    end
  else (Raise (GymEnv.AssertionError GymEnv.action_in_space), s).
Proof.
  unfold GymEnv.step, GymEnv.assert_, bind, lift, ret, raise.
  destruct (GymEnv.contains (GymEnv.actions self) action); [|done].
  destruct (GymEnv.env_step _ action s) as [[[[[observation reward] terminal] info]|x] s'];
    [|done].
  destruct (GymEnv.contains (GymEnv.observs self) observation); [|done].
  by destruct (isinstance reward _).
Qed.

(** C2: when the wrapped environment reports [done = true], the observation
    of the pair that [step] returns is [None], whatever observation the
    wrapped environment emitted; and [step] does return that pair as soon
    as its three assertions hold. *)
Theorem step_done_observation_is_None self action s observation reward info s' :
  GymEnv.env_step (GymEnv._env self) action s
    = (Return (observation, reward, true, info), s') →
  (∀ r o s'', GymEnv.step self action s = (Return (r, o), s'') → o = PyNone)
  ∧ (GymEnv.contains (GymEnv.actions self) action = true →
     GymEnv.contains (GymEnv.observs self) observation = true →
     isinstance reward ["int"; "float"] = true →
     GymEnv.step self action s = (Return (reward, PyNone), s')).
Proof.
  intros Hstep. rewrite step_unfold, Hstep. split.
  - intros r o s''.
    destruct (GymEnv.contains (GymEnv.actions self) action); [|done].
    destruct (GymEnv.contains (GymEnv.observs self) observation); [|done].
    destruct (isinstance reward _); [|done].
    by intros [= _ <- _].
  - by intros -> -> ->.
Qed.

(** C3: an action of the action space never makes [step] raise the
    assertion on the action; an action outside of it makes [step] raise that
    assertion, before the wrapped environment is stepped (its state is
    unchanged). *)
Theorem step_action_assertion self action s :
  (GymEnv.contains (GymEnv.actions self) action = true →
   (GymEnv.step self action s).1
     ≠ Raise (GymEnv.AssertionError GymEnv.action_in_space))
  ∧ (GymEnv.contains (GymEnv.actions self) action = false →
     GymEnv.step self action s
       = (Raise (GymEnv.AssertionError GymEnv.action_in_space), s)).
Proof.
  rewrite step_unfold. split; intros ->; [|done].
  destruct (GymEnv.env_step _ action s) as [[[[[observation reward] terminal] info]|x] s'];
    [|done].
  destruct (GymEnv.contains _ observation); [|done].
  by destruct (isinstance reward _).
Qed.

(** C4: the reward of a pair that [step] returns is a number; and when the
    wrapped environment, stepped with an action of the action space, returns
    a reward that is not one, [step] raises an assertion: the one on the
    reward, or the one on the observation when that fails already. *)
Theorem step_reward_is_number self action s :
  (∀ r o s', GymEnv.step self action s = (Return (r, o), s') → numeric r)
  ∧ (∀ observation reward terminal info s',
       GymEnv.contains (GymEnv.actions self) action = true →
       GymEnv.env_step (GymEnv._env self) action s
         = (Return (observation, reward, terminal, info), s') →
       ¬ numeric reward →
       GymEnv.step self action s
         = (Raise (GymEnv.AssertionError
                     (if GymEnv.contains (GymEnv.observs self) observation
                      then GymEnv.reward_is_number
                      else GymEnv.observation_in_space)), s')).
Proof.
  rewrite step_unfold. split.
  - intros r o s'.
    destruct (GymEnv.contains (GymEnv.actions self) action); [|done].
    destruct (GymEnv.env_step _ action s) as [[[[[observation reward] terminal] info]|x] s''];
      [|done].
    destruct (GymEnv.contains _ observation); [|done].
    destruct (isinstance reward _) eqn:Hnum; [|done].
    intros [= <- _ _]. by apply isinstance_numeric.
  - intros observation reward terminal info s' -> -> Hnum.
    destruct (GymEnv.contains _ observation); [|done].
    destruct (isinstance reward _) eqn:Hnum'; [|done].
    by apply isinstance_numeric in Hnum'.
Qed.

(** C9: the assertion on the observation is checked on what the wrapped
    environment emitted, before [done] is looked at: an observation outside
    of the observation space makes [step] raise it, on a terminal step
    ([done = true]) as on any other. *)
Theorem step_observation_assertion_before_done
    self action s observation reward terminal info s' :
  GymEnv.contains (GymEnv.actions self) action = true →
  GymEnv.env_step (GymEnv._env self) action s
    = (Return (observation, reward, terminal, info), s') →
  GymEnv.contains (GymEnv.observs self) observation = false →
  GymEnv.step self action s
    = (Raise (GymEnv.AssertionError GymEnv.observation_in_space), s').
Proof. intros Ha Hstep Ho. by rewrite step_unfold, Ha, Hstep, Ho. Qed.

End gym_env.

Lemma step_done_observation_is_None_witness :
  GymEnv.step Sample.chain_env (PyInt 1) 2%nat
    = (Return (PyFloat 1%Q, PyNone), 3%nat).
Proof.
  apply (step_done_observation_is_None Sample.chain_env (PyInt 1) 2%nat
           (PyInt 3) (PyFloat 1%Q) PyNone 3%nat); reflexivity.
Defined.

Lemma step_action_assertion_witness :
  (GymEnv.step Sample.chain_env (PyInt 1) 0%nat).1
    ≠ Raise (GymEnv.AssertionError GymEnv.action_in_space)
  ∧ GymEnv.step Sample.chain_env (PyInt 5) 0%nat
    = (Raise (GymEnv.AssertionError GymEnv.action_in_space), 0%nat).
Proof.
  split.
  - apply (step_action_assertion Sample.chain_env (PyInt 1) 0%nat). reflexivity.
  - apply (step_action_assertion Sample.chain_env (PyInt 5) 0%nat). reflexivity.
Defined.

Lemma step_reward_is_number_witness :
  numeric (PyFloat 1%Q)
  ∧ GymEnv.step Sample.chain_env (PyInt 0) 3%nat
    = (Raise (GymEnv.AssertionError GymEnv.reward_is_number), 4%nat).
Proof.
  split.
  - apply (proj1 (step_reward_is_number Sample.chain_env (PyInt 0) 0%nat)
             (PyFloat 1%Q) (PyInt 1) 1%nat). reflexivity.
  - apply (proj2 (step_reward_is_number Sample.chain_env (PyInt 0) 3%nat)
             (PyInt 3) (PyStr "late") true PyNone 4%nat);
      [reflexivity | reflexivity | exact (λ H : False, H)].
Defined.

Lemma step_observation_assertion_before_done_witness :
  GymEnv.step Sample.chain_env (PyInt 0) 4%nat
    = (Raise (GymEnv.AssertionError GymEnv.observation_in_space), 4%nat).
Proof.
  apply (step_observation_assertion_before_done Sample.chain_env (PyInt 0)
           4%nat (PyList [PyInt 9; PyInt 9]) (PyFloat 0%Q) true PyNone 4%nat);
    reflexivity.
Defined.

(** ** Loops *)

Section loops.
Context {W E A S : Type}.
Implicit Types (l : list A) (body : A → S → M W E S) (s : S) (w : W).

Lemma for_each_app l1 l2 body s w :
  for_each (l1 ++ l2) body s w =
  match for_each l1 body s w with
  | (Return s', w') => for_each l2 body s' w'
  | (Raise e, w') => (Raise e, w')
  end.
Proof.
  revert s w. induction l1 as [|x l1 IH]; intros s w; simpl; [done|].
  unfold bind. destruct (body x s w) as [[s'|e] w']; [apply IH|done].
Qed.

Lemma for_each_ext l body1 body2 s w :
  (∀ x s w, x ∈ l → body1 x s w = body2 x s w) →
  for_each l body1 s w = for_each l body2 s w.
Proof.
  revert s w. induction l as [|x l IH]; intros s w Hbody; simpl; [done|].
  unfold bind. rewrite Hbody by left.
  destruct (body2 x s w) as [[s'|e] w']; [|done].
  apply IH. intros y s'' w'' Hy. apply Hbody. by right.
Qed.

(** What holds of the state after every iteration, however it ends, holds
    after the loop. *)
Lemma for_each_state (P : W → Prop) l body s w :
  (∀ x s w, x ∈ l → P w → P (body x s w).2) →
  P w → P (for_each l body s w).2.
Proof.
  revert s w. induction l as [|x l IH]; intros s w Hbody Hw; simpl; [done|].
  unfold bind. pose proof (Hbody x s w (list_elem_of_here _ _) Hw) as Hx.
  destruct (body x s w) as [[s'|e] w']; [|done].
  apply IH; [|done]. intros y s'' w'' Hy. apply Hbody. by right.
Qed.

(** An invariant of the iterations that return: [I seen s w] is about the
    items [seen] gone through, the variables and the state. *)
Lemma for_each_returns_at (I : list A → S → W → Prop) l body s w s' w' :
  I [] s w →
  (∀ seen x rest s w s' w',
     l = seen ++ x :: rest →
     I seen s w → body x s w = (Return s', w') → I (seen ++ [x]) s' w') →
  for_each l body s w = (Return s', w') →
  I l s' w'.
Proof.
  intros Hinit Hbody.
  cut (∀ seen rest, l = seen ++ rest → I seen s w →
         for_each rest body s w = (Return s', w') → I l s' w').
  { intros Hcut. by apply (Hcut [] l). }
  clear Hinit. intros seen rest. revert seen s w.
  induction rest as [|x rest IH]; intros seen s w Hl HI; simpl.
  - intros [= <- <-]. by rewrite Hl, app_nil_r.
  - unfold bind. destruct (body x s w) as [[s1|e] w1] eqn:Hx; [|done].
    apply (IH (seen ++ [x])).
    + by rewrite <- (assoc_L (++)).
    + by eapply Hbody.
Qed.

Lemma for_each_returns (I : list A → S → W → Prop) l body s w s' w' :
  I [] s w →
  (∀ seen x s w s' w',
     I seen s w → body x s w = (Return s', w') → I (seen ++ [x]) s' w') →
  for_each l body s w = (Return s', w') →
  I l s' w'.
Proof.
  intros Hinit Hbody. apply for_each_returns_at; [done|].
  intros seen x rest s0 w0 s1 w1 _. apply Hbody.
Qed.

(** A loop returns when each iteration does, from the states that an
    invariant describes. *)
Lemma for_each_total (I : S → W → Prop) l body s w :
  (∀ x s w, x ∈ l → I s w →
     ∃ s' w', body x s w = (Return s', w') ∧ I s' w') →
  I s w →
  ∃ s' w', for_each l body s w = (Return s', w') ∧ I s' w'.
Proof.
  revert s w. induction l as [|x l IH]; intros s w Hbody HI; simpl.
  - by exists s, w.
  - unfold bind. destruct (Hbody x s w (list_elem_of_here _ _) HI) as (s1 & w1 & -> & HI1).
    apply IH; [|done]. intros y s'' w'' Hy. apply Hbody. by right.
Qed.

End loops.

(** ** The repeats of a pair *)

Section benchmark.
Import Benchmark Spec.
Context `{!Arithmetic}.
Implicit Types (self : Benchmark) (directory : option string) (env : string)
  (a : agent) (w : world) (repeat : Z).

Lemma persist_raises (t : trainer) (root : node) (e : exception) :
  persist t root = Raise e → is_StopTraining e = false.
Proof.
  unfold persist, if_set. destruct (trainer_directory t) as [d|]; [|done].
  case_bool_decide; [done|]. destruct (plain d); [|by intros [= <-]].
  destruct (update _ _ _); [done|]. by intros [= <-].
Qed.

(** One repeat: the trainer it adds, what it writes and how it ends. *)
Lemma benchmark_repeat_unfold self directory env a repeat scs dus w :
  benchmark_repeat self directory env a repeat (scs, dus) w =
  let t := repeat_trainer self directory env a repeat (length (heap w)) in
  let w1 := set_heap (heap w ++ [t]) w in
  match persist t (fs w) with
  | Raise e => (Raise e, w1)
  | Return root =>
      match repeat_ended self directory env a repeat (length (heap w)) with
      | Crashed description => (Raise (AgentError description), set_fs root w1)
      | _ => (Return (scs ++ [scores t], dus ++ [durations t]), set_fs root w1)
      end
  end.
Proof.
  unfold benchmark_repeat, Trainer, train, try_except, attr, bind, ret.
  unfold repeat_trainer, repeat_ended, set_fs, set_heap. simpl.
  rewrite lookup_app_r, Nat.sub_diag by done. simpl.
  rewrite insert_app_r_alt, Nat.sub_diag by done. simpl.
  destruct (persist _ (fs w)) as [root|e] eqn:Hpersist.
  - destruct (ended _) eqn:Hend; simpl; [| |done].
    all: by repeat (simpl; rewrite list_lookup_middle by done).
  - by rewrite (persist_raises _ _ _ Hpersist).
Qed.

Lemma scores_durations_length self directory env a repeat h :
  length (scores (repeat_trainer self directory env a repeat h))
  = length (durations (repeat_trainer self directory env a repeat h)).
Proof. unfold repeat_trainer, after_training; simpl. by rewrite !length_fmap. Qed.

Lemma persist_dry (t : trainer) (root : node) :
  truthy (trainer_directory t) = false → persist t root = Return root.
Proof.
  unfold persist, truthy, if_set. destruct (trainer_directory t) as [d|]; [|done].
  by case_bool_decide.
Qed.

Lemma subdirectory_of_dry directory name :
  truthy directory = false → subdirectory_of directory name = None.
Proof.
  unfold subdirectory_of, truthy, if_set. destruct directory as [d|]; [|done].
  by case_bool_decide.
Qed.

(** When [_benchmark] returns, it has made the trainers of its repeats, one
    after the other, and it returns what they expose. *)
Lemma benchmark_returns self directory env a w scs dus w' :
  _benchmark self directory env a w = (Return (scs, dus), w') →
  let ts := pair_trainers self directory env a (length (heap w)) in
  heap w' = heap w ++ ts ∧ stdout w' = stdout w ∧ utcnow w' = utcnow w
  ∧ scs = scores <$> ts ∧ dus = durations <$> ts.
Proof.
  unfold _benchmark, pair_trainers.
  set (f := λ (i : nat) repeat,
         repeat_trainer self directory env a repeat (length (heap w) + i)).
  intros Hrun.
  apply (for_each_returns
    (λ seen acc w1,
       heap w1 = heap w ++ imap f seen ∧ stdout w1 = stdout w
       ∧ utcnow w1 = utcnow w
       ∧ acc.1 = scores <$> imap f seen ∧ acc.2 = durations <$> imap f seen)
    _ _ _ _ _ _) in Hrun; [done| |].
  - simpl. by rewrite app_nil_r.
  - clear. intros seen repeat [scs dus] w1 [scs' dus'] w2 (Hh & Ho & Hu & Hs & Hd).
    simpl in Hs, Hd. subst scs dus.
    rewrite benchmark_repeat_unfold. simpl.
    assert (length (heap w1) = length (heap w) + length seen) as ->.
    { by rewrite Hh, length_app, length_imap. }
    rewrite imap_app; simpl. rewrite !fmap_app, Nat.add_0_r; simpl.
    destruct (persist _ _) as [root|e]; [|done].
    destruct (repeat_ended _ _ _ _ _ _); [| |done].
    all: intros [= <- <- <-]; simpl; by rewrite Hh, <- (assoc_L (++)).
Qed.

Lemma dry_since_refl w : dry_since w w.
Proof. split; [done|]. exists []. by rewrite app_nil_r. Qed.

Lemma benchmark_dry self directory env a w0 w :
  truthy directory = false →
  dry_since w0 w →
  dry_since w0 (_benchmark self directory env a w).2.
Proof.
  intros Hdry. unfold _benchmark. apply for_each_state.
  clear w. intros repeat [scs dus] w _ (Hfs & ts & Hheap & Hts).
  rewrite benchmark_repeat_unfold; simpl.
  assert (trainer_directory
            (repeat_trainer self directory env a repeat (length (heap w)))
          = None) as Hnone.
  { unfold repeat_trainer; simpl. by apply subdirectory_of_dry. }
  rewrite persist_dry by by rewrite Hnone.
  assert (∀ root : node, root = fs w →
    dry_since w0 (set_fs root (set_heap (heap w ++
      [repeat_trainer self directory env a repeat (length (heap w))]) w)))
    as Hnext.
  { intros root ->. split; [done|]. simpl.
    exists (ts ++ [repeat_trainer self directory env a repeat (length (heap w))]).
    rewrite Hheap, <- (assoc_L (++)). split; [done|].
    apply Forall_app. split; [done|]. by apply Forall_singleton. }
  destruct (repeat_ended _ _ _ _ _ _); simpl; by apply Hnext.
Qed.

(** A dry pair whose trainings do not crash returns. *)
Lemma benchmark_total_dry self directory env a w :
  truthy directory = false →
  no_crash self directory env a →
  ∃ scs dus w', _benchmark self directory env a w = (Return (scs, dus), w').
Proof.
  intros Hdry Hok. unfold _benchmark.
  destruct (for_each_total (λ _ _, True) (seqZ 0 (_repeats self))
              (benchmark_repeat self directory env a) ([], []) w)
    as ([scs dus] & w' & Hrun & _); [|done|by exists scs, dus, w'].
  intros repeat [scs dus] w1 _ _. rewrite benchmark_repeat_unfold; simpl.
  rewrite persist_dry.
  2:{ unfold repeat_trainer; simpl. by rewrite subdirectory_of_dry. }
  specialize (Hok repeat (length (heap w1))).
  destruct (repeat_ended _ _ _ _ _ _); simpl in *; [by eexists _, _..|done].
Qed.

(** C5: for a repeat count [R] (the count of a run, none or more),
    [_benchmark] returns [R] sequences of scores and [R] sequences of
    durations, the [i]-th of the ones as long as the [i]-th of the others;
    and it does return when none of the trainings crashes (in a dry run,
    where nothing can go wrong with the files). *)
Theorem benchmark_returns_R_sequences self directory env a w :
  (0 ≤ _repeats self)%Z →
  (∀ scs dus w',
     _benchmark self directory env a w = (Return (scs, dus), w') →
     Z.of_nat (length scs) = _repeats self
     ∧ Z.of_nat (length dus) = _repeats self
     ∧ ∀ i s d, scs !! i = Some s → dus !! i = Some d → length s = length d)
  ∧ (truthy directory = false → no_crash self directory env a →
     ∃ scs dus w', _benchmark self directory env a w = (Return (scs, dus), w')).
Proof.
  intros HR. split; [|apply benchmark_total_dry].
  intros scs dus w' (_ & _ & _ & -> & ->)%benchmark_returns.
  unfold pair_trainers. rewrite !length_fmap, length_imap, length_seqZ.
  split; [lia|]. split; [lia|].
  intros i s d. rewrite !list_lookup_fmap, list_lookup_imap.
  destruct (seqZ 0 (_repeats self) !! i) as [repeat|]; [|done]. simpl.
  intros [= <-] [= <-]. apply scores_durations_length.
Qed.

(** *** The summary of a pair *)


Lemma comprehension_max_raise (score : list (list Q)) :
  [] ∈ score → comprehension (py_max max_of_empty) score = Raise max_of_empty.
Proof.
  induction score as [|x score IH]; [by intros ?%elem_of_nil|].
  intros [<-|Hin]%elem_of_cons; [done|]. simpl.
  destruct (py_max _ x) as [b|e] eqn:Hx.
  - by rewrite IH.
  - destruct x; by simplify_eq/=.
Qed.


Lemma mean_best_Return (score : list (list Q)) (m : number) :
  mean_best score = Return m → score ≠ [] ∧ [] ∉ score.
Proof.
  intros Hmean. split.
  - by intros ->.
  - intros Hin. unfold mean_best in Hmean.
    by rewrite comprehension_max_raise in Hmean.
Qed.


(** *** The pairs of a run *)

Lemma benchmark_pair_unfold self experiment env a sc du w :
  benchmark_pair self experiment (env, a) (sc, du) w =
  let directory := subdirectory_of experiment (env +:+ "-" +:+ __name__ a) in
  match _benchmark self directory env a
          (set_stdout (stdout w ++ [Benchmark_on (__name__ a) env]) w) with
  | (Raise e, w1) => (Raise e, w1)
  | (Return (score, duration), w1) =>
      match mean_best score with
      | Raise e => (Raise e, w1)
      | Return mean =>
          (Return (setitem sc env (inl (agent_id a)) score,
                   setitem du env (inl (agent_id a)) duration),
           set_stdout (stdout w1 ++ [Mean_best_score (str mean)]) w1)
      end
  end.
Proof.
  unfold benchmark_pair, bind, print, pure, ret; simpl.
  destruct (_benchmark _ _ _ _ _) as [[[score duration]|e] w1]; [|done].
  by destruct (mean_best score).
Qed.

Lemma getitem_setitem (d : results) env k v env' k' :
  getitem (setitem d env k v) env' k'
  = if decide (env = env' ∧ k = k') then Some v else getitem d env' k'.
Proof.
  unfold getitem, setitem. destruct (decide (env = env')) as [<-|Hne].
  - rewrite lookup_insert_eq; simpl. destruct (decide (k = k')) as [<-|Hk].
    + rewrite lookup_insert_eq. by rewrite decide_True.
    + rewrite lookup_insert_ne by done. rewrite decide_False by tauto.
      by destruct (d !! env).
  - rewrite lookup_insert_ne by done. by rewrite decide_False by tauto.
Qed.

Lemma take_drop_app_keep {A} (l k ts : list A) (h : nat) :
  take (length ts) (drop h l) = ts →
  take (length ts) (drop h (l ++ k)) = ts.
Proof.
  intros Hts. destruct (decide (length ts = 0)) as [Hz|Hnz].
  { apply nil_length_inv in Hz as ->. by rewrite take_0. }
  assert (h + length ts ≤ length l).
  { apply (f_equal length) in Hts. rewrite length_take, length_drop in Hts. lia. }
  rewrite drop_app_le by lia. rewrite take_app_le; [done|].
  rewrite length_drop. lia.
Qed.

(** What a run that returns leaves in memory. *)
Lemma train_all_returns self experiment envs agents w sc du w' :
  train_all self experiment envs agents w = (Return (sc, du), w') →
  (list_prod envs agents ≠ [] → (1 ≤ _repeats self)%Z)
  ∧ (∃ ts, heap w' = heap w ++ ts ∧ Forall (λ t, scores t ≠ []) ts)
  ∧ held_by self experiment (list_prod envs agents) (heap w) (heap w') sc du.
Proof.
  unfold train_all. intros Hrun.
  apply (for_each_returns
    (λ seen acc w1,
       (seen ≠ [] → (1 ≤ _repeats self)%Z)
       ∧ (∃ ts, heap w1 = heap w ++ ts ∧ Forall (λ t, scores t ≠ []) ts)
       ∧ held_by self experiment seen (heap w) (heap w1) acc.1 acc.2)
    _ _ _ _ _ _) in Hrun; [done| |].
  - split; [done|]. split; [exists []; by rewrite app_nil_r|]. split.
    + by intros env a ?%elem_of_nil.
    + intros env k [[v Hv]|[v Hv]]; unfold getitem in Hv; simpl in Hv;
        by rewrite lookup_empty in Hv.
  - clear. intros seen [env0 a0] [sc du] w1 [sc' du'] w2.
    intros (HR & (ts & Hheap & Hts) & Hpairs & Hentries).
    rewrite benchmark_pair_unfold; simpl in *.
    destruct (_benchmark _ _ _ _ _) as [[[score duration]|e] w1'] eqn:Hpair;
      [|done].
    apply benchmark_returns in Hpair as (Hheap' & _ & _ & -> & ->).
    simpl in Hheap'.
    set (ts0 := pair_trainers self
                  (subdirectory_of experiment (env0 +:+ "-" +:+ __name__ a0))
                  env0 a0 (length (heap w1))) in *.
    destruct (mean_best _) as [mean|e] eqn:Hmean; [|done].
    apply mean_best_Return in Hmean as [Hne Hin].
    intros [= <- <- <-]; simpl. split; [|split; [|split]].
    + intros _. destruct (decide (1 ≤ _repeats self)%Z); [done|].
      destruct Hne. subst ts0. unfold pair_trainers.
      by rewrite seqZ_nil by lia.
    + exists (ts ++ ts0). rewrite Hheap', Hheap, (assoc_L (++)). split; [done|].
      apply Forall_app. split; [done|].
      apply Forall_forall. intros t Ht Hempty. apply Hin.
      rewrite <- Hempty. by apply list_elem_of_fmap_2.
    + intros env a [Hseen|Heq%list_elem_of_singleton]%elem_of_app.
      * rewrite getitem_setitem. case_decide; [done|]. by apply Hpairs.
      * injection Heq as -> ->. rewrite getitem_setitem. by rewrite decide_True.
    + intros env k. rewrite !getitem_setitem.
      destruct (decide (env0 = env ∧ inl (agent_id a0) = k)) as [[<- <-]|Hother].
      * intros _. exists a0, (length (heap w1)).
        split; [set_solver|]. split; [done|]. split; [rewrite Hheap, length_app; lia|].
        fold ts0. cbv zeta. by rewrite Hheap', drop_app_length, firstn_all.
      * intros (a & h & Hseen & -> & Hh & Htake & Hsc & Hdu)%Hentries.
        exists a, h. split; [set_solver|]. split; [done|]. split; [done|].
        cbv zeta. rewrite Hheap'. split; [by apply take_drop_app_keep|done].
Qed.

Lemma start_experiment_unfold self name w :
  _start_experiment self name w
  = (Return (experiment_of self name w), started self name w).
Proof.
  unfold _start_experiment, started, experiment_of, if_set.
  destruct (_directory self) as [d|]; [|done]. by case_bool_decide.
Qed.

(** [read] only reads. *)
Lemma get_subdirs_state (d : string) w : (_get_subdirs d w).2 = w.
Proof.
  unfold _get_subdirs, reading, bind, ret.
  by destruct (os.listdir (fs w) d).
Qed.

Lemma read_repeat_state (env agent_ repeat : string) acc w :
  (read_repeat env agent_ repeat acc w).2 = w.
Proof.
  destruct acc as [sc du]. unfold read_repeat, reading, pure, bind, ret.
  destruct (np_load (fs w) _); [|done].
  destruct (np_load (fs w) _); [|done].
  destruct (append sc _ _ _); [|done].
  by destruct (append du _ _ _).
Qed.

Lemma read_benchmark_state (benchmark : string) acc w :
  (read_benchmark benchmark acc w).2 = w.
Proof.
  destruct acc as [sc du]. unfold read_benchmark, pure, bind.
  destruct (unpack2 _) as [[env agent_]|e]; [|done].
  pose proof (get_subdirs_state benchmark w) as Hsub.
  destruct (_get_subdirs benchmark w) as [[repeats|e] w1]; simpl in Hsub;
    subst w1; [|done].
  apply (for_each_state (λ w', w' = w)); [|done].
  intros repeat acc w' _ ->. apply read_repeat_state.
Qed.

Lemma read_state (experiment : string) w : (read experiment w).2 = w.
Proof.
  unfold read, bind.
  pose proof (get_subdirs_state experiment w) as Hsub.
  destruct (_get_subdirs experiment w) as [[benchmarks|e] w1]; simpl in Hsub;
    subst w1; [|done].
  apply (for_each_state (λ w', w' = w)); [|done].
  intros benchmark acc w' _ ->. apply read_benchmark_state.
Qed.




(** *** Dry runs *)

Lemma experiment_of_dry self name w :
  truthy (_directory self) = false → experiment_of self name w = None.
Proof.
  unfold experiment_of, truthy, if_set. destruct (_directory self) as [d|]; [|done].
  by case_bool_decide.
Qed.

Lemma benchmark_pair_dry self experiment pair acc w0 w :
  truthy experiment = false →
  dry_since w0 w →
  dry_since w0 (benchmark_pair self experiment pair acc w).2.
Proof.
  intros Hdry Hw. destruct pair as [env a], acc as [sc du].
  rewrite benchmark_pair_unfold; simpl.
  set (w1 := set_stdout _ w).
  assert (dry_since w0 w1) as Hw1 by done.
  assert (truthy (subdirectory_of experiment (env +:+ "-" +:+ __name__ a))
          = false) as Hsub by by rewrite subdirectory_of_dry.
  pose proof (benchmark_dry self _ env a w0 w1 Hsub Hw1) as Hw2.
  destruct (_benchmark _ _ _ _ _) as [[[score duration]|e] w2]; [|done].
  by destruct (mean_best score).
Qed.

Lemma train_all_dry self experiment envs agents w0 w :
  truthy experiment = false →
  dry_since w0 w →
  dry_since w0 (train_all self experiment envs agents w).2.
Proof.
  intros Hdry. unfold train_all. apply for_each_state.
  intros pair acc w' _. by apply benchmark_pair_dry.
Qed.

(** C6: in a run without a root directory, no directory is derived: not
    for the experiment (the run returns [None] for it), and not for the
    trainers, which are all made without one; the files are left as they
    were, however the run ends; and the scores and the durations that the
    run returns are the ones the loop over the pairs has collected in
    memory, which are the ones the trainers expose. *)
Theorem dry_run_returns_memory self name envs agents w :
  truthy (_directory self) = false →
  let out := __call__ self name envs agents w in
  dry_since w out.2
  ∧ ∀ experiment sc du,
      out.1 = Return (experiment, sc, du) →
      experiment = None
      ∧ train_all self None envs agents (started self name w)
        = (Return (sc, du), out.2)
      ∧ held_by self None (list_prod envs agents) (heap w) (heap out.2) sc du.
Proof.
  intros Hdry out. subst out. unfold __call__, bind.
  rewrite start_experiment_unfold, (experiment_of_dry _ _ _ Hdry); simpl.
  pose proof (train_all_dry self None envs agents w (started self name w)
                eq_refl (dry_since_refl w)) as Hstate.
  destruct (train_all _ _ _ _ _) as [[[sc1 du1]|e] w1] eqn:Hrun; simpl.
  - split; [done|]. intros experiment sc du [= <- <- <-].
    split; [done|]. split; [done|].
    by apply train_all_returns in Hrun as (_ & _ & Hheld).
  - by split.
Qed.

End benchmark.

Section witnesses.
Import Benchmark Spec Sample.

Lemma Random_no_crash directory env : no_crash (dry 2) directory env Random.
Proof.
  intros repeat h. unfold repeat_ended; simpl.
  destruct (Nat.even h); exact (λ H : False, H).
Defined.

Lemma benchmark_returns_R_sequences_witness :
  ∃ scs dus w',
    _benchmark (dry 2) None "Pong" Random blank = (Return (scs, dus), w')
    ∧ Z.of_nat (length scs) = 2%Z ∧ Z.of_nat (length dus) = 2%Z
    ∧ ∀ i s d, scs !! i = Some s → dus !! i = Some d → length s = length d.
Proof.
  pose proof (benchmark_returns_R_sequences (dry 2) None "Pong" Random blank)
    as Hthm.
  destruct Hthm as [Hshape Hreturns]; [simpl; lia|].
  destruct (Hreturns eq_refl (Random_no_crash None "Pong"))
    as (scs & dus & w' & Hrun).
  exists scs, dus, w'. split; [exact Hrun|]. exact (Hshape scs dus w' Hrun).
Defined.


Lemma dry_run_returns_memory_witness :
  let out := __call__ (dry 2) "demo" ["CartPole-v0"; "Pong"] [Random; DQN] blank in
  dry_since blank out.2
  ∧ ∃ sc du,
      out.1 = Return (None, sc, du)
      ∧ held_by (dry 2) None (list_prod ["CartPole-v0"; "Pong"] [Random; DQN])
          (heap blank) (heap out.2) sc du.
Proof.
  intros out.
  destruct (dry_run_returns_memory (dry 2) "demo" ["CartPole-v0"; "Pong"]
              [Random; DQN] blank eq_refl) as [Hstate Hreturn].
  split; [exact Hstate|].
  assert (match out.1 with Return _ => True | Raise _ => False end) as Hret
    by (subst out; vm_compute; exact I).
  destruct (out.1) as [[[experiment sc] du]|e] eqn:Hout; [|destruct Hret].
  destruct (Hreturn experiment sc du Hout) as (-> & _ & Hheld).
  exists sc, du. split; [reflexivity|exact Hheld].
Defined.

End witnesses.

(** ** Strings *)

Section strings.
Import Benchmark Spec.
Local Arguments String.append : simpl nomatch.

Lemma string_app_length (s1 s2 : string) :
  String.length (s1 +:+ s2) = String.length s1 + String.length s2.
Proof. induction s1 as [|c s1 IH]; simpl; [done|]. by rewrite IH. Qed.

Lemma string_app_assoc (s1 s2 s3 : string) :
  (s1 +:+ s2) +:+ s3 = s1 +:+ s2 +:+ s3.
Proof. induction s1 as [|c s1 IH]; simpl; [done|]. by rewrite IH. Qed.

Lemma string_app_nil_r (s : string) : s +:+ EmptyString = s.
Proof. induction s as [|c s IH]; simpl; [done|]. by rewrite IH. Qed.

Lemma string_compare_refl (s : string) : String.compare s s = Eq.
Proof.
  induction s as [|c s IH]; simpl; [done|].
  unfold Ascii.compare. by rewrite N.compare_refl.
Qed.

(** A common prefix does not count in a comparison. *)
Lemma string_compare_app (p s1 s2 : string) :
  String.compare (p +:+ s1) (p +:+ s2) = String.compare s1 s2.
Proof.
  induction p as [|c p IH]; simpl; [done|].
  unfold Ascii.compare. by rewrite N.compare_refl.
Qed.

Lemma before_compare (s1 s2 : string) :
  before s1 s2 ↔ String.compare s1 s2 = Lt.
Proof.
  unfold before, String.le, String.leb. split.
  - intros [Hle Hne]. destruct (String.compare s1 s2) eqn:Hcmp; [|done|done].
    by apply String.compare_eq_iff in Hcmp.
  - intros Hlt. rewrite Hlt. split; [done|]. intros ->.
    by rewrite string_compare_refl in Hlt.
Qed.

Lemma before_app (p s1 s2 : string) :
  before (p +:+ s1) (p +:+ s2) ↔ before s1 s2.
Proof. by rewrite !before_compare, string_compare_app. Qed.

Lemma le_app (p s1 s2 : string) :
  String.le (p +:+ s1) (p +:+ s2) ↔ String.le s1 s2.
Proof. unfold String.le, String.leb. by rewrite string_compare_app. Qed.

(** *** Decimal digits *)

Lemma pretty_N_go_app (x : N) (s : string) :
  pretty_N_go x s = pretty_N_go x EmptyString +:+ s.
Proof.
  revert s. induction (N.lt_wf_0 x) as [x _ IH]; intros s.
  destruct (decide (x = 0)%N) as [->|Hx]; [done|].
  assert (x `div` 10 < x)%N as Hlt by (apply N.div_lt; lia).
  rewrite !(pretty_N_go_step x) by lia.
  rewrite (IH _ Hlt (String _ s)), (IH _ Hlt (String _ EmptyString)).
  by rewrite string_app_assoc.
Qed.

Lemma digits_0 : digits 0 = 0.
Proof. done. Qed.

Lemma digits_step (x : N) : (0 < x)%N → digits x = S (digits (x `div` 10)).
Proof.
  intros Hx. unfold digits. rewrite pretty_N_go_step, pretty_N_go_app by done.
  rewrite string_app_length; simpl. lia.
Qed.

Lemma digits_bound (x : N) : (x < 10 ^ N.of_nat (digits x))%N.
Proof.
  induction (N.lt_wf_0 x) as [x _ IH].
  destruct (decide (x = 0)%N) as [->|Hx]; [done|].
  rewrite digits_step by lia. rewrite Nat2N.inj_succ, N.pow_succ_r'.
  assert (x `div` 10 < x)%N as Hlt by (apply N.div_lt; lia).
  specialize (IH _ Hlt).
  pose proof (N.div_mod x 10). pose proof (N.mod_lt x 10). lia.
Qed.

Lemma digits_least (x : N) (k : nat) : (x < 10 ^ N.of_nat k)%N → digits x ≤ k.
Proof.
  revert k. induction (N.lt_wf_0 x) as [x _ IH]; intros k Hk.
  destruct (decide (x = 0)%N) as [->|Hx]; [rewrite digits_0; lia|].
  rewrite digits_step by lia. destruct k as [|k]; [simpl in Hk; lia|].
  rewrite Nat2N.inj_succ, N.pow_succ_r' in Hk.
  apply le_n_S, IH; [apply N.div_lt; lia|].
  apply N.Div0.div_lt_upper_bound. lia.
Qed.

Lemma digits_mono (x y : N) : (x ≤ y)%N → digits x ≤ digits y.
Proof.
  intros Hxy. apply digits_least. pose proof (digits_bound y). lia.
Qed.

Lemma fixed_snoc (k : nat) (x : N) :
  fixed (S k) x
  = fixed k (x `div` 10) +:+ String (pretty_N_char (x `mod` 10)) EmptyString.
Proof.
  induction k as [|k IH].
  - simpl. by rewrite N.div_1_r.
  - change (fixed (S (S k)) x)
      with (String (pretty_N_char ((x `div` (10 ^ N.of_nat (S k))) `mod` 10)%N)
              (fixed (S k) x)).
    rewrite IH. simpl. f_equal. f_equal. f_equal.
    rewrite Nat2N.inj_succ, N.pow_succ_r', N.Div0.div_div. done.
Qed.

Lemma pretty_N_go_fixed (x : N) :
  pretty_N_go x EmptyString = fixed (digits x) x.
Proof.
  induction (N.lt_wf_0 x) as [x _ IH].
  destruct (decide (x = 0)%N) as [->|Hx]; [done|].
  rewrite digits_step, fixed_snoc by lia.
  rewrite pretty_N_go_step, pretty_N_go_app by lia.
  by rewrite IH by (apply N.div_lt; lia).
Qed.

Lemma fixed_leading_zeros (k : nat) (x : N) :
  digits x ≤ k → fixed k x = zeros (k - digits x) +:+ fixed (digits x) x.
Proof.
  induction k as [|k IH]; intros Hk.
  - assert (digits x = 0) as -> by lia. done.
  - destruct (decide (digits x = S k)) as [->|Hne].
    + by rewrite Nat.sub_diag.
    + replace (S k - digits x) with (S (k - digits x)) by lia.
      simpl. rewrite <- IH by lia. f_equal.
      assert (x `div` 10 ^ N.of_nat k = 0)%N as ->; [|done].
      apply N.div_small. pose proof (digits_bound x).
      assert (10 ^ N.of_nat (digits x) ≤ 10 ^ N.of_nat k)%N; [|lia].
      apply N.pow_le_mono_r; lia.
Qed.

(** A number of at most [k] digits, padded with zeros to [k] characters. *)
Lemma zero_pad_pretty (k : nat) (x : N) :
  0 < k → digits x ≤ k → zero_pad k (pretty x) = fixed k x.
Proof.
  intros Hk Hx. unfold zero_pad, pretty, pretty_N.
  case_decide as Hz.
  - subst x. simpl. rewrite (fixed_leading_zeros k 0) by done.
    rewrite digits_0, Nat.sub_0_r. simpl. rewrite string_app_nil_r.
    destruct k as [|k]; [lia|]. simpl. rewrite Nat.sub_0_r. clear.
    induction k as [|k IH]; simpl; [done|]. by rewrite IH.
  - rewrite fixed_leading_zeros by done. by rewrite <- pretty_N_go_fixed.
Qed.

Lemma pretty_N_char_compare (a b : N) :
  (a < 10)%N → (b < 10)%N →
  Ascii.compare (pretty_N_char a) (pretty_N_char b) = (a ?= b)%N.
Proof.
  intros Ha Hb.
  assert (∀ d, (d < 10)%N → N_of_ascii (pretty_N_char d) = (48 + d)%N) as Hcode.
  { intros d Hd.
    assert (d = 0 ∨ d = 1 ∨ d = 2 ∨ d = 3 ∨ d = 4 ∨ d = 5 ∨ d = 6 ∨ d = 7
            ∨ d = 8 ∨ d = 9)%N as Hcases by lia.
    repeat (destruct Hcases as [->|Hcases]; [done|]). by subst d. }
  unfold Ascii.compare. rewrite !Hcode by done.
  destruct (N.compare_spec a b); subst.
  - apply N.compare_refl.
  - apply N.compare_lt_iff. lia.
  - apply N.compare_gt_iff. lia.
Qed.

Lemma fixed_mod (k : nat) (x : N) : fixed k (x `mod` 10 ^ N.of_nat k) = fixed k x.
Proof.
  revert x. induction k as [|k IH]; intros x; [done|]. simpl. f_equal.
  - f_equal. rewrite Nat2N.inj_succ, N.pow_succ_r'.
    set (p := (10 ^ N.of_nat k)%N). assert (0 < p)%N by (pose proof (N.pow_nonzero 10 (N.of_nat k)); lia).
    rewrite (N.mul_comm 10 p), N.Div0.mod_mul_r.
    rewrite (N.mul_comm p), N.div_add by lia.
    rewrite (N.div_small (x `mod` p) p) by (apply N.mod_lt; lia).
    rewrite N.add_0_l. by rewrite N.Div0.mod_mod.
  - rewrite <- IH, <- (IH x). f_equal.
    rewrite Nat2N.inj_succ, N.pow_succ_r'.
    set (p := (10 ^ N.of_nat k)%N). assert (0 < p)%N by (pose proof (N.pow_nonzero 10 (N.of_nat k)); lia).
    rewrite (N.mul_comm 10 p), N.Div0.mod_mul_r.
    rewrite (N.mul_comm p), N.Div0.mod_add. by rewrite N.Div0.mod_mod.
Qed.

(** On numbers written with the same number of digits, the order of the
    strings is the order of the numbers. *)
Lemma fixed_compare (k : nat) (x y : N) :
  (x < y)%N → (y < 10 ^ N.of_nat k)%N →
  String.compare (fixed k x) (fixed k y) = Lt.
Proof.
  revert x y. induction k as [|k IH]; intros x y Hxy Hy; [simpl in Hy; lia|].
  simpl. rewrite Nat2N.inj_succ, N.pow_succ_r' in Hy.
  set (p := (10 ^ N.of_nat k)%N) in *.
  assert (0 < p)%N by (pose proof (N.pow_nonzero 10 (N.of_nat k)); lia).
  assert (y `div` p < 10)%N by (apply N.Div0.div_lt_upper_bound; lia).
  assert (x `div` p ≤ y `div` p)%N by (apply N.Div0.div_le_mono; lia).
  rewrite !N.mod_small by lia.
  rewrite pretty_N_char_compare by lia.
  destruct (N.compare_spec (x `div` p) (y `div` p)) as [Heq|Hlt|Hgt]; [|done|lia].
  rewrite <- (fixed_mod k x), <- (fixed_mod k y). fold p.
  apply IH; [|by apply N.mod_lt; lia].
  pose proof (N.div_mod x p). pose proof (N.div_mod y p). nia.
Qed.

(** *** The names of the repeats *)

Lemma pretty_Z_nonneg (z : Z) : (0 ≤ z)%Z → pretty z = pretty (Z.to_N z).
Proof. by destruct z. Qed.

Lemma length_pretty_N (x : N) : (0 < x)%N → String.length (pretty x) = digits x.
Proof.
  intros Hx. unfold pretty, pretty_N. by rewrite decide_False by lia.
Qed.

(** The names of the repeats of a run are in the order of their numbers. *)
Lemma template_format_before (repeats i j : Z) :
  (0 ≤ i)%Z → (i < j)%Z → (j < repeats)%Z →
  before (template_format repeats i) (template_format repeats j).
Proof.
  intros Hi Hij Hj. unfold template_format. apply before_app.
  rewrite !pretty_Z_nonneg by lia.
  set (last := Z.to_N (repeats - 1)).
  rewrite (length_pretty_N last) by (subst last; lia).
  assert (0 < digits last) as Hpos.
  { rewrite digits_step by (subst last; lia). lia. }
  rewrite !zero_pad_pretty by (try apply digits_mono; subst last; lia).
  apply before_compare, fixed_compare; [lia|].
  pose proof (digits_bound last). subst last. lia.
Qed.

Lemma template_format_inj (repeats i j : Z) :
  (0 ≤ i < repeats)%Z → (0 ≤ j < repeats)%Z →
  template_format repeats i = template_format repeats j → i = j.
Proof.
  intros Hi Hj Heq. destruct (Z.lt_total i j) as [Hlt|[->|Hgt]]; [|done|].
  - by destruct (template_format_before repeats i j) as [_ []]; try lia.
  - by destruct (template_format_before repeats j i) as [_ []]; try lia.
Qed.

(** *** Paths *)

Lemma occurs_app (c : ascii) (s1 s2 : string) :
  occurs c (s1 +:+ s2) = occurs c s1 || occurs c s2.
Proof.
  induction s1 as [|a s1 IH]; simpl; [done|]. by rewrite IH, orb_assoc.
Qed.

Lemma split_absent (c : ascii) (s : string) :
  occurs c s = false → split c s = [s].
Proof.
  induction s as [|a s IH]; simpl; [done|].
  intros [Ha Hs]%orb_false_iff. rewrite Ha, IH by done. done.
Qed.

Lemma split_cons (c : ascii) (s : string) :
  ∃ piece pieces, split c s = piece :: pieces.
Proof.
  induction s as [|a s (piece & pieces & IH)]; simpl; [by eexists _, _|].
  rewrite IH. case_bool_decide; by eexists _, _.
Qed.

Lemma split_app (c : ascii) (s1 s2 : string) :
  split c (s1 +:+ String c s2) = split c s1 ++ split c s2.
Proof.
  induction s1 as [|a s1 IH]; simpl.
  - by rewrite bool_decide_true.
  - rewrite IH. case_bool_decide; [done|].
    by destruct (split_cons c s1) as (piece & pieces & ->).
Qed.

Lemma endswith_app (c : ascii) (s : string) :
  endswith c s = true → ∃ s', s = s' +:+ String c EmptyString.
Proof.
  induction s as [|a s IH]; [done|]. simpl. destruct s as [|b s].
  - intros ->%bool_decide_eq_true. by exists EmptyString.
  - intros [s' ->]%IH. by exists (String a s').
Qed.

Lemma rpartition_app (c : ascii) (l r : string) :
  occurs c r = false → rpartition c (l +:+ String c r) = Some (l, r).
Proof.
  intros Hr.
  assert (rpartition c r = None) as Hnone.
  { clear l. induction r as [|a r IH]; simpl in *; [done|].
    apply orb_false_iff in Hr as [Ha Hr]. by rewrite IH, Ha. }
  induction l as [|a l IH]; simpl.
  - by rewrite Hnone, bool_decide_true.
  - by rewrite IH.
Qed.

Lemma rpartition_Some (c : ascii) (s l r : string) :
  rpartition c s = Some (l, r) → s = l +:+ String c r ∧ occurs c r = false.
Proof.
  revert l. induction s as [|a s IH]; intros l; simpl; [done|].
  destruct (rpartition c s) as [[l' r']|] eqn:Hs.
  - intros [= <- <-]. destruct (IH l' eq_refl) as [-> Hr]. done.
  - case_bool_decide as Ha; [|done]. intros [= <- <-]. subst a. split; [done|].
    clear IH. induction s as [|b s IH]; simpl in *; [done|].
    destruct (rpartition c s) as [[??]|]; [done|].
    case_bool_decide; [done|]. simpl. by apply IH.
Qed.

Lemma rpartition_None (c : ascii) (s : string) :
  occurs c s = false → rpartition c s = None.
Proof.
  induction s as [|a s IH]; simpl; [done|].
  intros [Ha Hs]%orb_false_iff. by rewrite IH, Ha.
Qed.

Lemma join_name (d x : string) :
  occurs "/" x = false → os.path.join d x = join_prefix d +:+ x.
Proof.
  intros Hx. unfold os.path.join, join_prefix.
  assert (startswith "/" x = false) as ->.
  { destruct x as [|a x]; [done|]. simpl in *. by apply orb_false_iff in Hx as [-> _]. }
  destruct (_ || _); [done|]. by rewrite string_app_assoc.
Qed.

Lemma components_join (d x : string) :
  valid_name x → components (os.path.join d x) = components d ++ [x].
Proof.
  intros (Hne & Hdot & _ & Hx). rewrite join_name by done.
  unfold components, join_prefix.
  assert (filter (λ y, y ≠ EmptyString ∧ y ≠ ".") [x] = [x]) as Hkeep.
  { rewrite filter_cons_True by done. done. }
  destruct (bool_decide (d = EmptyString)) eqn:Hd; simpl.
  - apply bool_decide_eq_true in Hd as ->. simpl.
    rewrite split_absent by done. by rewrite Hkeep.
  - destruct (endswith "/" d) eqn:Hend.
    + apply endswith_app in Hend as [d' ->].
      rewrite string_app_assoc. simpl. rewrite !split_app; simpl.
      rewrite (split_absent _ x) by done. rewrite !filter_app, Hkeep.
      by rewrite app_nil_r.
    + rewrite string_app_assoc. simpl. rewrite split_app.
      rewrite (split_absent _ x) by done. by rewrite filter_app, Hkeep.
Qed.

Lemma join_nonempty (directory x : string) :
  x ≠ EmptyString → os.path.join directory x ≠ EmptyString.
Proof.
  intros Hx. unfold os.path.join. destruct (startswith "/" x); [done|].
  destruct (_ || _); by destruct directory, x.
Qed.

(** The names of a path that ends with a name. *)
Lemma split_join (d x : string) :
  d ≠ EmptyString → occurs "/" x = false →
  ∃ names,
    split "/" (os.path.join d x) = names ++ [x]
    ∧ (split "/" d = names ∨ split "/" d = names ++ [EmptyString]).
Proof.
  intros Hd Hx. rewrite join_name by done. unfold join_prefix.
  rewrite bool_decide_false by done. simpl.
  destruct (endswith "/" d) eqn:Hend.
  - apply endswith_app in Hend as [d' ->]. exists (split "/" d').
    rewrite string_app_assoc. simpl. rewrite !split_app.
    rewrite (split_absent _ x) by done. split; [done|]. by right.
  - exists (split "/" d). rewrite string_app_assoc. simpl. rewrite split_app.
    rewrite (split_absent _ x) by done. split; [done|]. by left.
Qed.

Lemma plain_join (d x : string) :
  occurs "/" x = false → plain (os.path.join d x) = true → plain d = true.
Proof.
  intros Hx. destruct (decide (d = EmptyString)) as [->|Hd]; [done|].
  destruct (split_join d x Hd Hx) as (names & Hjoin & Hsplit).
  unfold plain. rewrite !bool_decide_eq_true, Hjoin.
  intros Hnot Hin. apply Hnot.
  destruct Hsplit as [Hsplit|Hsplit]; rewrite Hsplit in Hin.
  - set_solver.
  - apply elem_of_app in Hin as [Hin|Hin%list_elem_of_singleton]; [set_solver|done].
Qed.

Lemma basename_join (d x : string) :
  occurs "/" x = false → os.path.basename (os.path.join d x) = x.
Proof.
  intros Hx. rewrite join_name by done. unfold os.path.basename, join_prefix.
  destruct (bool_decide (d = EmptyString)) eqn:Hd; simpl.
  - apply bool_decide_eq_true in Hd as ->. simpl. by rewrite rpartition_None.
  - destruct (endswith "/" d) eqn:Hend.
    + apply endswith_app in Hend as [d' ->].
      rewrite string_app_assoc. simpl. by rewrite rpartition_app.
    + rewrite string_app_assoc. simpl. by rewrite rpartition_app.
Qed.

Lemma rsplit1_pair (env name : string) :
  occurs "-" name = false →
  rsplit1 "-" (env +:+ "-" +:+ name) = [env; name].
Proof. intros Hname. unfold rsplit1. simpl. by rewrite rpartition_app. Qed.

End strings.

(** ** Files *)

Section files.
Import Benchmark Spec.
Local Arguments String.append : simpl nomatch.
Implicit Types (root : node) (t : option node) (names : list string).

Lemma walk_None names : walk names None = None.
Proof. by destruct names. Qed.

Lemma walk_app names1 names2 t :
  walk (names1 ++ names2) t = walk names2 (walk names1 t).
Proof.
  revert t. induction names1 as [|x names1 IH]; intros t; simpl; [done|].
  destruct t as [[f|entries]|]; by rewrite ?walk_None.
Qed.

Lemma walk_entry names t (x : string) :
  walk (names ++ [x]) t = entries_of (walk names t) !! x.
Proof.
  rewrite walk_app; simpl. by destruct (walk names t) as [[f|entries]|].
Qed.

(** An update below [names1], seen from there. *)
Lemma update_walk f names1 names2 t (c : node) :
  update f (names1 ++ names2) t = Some c →
  ∃ c', update f names2 (walk names1 t) = Some c'
        ∧ walk names1 (Some c) = Some c'.
Proof.
  revert t c. induction names1 as [|x names1 IH]; intros t c; simpl.
  { intros Hc. by exists c. }
  destruct t as [[file|entries]|]; [done| |].
  - destruct (update f (names1 ++ names2) (entries !! x)) as [c0|] eqn:Hc; [|done].
    intros [= <-]. rewrite lookup_insert_eq. by apply IH.
  - destruct (update f (names1 ++ names2) None) as [c0|] eqn:Hc; [|done].
    intros [= <-]. rewrite lookup_singleton_eq. rewrite <- (walk_None names1).
    by apply IH.
Qed.

Lemma update_entry f (x : string) names t c :
  update f (x :: names) t = Some c →
  ∃ c', update f names (entries_of t !! x) = Some c'
        ∧ c = Dir (<[x := c']> (entries_of t)).
Proof.
  simpl. destruct t as [[file|entries]|]; [done| |]; simpl.
  - destruct (update f names (entries !! x)) as [c'|]; [|done].
    intros [= <-]. by exists c'.
  - rewrite lookup_empty.
    destruct (update f names None) as [c'|]; [|done].
    intros [= <-]. exists c'. by rewrite insert_empty.
Qed.

(** *** Looking up *)

Lemma resolve_Some root (p : string) (n : node) :
  resolve root p = Some n ↔ locate root p = inr n.
Proof.
  unfold resolve. destruct (locate root p) as [e|n']; [done|].
  split; by intros [= ->].
Qed.

Lemma descend_app above (here : node) names1 names2 :
  descend above here (names1 ++ names2)
  = match descend above here names1 with
    | inr (above', here') => descend above' here' names2
    | inl e => inl e
    end.
Proof.
  revert above here.
  induction names1 as [|x names1 IH]; intros above here; simpl; [done|].
  destruct here as [f|entries]; [done|].
  destruct (stays x); [apply IH|].
  case_bool_decide; [destruct above; apply IH|].
  destruct (entries !! x); [apply IH|done].
Qed.

Lemma descend_name above (entries : gmap string node) (x : string) :
  valid_name x →
  descend above (Dir entries) [x]
  = match entries !! x with
    | Some c => inr (Dir entries :: above, c)
    | None => inl ENOENT
    end.
Proof.
  intros (Hne & Hdot & Hup & _). simpl. unfold stays.
  rewrite bool_decide_false by (by intros [?|?]).
  rewrite bool_decide_false by done. by destruct (entries !! x).
Qed.

(** The entry [x] of the directory at [d] is what is at [join d x]. *)
Lemma locate_join root (d x : string) (entries : gmap string node) :
  valid_name x →
  locate root d = inr (Dir entries) →
  locate root (os.path.join d x)
  = match entries !! x with
    | Some c => inr c
    | None => inl ENOENT
    end.
Proof.
  intros Hx Hd. pose proof Hx as (Hne & _ & _ & Hslash). unfold locate in *.
  case_bool_decide as Hempty; [done|].
  rewrite bool_decide_false by by apply join_nonempty.
  destruct (split_join d x Hempty Hslash) as (names & -> & Hsplit).
  rewrite descend_app.
  assert (∃ above, descend [] root names = inr (above, Dir entries))
    as [above ->].
  { destruct Hsplit as [Hsplit|Hsplit]; rewrite Hsplit in Hd.
    - destruct (descend [] root names) as [e|[above n]]; [done|].
      injection Hd as ->. by exists above.
    - rewrite descend_app in Hd.
      destruct (descend [] root names) as [e|[above n]]; [done|].
      destruct n as [f|entries']; [done|]. simpl in Hd.
      injection Hd as ->. by exists above. }
  rewrite descend_name by done. by destruct (entries !! x).
Qed.

(** No path goes through a file. *)
Lemma locate_join_File root (d x : string) (f : file) :
  valid_name x →
  locate root d = inr (File f) →
  locate root (os.path.join d x) = inl ENOTDIR.
Proof.
  intros Hx Hd. pose proof Hx as (Hne & _ & _ & Hslash). unfold locate in *.
  case_bool_decide as Hempty; [done|].
  rewrite bool_decide_false by by apply join_nonempty.
  destruct (split_join d x Hempty Hslash) as (names & -> & Hsplit).
  rewrite descend_app.
  assert (∃ above, descend [] root names = inr (above, File f))
    as [above ->]; [|done].
  destruct Hsplit as [Hsplit|Hsplit]; rewrite Hsplit in Hd.
  - destruct (descend [] root names) as [e|[above n]]; [done|].
    injection Hd as ->. by exists above.
  - rewrite descend_app in Hd.
    destruct (descend [] root names) as [e|[above n]]; [done|].
    destruct n as [f'|entries']; [done|]. simpl in Hd. by injection Hd.
Qed.

Lemma listdir_Dir root (p : string) (entries : gmap string node) :
  resolve root p = Some (Dir entries) →
  os.listdir root p = Return (fst <$> map_to_list entries).
Proof. intros Hp%resolve_Some. unfold os.listdir. by rewrite Hp. Qed.

Lemma listdir_Return root (p : string) (names : list string) :
  os.listdir root p = Return names →
  ∃ entries, resolve root p = Some (Dir entries)
             ∧ names = fst <$> map_to_list entries.
Proof.
  unfold os.listdir, resolve.
  destruct (locate root p) as [e|[f|entries]]; [done..|].
  intros [= <-]. by exists entries.
Qed.

Lemma resolve_join root (d x : string) (entries : gmap string node) :
  valid_name x →
  resolve root d = Some (Dir entries) →
  resolve root (os.path.join d x) = entries !! x.
Proof.
  intros Hx Hd%resolve_Some. unfold resolve.
  rewrite (locate_join _ _ _ _ Hx Hd). by destruct (entries !! x).
Qed.

(** On a path without [..], looking up finds the directory at the end of
    its proper names. *)
Lemma descend_plain above (here : node) names (E : gmap string node) :
  ".." ∉ names →
  walk (filter (λ x, x ≠ EmptyString ∧ x ≠ ".") names) (Some here)
  = Some (Dir E) →
  ∃ above', descend above here names = inr (above', Dir E).
Proof.
  revert above here.
  induction names as [|x names IH]; intros above here Hup; simpl.
  { intros [= ->]. by exists above. }
  assert (".." ∉ names) as Hup' by set_solver.
  assert (x ≠ "..") as Hx by set_solver.
  destruct here as [f|entries].
  { by destruct (filter _ (x :: names)). }
  unfold stays. rewrite filter_cons. case_bool_decide as Hstay.
  - rewrite decide_False by (intros [? ?]; by destruct Hstay).
    by apply IH.
  - rewrite decide_True by (split; intros ->; apply Hstay; [by left|by right]).
    rewrite bool_decide_false by done. simpl.
    destruct (entries !! x) as [child|]; [by apply IH|].
    by rewrite walk_None.
Qed.

Lemma locate_plain root (p : string) (E : gmap string node) :
  plain p = true → p ≠ EmptyString →
  walk (components p) (Some root) = Some (Dir E) →
  locate root p = inr (Dir E).
Proof.
  intros Hplain%bool_decide_eq_true Hp Hwalk. unfold locate.
  rewrite bool_decide_false by done.
  by destruct (descend_plain [] root _ E Hplain Hwalk) as [above ->].
Qed.

(** And where looking up fails, there is no directory with entries at the
    end of the proper names. *)
Lemma descend_error above (here : node) names (e : errno) :
  ".." ∉ names →
  descend above here names = inl e →
  entries_of (walk (filter (λ x, x ≠ EmptyString ∧ x ≠ ".") names) (Some here))
  = ∅.
Proof.
  revert above here.
  induction names as [|x names IH]; intros above here Hup; simpl; [done|].
  assert (".." ∉ names) as Hup' by set_solver.
  assert (x ≠ "..") as Hx by set_solver.
  destruct here as [f|entries].
  { by destruct (filter _ (x :: names)). }
  unfold stays. rewrite filter_cons. case_bool_decide as Hstay.
  - rewrite decide_False by (intros [? ?]; by destruct Hstay).
    by apply IH.
  - rewrite decide_True by (split; intros ->; apply Hstay; [by left|by right]).
    rewrite bool_decide_false by done. simpl.
    destruct (entries !! x) as [child|]; [by apply IH|].
    by rewrite walk_None.
Qed.

Lemma resolve_None_plain root (p : string) :
  plain p = true → p ≠ EmptyString → resolve root p = None →
  entries_of (walk (components p) (Some root)) = ∅.
Proof.
  intros Hplain%bool_decide_eq_true Hp. unfold resolve, locate.
  rewrite bool_decide_false by done.
  destruct (descend [] root (split "/" p)) as [e|[above n]] eqn:Hd; [|done].
  intros _. by eapply descend_error.
Qed.

Lemma filter_fmap_comm {A B} (f : A → B) (P : B → Prop)
    `{∀ y, Decision (P y)} (l : list A) :
  filter P (f <$> l) = f <$> filter (λ x, P (f x)) l.
Proof.
  induction l as [|x l IH]; [done|].
  rewrite fmap_cons, !filter_cons, IH. by case_decide.
Qed.

Lemma sorted_fmap_app (p : string) (l : list string) :
  sorted (String.append p <$> l) = String.append p <$> sorted l.
Proof.
  unfold sorted. apply (Sorted_unique String.le).
  - apply Sorted_merge_sort, _.
  - apply (Sorted_fmap (String.append p) String.le String.le).
    + intros x y. by apply le_app.
    + apply Sorted_merge_sort, _.
  - by rewrite !merge_sort_Permutation.
Qed.

Lemma filter_ext_Forall {A} (P1 P2 : A → Prop)
    `{!∀ x, Decision (P1 x), !∀ x, Decision (P2 x)} (l : list A) :
  Forall (λ x, P1 x ↔ P2 x) l → filter P1 l = filter P2 l.
Proof.
  induction 1 as [|x l Hx Hl IH]; [done|].
  rewrite !filter_cons. rewrite IH.
  destruct (decide (P1 x)), (decide (P2 x)); tauto.
Qed.

(** What [_get_subdirs] finds in a directory whose entries have names. *)
Lemma subdirs_listing root (directory : string) entries :
  resolve root directory = Some (Dir entries) →
  (∀ x, is_Some (entries !! x) → valid_name x) →
  subdirs root directory
  = Return (os.path.join directory <$> sorted (dir_names entries)).
Proof.
  intros Hdir Hvalid. unfold subdirs, os.listdir.
  rewrite (proj1 (resolve_Some _ _ _) Hdir).
  f_equal. rewrite filter_fmap_comm.
  assert (Forall valid_name (fst <$> map_to_list entries)) as Hnames.
  { apply Forall_forall. intros x [[x' n] [-> Hx]]%list_elem_of_fmap.
    apply Hvalid. apply elem_of_map_to_list in Hx. by exists n. }
  assert (filter (λ x, os.path.isdir root (os.path.join directory x))
            (fst <$> map_to_list entries) = dir_names entries) as ->.
  { unfold dir_names. apply filter_ext_Forall.
    eapply Forall_impl; [exact Hnames|]. intros x Hx. simpl.
    unfold os.path.isdir. rewrite (resolve_join _ _ _ _ Hx Hdir).
    by destruct (entries !! x) as [[file|sub]|]. }
  assert (Forall valid_name (dir_names entries)) as Hdirs.
  { unfold dir_names. apply Forall_forall. intros x [_ Hx]%list_elem_of_filter.
    by eapply Forall_forall in Hnames. }
  assert (∀ l, Forall valid_name l →
            os.path.join directory <$> l
            = String.append (join_prefix directory) <$> l) as Hjoin.
  { intros l Hl. apply Forall_fmap_ext. eapply Forall_impl; [exact Hl|].
    intros x (_ & _ & _ & Hx). by apply join_name. }
  rewrite !Hjoin; [apply sorted_fmap_app| |done].
  unfold sorted. by rewrite merge_sort_Permutation.
Qed.

Lemma get_subdirs_unfold (directory : string) (w : world) :
  _get_subdirs directory w = (subdirs (fs w) directory, w).
Proof.
  unfold _get_subdirs, subdirs, reading, bind, ret.
  by destruct (os.listdir (fs w) directory).
Qed.

Lemma subdirs_sorted root (directory : string) l :
  subdirs root directory = Return l → Sorted String.le l.
Proof.
  unfold subdirs. destruct (os.listdir root directory); [|done].
  intros [= <-]. apply Sorted_merge_sort, _.
Qed.

End files.

(** ** Reading an experiment *)

Section reading.
Import Benchmark Spec.
Implicit Types (root : node) (w : world) (d : results) (env : string)
  (k : key) (acc : results * results).

Lemma setitem_setitem d env k (l l' : list (list Q)) :
  setitem (setitem d env k l) env k l' = setitem d env k l'.
Proof.
  unfold setitem. rewrite lookup_insert_eq; simpl.
  by rewrite insert_insert_eq, insert_insert_eq.
Qed.

Lemma append_setitem d env k (l : list (list Q)) (x : list Q) :
  append (setitem d env k l) env k x = Return (setitem d env k (l ++ [x])).
Proof.
  unfold append. unfold setitem at 1. rewrite lookup_insert_eq; simpl.
  rewrite lookup_insert_eq. by rewrite setitem_setitem.
Qed.

Lemma read_repeats_unfold env (agent_ : string) repeats d1 d2 ss0 ds0 w :
  for_each repeats (read_repeat env agent_)
    (setitem d1 env (inr agent_) ss0, setitem d2 env (inr agent_) ds0) w
  = (match load_all (fs w) repeats with
     | Raise e => Raise e
     | Return (ss, ds) =>
         Return (setitem d1 env (inr agent_) (ss0 ++ ss),
                 setitem d2 env (inr agent_) (ds0 ++ ds))
     end, w).
Proof.
  revert ss0 ds0. induction repeats as [|repeat repeats IH]; intros ss0 ds0.
  - simpl. by rewrite !app_nil_r.
  - simpl. unfold bind at 1. unfold read_repeat, reading, pure, bind, ret.
    destruct (np_load (fs w) (os.path.join repeat "scores.npy")) as [s|e];
      [|done].
    destruct (np_load (fs w) (os.path.join repeat "durations.npy")) as [dn|e];
      [|done].
    rewrite !append_setitem. rewrite IH.
    destruct (load_all (fs w) repeats) as [[ss ds]|e]; [|done].
    by rewrite <- !(assoc_L (++)).
Qed.

Lemma unpack2_rsplit1 (s : string) :
  unpack2 (rsplit1 "-" s)
  = match rpartition "-" s with
    | Some (l, r) => Return (l, r)
    | None => Raise cannot_unpack
    end.
Proof. unfold rsplit1. by destruct (rpartition "-" s) as [[l r]|]. Qed.

Lemma read_benchmark_unfold (benchmark : string) acc w :
  read_benchmark benchmark acc w = (read_one (fs w) benchmark acc, w).
Proof.
  destruct acc as [d1 d2]. unfold read_benchmark, read_one, key_of, pure, bind.
  rewrite unpack2_rsplit1.
  destruct (rpartition "-" (os.path.basename benchmark)) as [[env agent_]|];
    [|done].
  rewrite get_subdirs_unfold.
  destruct (subdirs (fs w) benchmark) as [repeats|e]; [|done].
  rewrite read_repeats_unfold. simpl.
  by destruct (load_all (fs w) repeats) as [[ss ds]|e].
Qed.

Lemma read_all_unfold (benchmarks : list string) acc w :
  for_each benchmarks read_benchmark acc w
  = (read_all (fs w) benchmarks acc, w).
Proof.
  revert acc. induction benchmarks as [|benchmark benchmarks IH]; intros acc;
    simpl; [done|].
  unfold bind. rewrite read_benchmark_unfold.
  destruct (read_one (fs w) benchmark acc) as [acc'|e]; [apply IH|done].
Qed.

Lemma read_unfold (experiment : string) w :
  read experiment w
  = (match subdirs (fs w) experiment with
     | Raise e => Raise e
     | Return benchmarks => read_all (fs w) benchmarks (∅, ∅)
     end, w).
Proof.
  unfold read, bind. rewrite get_subdirs_unfold.
  destruct (subdirs (fs w) experiment) as [benchmarks|e]; [|done].
  apply read_all_unfold.
Qed.

(** What [read] files under a key: the arrays of the benchmark directory
    with that key; and nothing under the keys of no directory. *)
Lemma read_all_spec root (benchmarks : list string) acc res :
  read_all root benchmarks acc = Return res →
  NoDup benchmarks →
  (∀ b1 b2 key, b1 ∈ benchmarks → b2 ∈ benchmarks →
     key_of b1 = Some key → key_of b2 = Some key → b1 = b2) →
  (∀ b env agent_,
     b ∈ benchmarks → key_of b = Some (env, agent_) →
     ∃ repeats ss ds,
       subdirs root b = Return repeats
       ∧ load_all root repeats = Return (ss, ds)
       ∧ getitem res.1 env (inr agent_) = Some ss
       ∧ getitem res.2 env (inr agent_) = Some ds)
  ∧ (∀ env k,
       (∀ b agent_, b ∈ benchmarks → k = inr agent_ →
          key_of b ≠ Some (env, agent_)) →
       getitem res.1 env k = getitem acc.1 env k
       ∧ getitem res.2 env k = getitem acc.2 env k)
  ∧ (∀ b, b ∈ benchmarks → is_Some (key_of b)).
Proof.
  revert acc. induction benchmarks as [|b0 benchmarks IH]; intros acc; simpl.
  { intros [= <-] _ _. split; [|split]; [|done|]; by intros ? ? ? ?%elem_of_nil
      || by intros ? ?%elem_of_nil. }
  destruct (read_one root b0 acc) as [acc'|e] eqn:Hone; [|done].
  intros Hrest [Hnotin Hnodup]%NoDup_cons Hinj.
  destruct (IH acc' Hrest Hnodup) as (Hfiled & Hframe & Hkeys).
  { intros b1 b2 key Hb1 Hb2. apply Hinj; by right. }
  unfold read_one in Hone.
  destruct (key_of b0) as [[env0 agent0]|] eqn:Hkey0; [|done].
  destruct (subdirs root b0) as [repeats0|] eqn:Hsub0; [|done].
  destruct (load_all root repeats0) as [[ss0 ds0]|] eqn:Hload0; [|done].
  injection Hone as <-. simpl in *.
  split; [|split].
  - intros b env agent_ [->|Hb]%elem_of_cons Hkey; [|by eapply Hfiled].
    rewrite Hkey0 in Hkey. injection Hkey as <- <-.
    exists repeats0, ss0, ds0. split; [done|]. split; [done|].
    destruct (Hframe env0 (inr agent0)) as [-> ->].
    { intros b agent_ Hb [= <-] Hkey. apply Hnotin.
      rewrite (Hinj b0 b (env0, agent0)); [done|by left|by right|done|done]. }
    by rewrite !getitem_setitem, !decide_True.
  - intros env k Hnone. destruct (Hframe env k) as [-> ->].
    { intros b agent_ Hb. apply Hnone. by right. }
    rewrite !getitem_setitem.
    destruct (decide (env0 = env ∧ inr agent0 = k)) as [[<- <-]|]; [|done].
    by destruct (Hnone b0 agent0 (list_elem_of_here _ _) eq_refl).
  - intros b [->|Hb]%elem_of_cons; [by rewrite Hkey0|by apply Hkeys].
Qed.

(** [read] returns when it can read every benchmark directory. *)
Lemma read_all_total root (benchmarks : list string) acc :
  (∀ b, b ∈ benchmarks →
     ∃ key repeats loaded,
       key_of b = Some key ∧ subdirs root b = Return repeats
       ∧ load_all root repeats = Return loaded) →
  ∃ res, read_all root benchmarks acc = Return res.
Proof.
  revert acc. induction benchmarks as [|b benchmarks IH]; intros acc Hall; simpl.
  - by exists acc.
  - destruct (Hall b) as ([env agent_] & repeats & [ss ds] & Hkey & Hsub & Hload);
      [by left|].
    unfold read_one. rewrite Hkey, Hsub, Hload. apply IH.
    intros b' Hb'. apply Hall. by right.
Qed.

End reading.

(** ** The order of the repeats *)

Section order.
Import Benchmark Spec.
Local Arguments String.append : simpl nomatch.

Lemma occurs_zeros (c : ascii) (n : nat) :
  c ≠ "0"%char → occurs c (zeros n) = false.
Proof.
  intros Hc. induction n as [|n IH]; simpl; [done|].
  by rewrite IH, bool_decide_false.
Qed.

Lemma occurs_fixed (k : nat) (x : N) : occurs "/" (fixed k x) = false.
Proof.
  induction k as [|k IH]; simpl; [done|]. rewrite IH, orb_false_r.
  apply bool_decide_eq_false. unfold pretty_N_char. by repeat case_match.
Qed.

Lemma template_format_fixed (repeats i : Z) :
  (0 ≤ i < repeats)%Z →
  ∃ k, template_format repeats i = "repeat-" +:+ fixed k (Z.to_N i).
Proof.
  intros Hi. unfold template_format. rewrite !pretty_Z_nonneg by lia.
  set (last := Z.to_N (repeats - 1)).
  destruct (decide (last = 0%N)) as [Hlast|Hlast].
  - exists 1. assert (Z.to_N i = 0%N) as -> by (subst last; lia). by rewrite Hlast.
  - exists (digits last). rewrite (length_pretty_N last) by lia.
    rewrite zero_pad_pretty; [done| |apply digits_mono; subst last; lia].
    rewrite digits_step by lia. lia.
Qed.

Lemma template_format_valid (repeats i : Z) :
  (0 ≤ i < repeats)%Z → valid_name (template_format repeats i).
Proof.
  intros [k ->]%template_format_fixed. split; [done|]. split; [done|].
  split; [done|]. simpl. apply occurs_fixed.
Qed.

Lemma Sorted_seqZ (lo hi m n : Z) :
  (lo ≤ m)%Z → (m + n ≤ hi)%Z →
  Sorted (λ x y, lo ≤ x < y ∧ y < hi)%Z (seqZ m n).
Proof.
  remember (Z.to_nat n) as len eqn:Hlen. revert m n Hlen.
  induction len as [|len IH]; intros m n Hlen Hlo Hhi.
  - rewrite seqZ_nil by lia. constructor.
  - rewrite seqZ_cons by lia. constructor; [apply IH; lia|].
    destruct (decide (0 < Z.pred n)%Z).
    + rewrite seqZ_cons by lia. constructor. lia.
    + rewrite seqZ_nil by lia. constructor.
Qed.

(** The names of the repeats of a run, in the order of their numbers, are
    in the order of [sorted]. *)
Lemma template_format_sorted (repeats : Z) :
  Sorted String.le (template_format repeats <$> seqZ 0 repeats).
Proof.
  eapply Sorted_fmap; [|apply (Sorted_seqZ 0 repeats); lia].
  intros i j [Hi Hj]; simpl in *.
  by destruct (template_format_before repeats i j) as [Hle _]; [lia..|].
Qed.

Lemma sorted_template_format (repeats : Z) (names : list string) :
  names ≡ₚ template_format repeats <$> seqZ 0 repeats →
  sorted names = template_format repeats <$> seqZ 0 repeats.
Proof.
  intros Hperm. unfold sorted. apply (Sorted_unique String.le).
  - apply Sorted_merge_sort, _.
  - apply template_format_sorted.
  - by rewrite merge_sort_Permutation.
Qed.

Lemma load_all_Forall2 (root : node) (repeats : list string) ss ds :
  load_all root repeats = Return (ss, ds) →
  Forall2 (λ repeat s,
             np_load root (os.path.join repeat "scores.npy") = Return s)
    repeats ss
  ∧ Forall2 (λ repeat d,
               np_load root (os.path.join repeat "durations.npy") = Return d)
      repeats ds.
Proof.
  revert ss ds. induction repeats as [|repeat repeats IH]; intros ss ds; simpl.
  - intros [= <- <-]. by split.
  - destruct (np_load root (os.path.join repeat "scores.npy")) as [s|] eqn:Hs;
      [|done].
    destruct (np_load root (os.path.join repeat "durations.npy")) as [d|] eqn:Hd;
      [|done].
    destruct (load_all root repeats) as [[ss' ds']|]; [|done].
    intros [= <- <-]. destruct (IH ss' ds' eq_refl). by split; constructor.
Qed.

Lemma subdirs_Return (root : node) (directory : string) (l : list string) :
  subdirs root directory = Return l →
  named_entries root directory →
  ∃ entries,
    resolve root directory = Some (Dir entries)
    ∧ l = os.path.join directory <$> sorted (dir_names entries)
    ∧ Forall valid_name (sorted (dir_names entries))
    ∧ NoDup (sorted (dir_names entries)).
Proof.
  intros Hsub Hnamed.
  assert (∃ entries, resolve root directory = Some (Dir entries))
    as [entries Hdir].
  { unfold subdirs in Hsub.
    destruct (os.listdir root directory) as [names|] eqn:Hls; [|done].
    apply listdir_Return in Hls as (entries & Hdir & _). by exists entries. }
  assert (∀ x, is_Some (entries !! x) → valid_name x) as Hvalid.
  { intros x [n Hx]. specialize (Hnamed (fst <$> map_to_list entries)).
    rewrite (listdir_Dir _ _ _ Hdir) in Hnamed.
    eapply Forall_forall in Hnamed; [done..|].
    apply list_elem_of_fmap. exists (x, n). split; [done|].
    by apply elem_of_map_to_list. }
  exists entries. split; [done|].
  rewrite (subdirs_listing root directory entries Hdir Hvalid) in Hsub.
  injection Hsub as <-. split; [done|].
  unfold sorted. rewrite merge_sort_Permutation. unfold dir_names. split.
  - apply Forall_forall. intros x [_ [[x' n] [-> Hx]]%list_elem_of_fmap]%list_elem_of_filter.
    apply Hvalid. apply elem_of_map_to_list in Hx. by exists n.
  - apply NoDup_filter, NoDup_fst_map_to_list.
Qed.

Lemma join_inj (directory x y : string) :
  valid_name x → valid_name y →
  os.path.join directory x = os.path.join directory y → x = y.
Proof.
  intros (_ & _ & _ & Hx) (_ & _ & _ & Hy). rewrite !join_name by done.
  apply String.app_inj.
Qed.

Lemma key_of_join (directory x : string) :
  valid_name x → key_of (os.path.join directory x) = rpartition "-" x.
Proof. intros (_ & _ & _ & Hx). unfold key_of. by rewrite basename_join. Qed.

Lemma key_of_inj (directory x y : string) (key : string * string) :
  valid_name x → valid_name y →
  key_of (os.path.join directory x) = Some key →
  key_of (os.path.join directory y) = Some key →
  x = y.
Proof.
  intros Hx Hy. rewrite !key_of_join by done. destruct key as [l r].
  intros [-> _]%rpartition_Some [-> _]%rpartition_Some. done.
Qed.

(** C7: [read] files under the environment and the agent of a benchmark
    directory the arrays of its repeat directories, in the order of the
    names of these directories as [sorted] has it, the order of code
    points; and the names that a run gives to the repeats of a pair,
    padded with zeros, are in that order when they are in the order 0, 1,
    ... of the repeats. *)
Theorem read_repeats_in_name_order :
  (∀ (experiment : string) w sc du w' benchmarks,
     read experiment w = (Return (sc, du), w') →
     _get_subdirs experiment w = (Return benchmarks, w) →
     named_entries (fs w) experiment →
     (∀ benchmark, benchmark ∈ benchmarks → named_entries (fs w) benchmark) →
     ∀ benchmark env agent_,
       benchmark ∈ benchmarks → key_of benchmark = Some (env, agent_) →
       ∃ entries ss ds,
         resolve (fs w) benchmark = Some (Dir entries)
         ∧ let names := sorted (dir_names entries) in
           _get_subdirs benchmark w
             = (Return (os.path.join benchmark <$> names), w)
           ∧ Sorted String.le names
           ∧ getitem sc env (inr agent_) = Some ss
           ∧ getitem du env (inr agent_) = Some ds
           ∧ Forall2 (λ x s,
                        np_load (fs w)
                          (os.path.join (os.path.join benchmark x) "scores.npy")
                        = Return s) names ss
           ∧ Forall2 (λ x d,
                        np_load (fs w)
                          (os.path.join (os.path.join benchmark x)
                             "durations.npy")
                        = Return d) names ds)
  ∧ (∀ (repeats : Z) (names : list string),
       names ≡ₚ template_format repeats <$> seqZ 0 repeats →
       sorted names = template_format repeats <$> seqZ 0 repeats).
Proof.
  split; [|apply sorted_template_format].
  intros experiment w sc du w' benchmarks Hread Hsub Hnamed Hnamed' benchmark
    env agent_ Hin Hkey.
  rewrite get_subdirs_unfold in Hsub. injection Hsub as Hsub.
  rewrite read_unfold, Hsub in Hread. injection Hread as Hread _.
  destruct (subdirs_Return _ _ _ Hsub Hnamed)
    as (top & Htop & -> & Hvalid & Hnodup).
  apply read_all_spec in Hread as (Hfiled & _ & _).
  - destruct (Hfiled benchmark env agent_ Hin Hkey)
      as (repeats & ss & ds & Hrepeats & Hload & Hsc & Hdu).
    destruct (subdirs_Return _ _ _ Hrepeats (Hnamed' benchmark Hin))
      as (entries & Hentries & -> & _ & _).
    exists entries, ss, ds. split; [done|]. cbv zeta.
    rewrite get_subdirs_unfold, Hrepeats.
    split; [done|]. split; [apply Sorted_merge_sort, _|].
    split; [done|]. split; [done|].
    apply load_all_Forall2 in Hload as [Hss Hds].
    by rewrite !Forall2_fmap_l in Hss, Hds.
  - apply NoDup_fmap_2_strong; [|done].
    intros x y Hx Hy. apply join_inj; by eapply Forall_forall in Hvalid.
  - intros b1 b2 key [x1 [-> Hx1]]%list_elem_of_fmap [x2 [-> Hx2]]%list_elem_of_fmap
      Hk1 Hk2.
    f_equal. eapply key_of_inj; [| |done..]; by eapply Forall_forall in Hvalid.
Qed.

End order.

Section more_witnesses.
Import Benchmark Spec Sample.

Lemma archive_named (directory : string) :
  match os.listdir (fs archive) directory with
  | Return names => bool_decide (Forall valid_name names)
  | Raise _ => true
  end = true →
  named_entries (fs archive) directory.
Proof.
  intros Hok names Hls. rewrite Hls in Hok.
  exact (proj1 (bool_decide_eq_true _) Hok).
Defined.

Lemma read_repeats_in_name_order_witness :
  ∃ sc du ss ds,
    read "/exp" archive = (Return (sc, du), archive)
    ∧ getitem sc "Pong" (inr "Random") = Some ss
    ∧ getitem du "Pong" (inr "Random") = Some ds
    ∧ Forall2 (λ x s,
                 np_load (fs archive)
                   (os.path.join (os.path.join "/exp/Pong-Random" x)
                      "scores.npy") = Return s)
        ["repeat-02"; "repeat-10"] ss.
Proof.
  assert (match read "/exp" archive with
          | (Return _, _) => True
          | (Raise _, _) => False
          end) as Hret by (vm_compute; exact I).
  pose proof (read_state "/exp" archive) as Hstate.
  destruct (read "/exp" archive) as [[[sc du]|e] w'] eqn:Hread; [|destruct Hret].
  simpl in Hstate. subst w'.
  destruct (proj1 read_repeats_in_name_order "/exp" archive sc du archive
              ["/exp/Pong-Random"] Hread)
    with (benchmark := "/exp/Pong-Random"%string) (env := "Pong"%string)
         (agent_ := "Random"%string)
    as (entries & ss & ds & Hentries & _ & _ & Hsc & Hdu & Hss & _).
  - vm_compute. reflexivity.
  - apply archive_named. vm_compute. reflexivity.
  - intros benchmark Hin. apply list_elem_of_singleton in Hin. subst benchmark.
    apply archive_named. vm_compute. reflexivity.
  - left.
  - vm_compute. reflexivity.
  - exists sc, du, ss, ds. split; [reflexivity|]. split; [exact Hsc|].
    split; [exact Hdu|].
    assert (sorted (dir_names entries) = ["repeat-02"; "repeat-10"]) as <-;
      [|exact Hss].
    vm_compute in Hentries. injection Hentries as <-. vm_compute. reflexivity.
Defined.

End more_witnesses.

(** ** What a run writes *)

Section writing.
Import Benchmark Spec.
Context `{!Arithmetic}.
Local Arguments String.append : simpl nomatch.
Implicit Types (root : node) (D : disk) (w : world) (self : Benchmark).

Lemma save_image (s d : list Q) (old : option (list Q * list Q)) :
  save s d (repeat_node <$> old) = Some (repeat_node (s, d)).
Proof.
  destruct old as [[s' d']|]; simpl; [|done].
  unfold put_file. rewrite lookup_insert_ne, lookup_insert_eq by done. simpl.
  rewrite lookup_insert_ne, lookup_insert_eq by done. simpl.
  unfold repeat_node. simpl. apply (f_equal (λ m, Some (Dir m))).
  apply map_eq. intros k.
  destruct (decide (k = "durations.npy")) as [->|Hd].
  { by rewrite !lookup_insert_eq. }
  rewrite !(lookup_insert_ne _ "durations.npy") by done.
  destruct (decide (k = "scores.npy")) as [->|Hs].
  { by rewrite !lookup_insert_eq. }
  rewrite !(lookup_insert_ne _ "scores.npy") by done.
  by rewrite !lookup_insert_ne by done.
Qed.

Lemma entries_of_pair_node (o : option (gmap string (list Q * list Q))) :
  entries_of (pair_node <$> o) = repeat_node <$> default ∅ o.
Proof. destruct o; simpl; [done|]. by rewrite fmap_empty. Qed.

(** The arrays of a repeat, written below the directory of the experiment. *)
Lemma update_save_image (E : list string) (n r : string) (s d : list Q)
    root root' D :
  entries_of (walk E (Some root)) = pair_node <$> D →
  update (save s d) (E ++ [n; r]) (Some root) = Some root' →
  entries_of (walk E (Some root')) = pair_node <$> write_repeat n r (s, d) D.
Proof.
  intros Himage Hupdate.
  apply update_walk in Hupdate as (c & Hc & ->).
  apply update_entry in Hc as (c1 & Hc1 & ->).
  rewrite Himage, lookup_fmap in Hc1.
  apply update_entry in Hc1 as (c2 & Hc2 & ->). simpl in Hc2.
  rewrite entries_of_pair_node, lookup_fmap, save_image in Hc2.
  injection Hc2 as <-. simpl.
  rewrite Himage, entries_of_pair_node. unfold write_repeat.
  rewrite fmap_insert. f_equal. unfold pair_node. by rewrite fmap_insert.
Qed.

Lemma subdirectory_of_Some (directory name : string) :
  directory ≠ EmptyString →
  subdirectory_of (Some directory) name = Some (os.path.join directory name).
Proof.
  intros Hd. unfold subdirectory_of, if_set. by rewrite bool_decide_false.
Qed.

(** The arrays of a trainer, written by [persist]. *)
Lemma persist_image (t : trainer) (experiment n r : string) root root' D :
  valid_name n → valid_name r →
  trainer_directory t
    = Some (os.path.join (os.path.join experiment n) r) →
  entries_of (walk (components experiment) (Some root)) = pair_node <$> D →
  persist t root = Return root' →
  entries_of (walk (components experiment) (Some root'))
  = pair_node <$> write_repeat n r (scores t, durations t) D.
Proof.
  intros Hn Hr Hdir Himage. unfold persist, if_set. rewrite Hdir.
  rewrite bool_decide_false by (apply join_nonempty; apply Hr).
  destruct (plain _); [|done].
  rewrite !components_join by done.
  rewrite <- (assoc_L (++)); simpl.
  destruct (update _ _ _) as [root''|] eqn:Hupdate; [|done].
  intros [= <-]. by eapply update_save_image.
Qed.

(** A trainer writes below plain paths only. *)
Lemma persist_plain (t : trainer) (d : string) root root' :
  trainer_directory t = Some d → d ≠ EmptyString →
  persist t root = Return root' → plain d = true.
Proof.
  intros Hdir Hd. unfold persist, if_set. rewrite Hdir.
  rewrite bool_decide_false by done. by destruct (plain d).
Qed.

Lemma benchmark_image self (experiment n env : string) (a : agent) w scs dus w' D :
  experiment ≠ EmptyString → valid_name n →
  entries_of (walk (components experiment) (Some (fs w))) = pair_node <$> D →
  _benchmark self (Some (os.path.join experiment n)) env a w
    = (Return (scs, dus), w') →
  entries_of (walk (components experiment) (Some (fs w')))
  = pair_node <$>
      write_repeats n
        (zip (template_format (_repeats self) <$> seqZ 0 (_repeats self))
           (zip scs dus)) D.
Proof.
  intros Hexp Hn Himage Hrun. unfold _benchmark in Hrun.
  apply (for_each_returns_at
    (λ seen acc w1,
       length acc.1 = length seen ∧ length acc.2 = length seen
       ∧ entries_of (walk (components experiment) (Some (fs w1)))
         = pair_node <$>
             write_repeats n
               (zip (template_format (_repeats self) <$> seen)
                  (zip acc.1 acc.2)) D)
    _ _ _ _ _ _) in Hrun; [by destruct Hrun as (_ & _ & ?)|done|].
  clear scs dus w' Hrun Himage.
  intros seen repeat rest [scs dus] w1 [scs' dus'] w2 Hseq (Hls & Hld & Himage).
  simpl in Hls, Hld, Himage.
  rewrite benchmark_repeat_unfold; simpl.
  set (t := repeat_trainer self _ env a repeat (length (heap w1))).
  destruct (persist t (fs w1)) as [root|e] eqn:Hpersist; [|done].
  assert (repeat ∈ seqZ 0 (_repeats self)) as Hrepeat%elem_of_seqZ.
  { rewrite Hseq. set_solver. }
  eapply (persist_image t experiment n (template_format (_repeats self) repeat))
    in Hpersist; [|done|apply template_format_valid; lia| |done].
  2:{ subst t. unfold repeat_trainer; simpl.
      apply subdirectory_of_Some, join_nonempty, Hn. }
  destruct (repeat_ended _ _ _ _ _ _); [| |done].
  all: intros [= <- <- <-]; simpl; rewrite !length_app; simpl.
  all: split; [lia|]; split; [lia|].
  all: rewrite Hpersist, fmap_app.
  all: rewrite (zip_with_app pair scs _ dus) by lia.
  all: rewrite zip_with_app by (rewrite length_fmap, length_zip_with; lia).
  all: unfold write_repeats; by rewrite foldl_app.
Qed.

Lemma write_repeats_union (n : string) l D :
  l ≠ [] →
  write_repeats n l D
  = <[ n := list_to_map (reverse l) ∪ default ∅ (D !! n) ]> D.
Proof.
  revert D. induction l as [|[r x] l IH]; intros D Hne; [done|]. clear Hne.
  unfold write_repeats in *. simpl. destruct l as [|rx l].
  - simpl. unfold write_repeat. f_equal.
    by rewrite <- insert_union_l, (left_id_L ∅ (∪)).
  - rewrite IH by done. unfold write_repeat.
    rewrite lookup_insert_eq, insert_insert_eq. simpl. f_equal.
    rewrite (reverse_cons (rx :: l)), list_to_map_app; simpl.
    rewrite <- (assoc_L (∪)). f_equal.
    by rewrite <- insert_union_l, (left_id_L ∅ (∪)).
Qed.

Lemma NoDup_template_format (repeats : Z) :
  NoDup (template_format repeats <$> seqZ 0 repeats).
Proof.
  apply NoDup_fmap_2_strong; [|apply NoDup_seqZ].
  intros i j Hi%elem_of_seqZ Hj%elem_of_seqZ.
  apply template_format_inj; lia.
Qed.

Lemma repeat_map_is_Some (repeats : Z) scs dus (x : string) :
  length scs = Z.to_nat repeats → length dus = Z.to_nat repeats →
  is_Some (repeat_map repeats scs dus !! x)
  ↔ x ∈ template_format repeats <$> seqZ 0 repeats.
Proof.
  intros Hs Hd. unfold repeat_map.
  rewrite <- not_eq_None_Some, <- not_elem_of_list_to_map.
  rewrite fst_zip by (rewrite length_fmap, length_seqZ, length_zip_with; lia).
  split; [|tauto]. intros Hnn.
  destruct (decide (x ∈ template_format repeats <$> seqZ 0 repeats)); tauto.
Qed.

(** Once all the repeats of a pair are written, the directory of the pair
    holds them and no other, be it new or left by the same pair before. *)
Lemma write_all_repeats (n : string) (repeats : Z) scs dus D :
  (1 ≤ repeats)%Z →
  length scs = Z.to_nat repeats → length dus = Z.to_nat repeats →
  (D !! n = None
   ∨ ∃ scs' dus', length scs' = Z.to_nat repeats
       ∧ length dus' = Z.to_nat repeats
       ∧ D !! n = Some (repeat_map repeats scs' dus')) →
  write_repeats n
    (zip (template_format repeats <$> seqZ 0 repeats) (zip scs dus)) D
  = <[ n := repeat_map repeats scs dus ]> D.
Proof.
  intros HR Hs Hd Hold.
  set (l := zip (template_format repeats <$> seqZ 0 repeats) (zip scs dus)).
  assert (l.*1 = template_format repeats <$> seqZ 0 repeats) as Hkeys.
  { apply fst_zip. rewrite length_fmap, length_seqZ, length_zip_with. lia. }
  rewrite write_repeats_union.
  2:{ intros Hnil. apply (f_equal length) in Hnil. subst l.
      rewrite length_zip_with, length_fmap, length_seqZ, length_zip_with in Hnil.
      simpl in Hnil. lia. }
  f_equal.
  assert (list_to_map (reverse l) = repeat_map repeats scs dus) as ->.
  { apply list_to_map_proper; [|apply reverse_Permutation].
    rewrite fmap_reverse, Hkeys, reverse_Permutation.
    apply NoDup_template_format. }
  apply map_eq. intros x. rewrite lookup_union.
  destruct (repeat_map repeats scs dus !! x) as [y|] eqn:Hx.
  { by destruct (default ∅ (D !! n) !! x). }
  destruct Hold as [->|(scs' & dus' & Hs' & Hd' & ->)]; simpl.
  - by rewrite lookup_empty.
  - destruct (repeat_map repeats scs' dus' !! x) as [y|] eqn:Hx'; [|done].
    assert (is_Some (repeat_map repeats scs dus !! x)) as [z Hz].
    { apply repeat_map_is_Some; [done..|].
      by apply (repeat_map_is_Some repeats scs' dus'). }
    congruence.
Qed.

(** *** The names of the pairs *)

Lemma pair_name_valid (env : string) (a : agent) :
  occurs "/" env = false → occurs "/" (__name__ a) = false →
  valid_name (pair_name env a).
Proof.
  intros Henv Ha. unfold pair_name.
  assert (occurs "-" (env +:+ "-" +:+ __name__ a) = true) as Hdash.
  { rewrite occurs_app. simpl. apply orb_true_r. }
  split; [|split; [|split]].
  - by destruct env.
  - intros Heq. by rewrite Heq in Hdash.
  - intros Heq. by rewrite Heq in Hdash.
  - rewrite !occurs_app, Henv, Ha. done.
Qed.

Lemma rpartition_pair_name (env : string) (a : agent) :
  occurs "-" (__name__ a) = false →
  rpartition "-" (pair_name env a) = Some (env, __name__ a).
Proof. intros Ha. unfold pair_name. simpl. by apply rpartition_app. Qed.

Lemma pair_name_inj (env env' : string) (a a' : agent) :
  occurs "-" (__name__ a) = false → occurs "-" (__name__ a') = false →
  pair_name env a = pair_name env' a' → env = env' ∧ __name__ a = __name__ a'.
Proof.
  intros Ha Ha' Heq. pose proof (rpartition_pair_name env a Ha) as H1.
  rewrite Heq, rpartition_pair_name in H1 by done. by injection H1.
Qed.

Lemma elem_of_list_prod_iff {A B} (l : list A) (k : list B) (x : A) (y : B) :
  (x, y) ∈ list_prod l k ↔ x ∈ l ∧ y ∈ k.
Proof. by rewrite !list_elem_of_In, in_prod_iff. Qed.

(** What a run leaves on disk, below the directory of its experiment. *)
Lemma train_all_image self (experiment : string) envs agents w sc du w' :
  experiment ≠ EmptyString →
  well_named envs agents →
  entries_of (walk (components experiment) (Some (fs w))) = ∅ →
  train_all self (Some experiment) envs agents w = (Return (sc, du), w') →
  ∃ D, entries_of (walk (components experiment) (Some (fs w')))
       = pair_node <$> D
       ∧ on_disk self (list_prod envs agents) D sc du.
Proof.
  intros Hexp (Henvs & Hagents & Hids) Hfresh Hrun. unfold train_all in Hrun.
  apply (for_each_returns_at
    (λ seen acc w1,
       ∃ D, entries_of (walk (components experiment) (Some (fs w1)))
            = pair_node <$> D
            ∧ on_disk self seen D acc.1 acc.2)
    _ _ _ _ _ _) in Hrun; [done| |].
  { exists ∅. rewrite fmap_empty. split; [done|]. split.
    - intros n reps Hn. by rewrite lookup_empty in Hn.
    - by intros env a ?%elem_of_nil. }
  clear sc du w' Hrun Hfresh.
  intros seen [env0 a0] rest [sc du] w1 [sc' du'] w2 Hl (D & Himage & Hdisk & Hall).
  simpl in Hdisk, Hall.
  assert (∀ env a, (env, a) ∈ seen ++ [(env0, a0)] →
            occurs "/" env = false ∧ occurs "/" (__name__ a) = false
            ∧ occurs "-" (__name__ a) = false ∧ a ∈ agents) as Hnames.
  { intros env a Hin.
    assert ((env, a) ∈ list_prod envs agents) as [Henv Ha]%elem_of_list_prod_iff.
    { rewrite Hl. set_solver. }
    eapply Forall_forall in Henv; [|done].
    pose proof Ha as Ha'. eapply Forall_forall in Ha'; [|exact Hagents].
    naive_solver. }
  destruct (Hnames env0 a0) as (Henv0 & Hslash0 & Hdash0 & Hin0); [set_solver|].
  rewrite benchmark_pair_unfold. cbv zeta.
  rewrite subdirectory_of_Some by done. fold (pair_name env0 a0).
  destruct (_benchmark _ _ _ _ _) as [[[score duration]|e] w1'] eqn:Hpair;
    [|done].
  pose proof Hpair as Hts. apply benchmark_returns in Hts as (_ & _ & _ & Hs & Hd).
  eapply benchmark_image in Hpair;
    [|done|by apply pair_name_valid|exact Himage].
  destruct (mean_best score) as [mean|e] eqn:Hmean; [|done].
  apply mean_best_Return in Hmean as [Hne _].
  assert (length score = Z.to_nat (_repeats self)
          ∧ length duration = Z.to_nat (_repeats self)) as [Hls Hld].
  { rewrite Hs, Hd. unfold pair_trainers.
    by rewrite !length_fmap, length_imap, length_seqZ. }
  assert (1 ≤ _repeats self)%Z as HR.
  { destruct score; [done|]. simpl in Hls. lia. }
  rewrite write_all_repeats in Hpair; [|done..|].
  2:{ destruct (D !! pair_name env0 a0) as [reps|] eqn:Hold; [|by left].
      right. destruct (Hdisk _ _ Hold)
        as (env & a & scs & dus & _ & _ & _ & _ & -> & Hlen & Hlen').
      by exists scs, dus. }
  intros [= <- <- <-]. simpl.
  exists (<[pair_name env0 a0 := repeat_map (_repeats self) score duration]> D).
  split; [done|]. split.
  - intros n reps. destruct (decide (n = pair_name env0 a0)) as [->|Hn].
    + rewrite lookup_insert_eq. intros [= <-].
      exists env0, a0, score, duration. split; [set_solver|]. split; [done|].
      by rewrite !getitem_setitem, !decide_True.
    + rewrite lookup_insert_ne by done. intros Hreps.
      destruct (Hdisk _ _ Hreps)
        as (env & a & scs & dus & Hseen & -> & Hsc & Hdu & Hrest).
      exists env, a, scs, dus. split; [set_solver|]. split; [done|].
      assert (¬ (env0 = env ∧ inl (agent_id a0) =@{key} inl (agent_id a)))
        as Hother.
      { intros [<- [= Hid]]. apply Hn.
        destruct (Hnames env0 a) as (_ & _ & _ & Hin); [set_solver|].
        unfold pair_name. f_equal. f_equal. symmetry. by apply Hids. }
      rewrite !getitem_setitem, !decide_False by done.
      exact (conj Hsc (conj Hdu Hrest)).
  - intros env a [Hseen|Hnew%list_elem_of_singleton]%elem_of_app.
    + destruct (decide (pair_name env a = pair_name env0 a0)) as [->|Hn].
      * by rewrite lookup_insert_eq.
      * rewrite lookup_insert_ne by done. by apply Hall.
    + injection Hnew as -> ->. by rewrite lookup_insert_eq.
Qed.

End writing.

(** ** Reading what a run wrote *)

Section round_trip.
Import Benchmark Spec.
Context `{!Arithmetic}.
Local Arguments String.append : simpl nomatch.
Implicit Types (root : node) (D : disk) (w : world) (self : Benchmark).

Lemma filter_all {A} (P : A → Prop) `{!∀ x, Decision (P x)} (l : list A) :
  Forall P l → filter P l = l.
Proof.
  induction 1 as [|x l Hx Hl IH]; [done|].
  by rewrite filter_cons_True, IH.
Qed.

(** The names of the entries of a directory that holds directories only. *)
Lemma dir_names_fmap {A} (f : A → node) (m : gmap string A) :
  (∀ x, is_dir (f x) = true) →
  dir_names (f <$> m) ≡ₚ (map_to_list m).*1.
Proof.
  intros Hdir. unfold dir_names. rewrite filter_all.
  - rewrite map_to_list_fmap, <- list_fmap_compose.
    erewrite list_fmap_ext; [reflexivity|]. by intros i [x y].
  - apply Forall_forall. intros x [[x' n] [-> Hx]]%list_elem_of_fmap.
    apply elem_of_map_to_list in Hx. simpl. rewrite Hx. simpl.
    apply lookup_fmap_Some in Hx as (y & <- & _). by rewrite Hdir.
Qed.

Lemma repeat_map_keys (repeats : Z) scs dus :
  length scs = Z.to_nat repeats → length dus = Z.to_nat repeats →
  (map_to_list (repeat_map repeats scs dus)).*1
  ≡ₚ template_format repeats <$> seqZ 0 repeats.
Proof.
  intros Hs Hd. unfold repeat_map.
  assert ((zip (template_format repeats <$> seqZ 0 repeats) (zip scs dus)).*1
          = template_format repeats <$> seqZ 0 repeats) as Hkeys.
  { apply fst_zip. rewrite length_fmap, length_seqZ, length_zip_with. lia. }
  rewrite map_to_list_to_map; [by rewrite Hkeys|].
  rewrite Hkeys. apply NoDup_template_format.
Qed.

Lemma repeat_map_lookup (repeats : Z) scs dus (r : string) x :
  length scs = Z.to_nat repeats → length dus = Z.to_nat repeats →
  (r, x) ∈ zip (template_format repeats <$> seqZ 0 repeats) (zip scs dus) →
  repeat_map repeats scs dus !! r = Some x.
Proof.
  intros Hs Hd Hin. unfold repeat_map. apply elem_of_list_to_map; [|done].
  rewrite fst_zip by (rewrite length_fmap, length_seqZ, length_zip_with; lia).
  apply NoDup_template_format.
Qed.

(** The repeat directories that [read] finds in the directory of a pair. *)
Lemma subdirs_pair root (b : string) (repeats : Z) scs dus :
  length scs = Z.to_nat repeats → length dus = Z.to_nat repeats →
  resolve root b = Some (pair_node (repeat_map repeats scs dus)) →
  subdirs root b
  = Return (os.path.join b <$> (template_format repeats <$> seqZ 0 repeats)).
Proof.
  intros Hs Hd Hb.
  rewrite (subdirs_listing root b _ Hb).
  - f_equal. f_equal. apply sorted_template_format.
    rewrite dir_names_fmap by done. by apply repeat_map_keys.
  - intros x [n [y [_ Hy]]%lookup_fmap_Some].
    assert (x ∈ template_format repeats <$> seqZ 0 repeats)
      as [i [-> Hi%elem_of_seqZ]]%list_elem_of_fmap.
    { apply (repeat_map_is_Some repeats scs dus); [done..|]. by exists y. }
    apply template_format_valid. lia.
Qed.

(** The arrays that [read] loads from the directory of a pair. *)
Lemma load_all_entries root (b : string)
    (reps : gmap string (list Q * list Q))
    (l : list (string * (list Q * list Q))) :
  resolve root b = Some (pair_node reps) →
  Forall (λ rx, valid_name rx.1 ∧ reps !! rx.1 = Some rx.2) l →
  load_all root (os.path.join b <$> l.*1) = Return ((l.*2).*1, (l.*2).*2).
Proof.
  intros Hb. induction 1 as [|[r [s d]] l [Hr Hx] Hl IH]; [done|].
  simpl in Hr, Hx.
  assert (∀ f (c : list Q),
            entries_of (Some (repeat_node (s, d))) !! f = Some (File (Npy c)) →
            valid_name f →
            np_load root (os.path.join (os.path.join b r) f) = Return c)
    as Hload.
  { intros f c Hf Hvalid. unfold np_load.
    assert (resolve root (os.path.join b r) = Some (repeat_node (s, d)))
      as Hrep%resolve_Some.
    { unfold pair_node in Hb. rewrite (resolve_join root b r _ Hr Hb).
      by rewrite lookup_fmap, Hx. }
    unfold repeat_node in Hrep.
    rewrite (locate_join root _ f _ Hvalid Hrep). simpl in *.
    by rewrite Hf. }
  rewrite !fmap_cons. simpl.
  rewrite (Hload "scores.npy" s), (Hload "durations.npy" d), IH; done.
Qed.

Lemma load_all_pair root (b : string) (repeats : Z) scs dus :
  length scs = Z.to_nat repeats → length dus = Z.to_nat repeats →
  resolve root b = Some (pair_node (repeat_map repeats scs dus)) →
  load_all root
    (os.path.join b <$> (template_format repeats <$> seqZ 0 repeats))
  = Return (scs, dus).
Proof.
  intros Hs Hd Hb.
  set (l := zip (template_format repeats <$> seqZ 0 repeats) (zip scs dus)).
  assert (l.*1 = template_format repeats <$> seqZ 0 repeats) as Hkeys.
  { apply fst_zip. rewrite length_fmap, length_seqZ, length_zip_with. lia. }
  assert (l.*2 = zip scs dus) as Hvalues.
  { apply snd_zip. rewrite length_fmap, length_seqZ, length_zip_with. lia. }
  rewrite <- Hkeys, (load_all_entries root b _ l Hb).
  - rewrite Hvalues. by rewrite fst_zip, snd_zip by lia.
  - apply Forall_forall. intros [r x] Hin. simpl. split.
    + assert (r ∈ l.*1) as Hr by (apply list_elem_of_fmap; by exists (r, x)).
      rewrite Hkeys in Hr.
      apply list_elem_of_fmap in Hr as [i [-> Hi%elem_of_seqZ]].
      apply template_format_valid. lia.
    + by apply repeat_map_lookup.
Qed.

(** [read], on an experiment directory that holds what [D] describes. *)
Lemma read_image root (experiment : string) D (repeats : Z) :
  resolve root experiment = Some (Dir (pair_node <$> D)) →
  (∀ n reps, D !! n = Some reps →
     valid_name n ∧ is_Some (rpartition "-" n)
     ∧ ∃ scs dus, reps = repeat_map repeats scs dus
         ∧ length scs = Z.to_nat repeats ∧ length dus = Z.to_nat repeats) →
  ∃ benchmarks res,
    subdirs root experiment = Return benchmarks
    ∧ read_all root benchmarks (∅, ∅) = Return res
    ∧ (∀ n env name scs dus,
         D !! n = Some (repeat_map repeats scs dus) →
         length scs = Z.to_nat repeats → length dus = Z.to_nat repeats →
         rpartition "-" n = Some (env, name) →
         getitem res.1 env (inr name) = Some scs
         ∧ getitem res.2 env (inr name) = Some dus)
    ∧ (∀ env k,
         is_Some (getitem res.1 env k) ∨ is_Some (getitem res.2 env k) →
         ∃ n name, k = inr name ∧ is_Some (D !! n)
                   ∧ rpartition "-" n = Some (env, name)).
Proof.
  intros Hexp HD.
  set (ns := sorted (dir_names (pair_node <$> D))).
  assert (∀ x, x ∈ ns ↔ is_Some (D !! x)) as Hns.
  { intros x. subst ns. unfold sorted.
    rewrite merge_sort_Permutation, dir_names_fmap by done.
    rewrite list_elem_of_fmap. split.
    - intros [[x' reps] [-> Hin%elem_of_map_to_list]]. by exists reps.
    - intros [reps Hx]. exists (x, reps). by rewrite elem_of_map_to_list. }
  assert (NoDup ns) as Hnodup.
  { subst ns. unfold sorted.
    rewrite merge_sort_Permutation, dir_names_fmap by done.
    apply NoDup_fst_map_to_list. }
  assert (∀ x, x ∈ ns → valid_name x) as Hvalid.
  { intros x [reps Hx]%Hns. by destruct (HD x reps Hx). }
  assert (subdirs root experiment = Return (os.path.join experiment <$> ns))
    as Hsub.
  { apply subdirs_listing; [done|].
    intros x [n [reps [_ Hx]]%lookup_fmap_Some]. apply Hvalid, Hns. by exists reps. }
  assert (∀ n scs dus,
            D !! n = Some (repeat_map repeats scs dus) →
            length scs = Z.to_nat repeats → length dus = Z.to_nat repeats →
            subdirs root (os.path.join experiment n)
            = Return (os.path.join (os.path.join experiment n)
                        <$> (template_format repeats <$> seqZ 0 repeats))
            ∧ load_all root
                (os.path.join (os.path.join experiment n)
                   <$> (template_format repeats <$> seqZ 0 repeats))
              = Return (scs, dus)) as Hpair.
  { intros n scs dus Hn Hs Hd.
    assert (resolve root (os.path.join experiment n)
            = Some (pair_node (repeat_map repeats scs dus))) as Hb.
    { rewrite (resolve_join root experiment n (pair_node <$> D)); [|by apply Hvalid, Hns; eexists|done].
      by rewrite lookup_fmap, Hn. }
    split; [by apply (subdirs_pair root _ repeats scs dus)|by apply load_all_pair]. }
  destruct (read_all_total root (os.path.join experiment <$> ns) (∅, ∅))
    as [res Hres].
  { intros b [n [-> Hn]]%list_elem_of_fmap.
    pose proof Hn as [reps Hreps]%Hns.
    destruct (HD n reps Hreps) as (_ & [key Hkey] & scs & dus & -> & Hs & Hd).
    destruct (Hpair n scs dus Hreps Hs Hd) as [Hsubdirs Hload].
    eexists key, _, (scs, dus). rewrite key_of_join by by apply Hvalid. done. }
  exists (os.path.join experiment <$> ns), res.
  split; [done|]. split; [done|].
  apply read_all_spec in Hres as (Hfiled & Hframe & _).
  2:{ apply NoDup_fmap_2_strong; [|done].
      intros x y Hx Hy. apply join_inj; by apply Hvalid. }
  2:{ intros b1 b2 key [x1 [-> Hx1]]%list_elem_of_fmap
        [x2 [-> Hx2]]%list_elem_of_fmap Hk1 Hk2.
      f_equal. eapply key_of_inj; [| |done..]; by apply Hvalid. }
  split.
  - intros n env name scs dus Hn Hs Hd Hkey.
    assert (n ∈ ns) as Hin by (apply Hns; by eexists).
    destruct (Hfiled (os.path.join experiment n) env name)
      as (repeats' & ss & ds & Hsub' & Hload' & Hsc & Hdu).
    { by apply list_elem_of_fmap_2. }
    { rewrite key_of_join by by apply Hvalid. done. }
    destruct (Hpair n scs dus Hn Hs Hd) as [Hsubdirs Hload].
    rewrite Hsubdirs in Hsub'. injection Hsub' as <-.
    rewrite Hload in Hload'. injection Hload' as <- <-. done.
  - intros env k Hsome.
    assert (k = inr (match k with inr name => name | inl _ => EmptyString end)
            ∧ Exists (λ b, key_of b
                           = Some (env, match k with
                                        | inr name => name
                                        | inl _ => EmptyString
                                        end))
                (os.path.join experiment <$> ns)) as [Hk Hb].
    { destruct (decide (k = inr (match k with
                                 | inr name => name
                                 | inl _ => EmptyString
                                 end)
                        ∧ Exists (λ b, key_of b
                                     = Some (env, match k with
                                                  | inr name => name
                                                  | inl _ => EmptyString
                                                  end))
                            (os.path.join experiment <$> ns)))
        as [Hyes|Hno]; [done|].
      destruct (Hframe env k) as [H1 H2].
      { intros b name Hin -> Hkey. apply Hno. split; [done|].
        apply Exists_exists. by exists b. }
      rewrite H1, H2 in Hsome. unfold getitem in Hsome. simpl in Hsome.
      rewrite lookup_empty in Hsome. simpl in Hsome.
      destruct Hsome as [[? [=]]|[? [=]]]. }
    apply Exists_exists in Hb as (b & [n [-> Hn]]%list_elem_of_fmap & Hkey).
    rewrite key_of_join in Hkey by by apply Hvalid.
    eexists n, _. split; [exact Hk|]. split; [by apply Hns|done].
Qed.

(** The results read under the names of the agents, from three facts on
    the pairs. *)
Lemma renamed_intro (envs : list string) (agents : list agent)
    (mem read' : results) :
  (∀ a b, a ∈ agents → b ∈ agents →
     (__name__ a = __name__ b ↔ agent_id a = agent_id b)) →
  (∀ env a, env ∈ envs → a ∈ agents →
     ∃ v, getitem mem env (inl (agent_id a)) = Some v
          ∧ getitem read' env (inr (__name__ a)) = Some v) →
  (∀ env k, is_Some (getitem read' env k) →
     ∃ a, env ∈ envs ∧ a ∈ agents ∧ k = inr (__name__ a)) →
  (∀ env k, is_Some (getitem mem env k) →
     ∃ a, env ∈ envs ∧ a ∈ agents ∧ k = inl (agent_id a)) →
  renamed agents mem read'.
Proof.
  intros Hids Hboth Hread Hmem. split; [|split].
  - intros env a Ha. destruct (decide (env ∈ envs)) as [Henv|Henv].
    + destruct (Hboth env a Henv Ha) as (v & -> & ->). done.
    + destruct (getitem read' env (inr (__name__ a))) as [v|] eqn:H1.
      { destruct (Hread env (inr (__name__ a))) as (? & ? & _); [by eexists|done]. }
      destruct (getitem mem env (inl (agent_id a))) as [v|] eqn:H2; [|done].
      destruct (Hmem env (inl (agent_id a))) as (? & ? & _); [by eexists|done].
  - intros env k Hk. destruct (Hread env k Hk) as (a & _ & Ha & ->). by exists a.
  - intros env k Hk. destruct (Hmem env k Hk) as (a & _ & Ha & ->). by exists a.
Qed.

End round_trip.

(** ** The adapter: construction, reset and close *)

Section gym_env_life_cycle.
Context {S X : Type}.
Variable make : string → GymEnv.Env S X.
Variable Monitor : GymEnv.Env S X → string → bool → GymEnv.Env S X.
Implicit Types (self : GymEnv.GymEnv S X) (action : pyval) (s : S).

(** X1: [reset] hands over what the wrapped environment does: the
    observation it emits, as it is (be it outside of the observation
    space), or the exception it raises, whichever it is; [reset] checks
    nothing and raises nothing of its own: what it raises is what the
    environment raised. *)
Theorem reset_hands_over self s :
  (∀ observation s',
     GymEnv.env_reset (GymEnv._env self) s = (Return observation, s') →
     GymEnv.reset self s = (Return observation, s'))
  ∧ (∀ x s',
       GymEnv.env_reset (GymEnv._env self) s = (Raise x, s') →
       GymEnv.reset self s = (Raise (GymEnv.Propagated x), s'))
  ∧ (∀ e s',
       GymEnv.reset self s = (Raise e, s') →
       ∃ x, e = GymEnv.Propagated x
            ∧ GymEnv.env_reset (GymEnv._env self) s = (Raise x, s')).
Proof.
  unfold GymEnv.reset, lift, bind, ret.
  destruct (GymEnv.env_reset (GymEnv._env self) s) as [[observation|x] s1].
  - split; [by intros ? ? [= <- <-]|]. split; [done|]. by intros e s'.
  - split; [done|]. split; [by intros ? ? [= <- <-]|].
    intros e s' [= <- <-]. by exists x.
Qed.

(** X2: [close] closes the monitor first, and only with a directory; when
    that fails, the environment is not closed; without a directory the
    monitor is left alone. *)
Theorem close_monitor_then_env self s :
  (truthy (GymEnv._directory self) = false →
   GymEnv.close self s
   = lift GymEnv.Propagated (GymEnv.env_close (GymEnv._env self)) s)
  ∧ (truthy (GymEnv._directory self) = true →
     (∀ x s',
        GymEnv.monitor_close (GymEnv._env self) s = (Raise x, s') →
        GymEnv.close self s = (Raise (GymEnv.Propagated x), s'))
     ∧ (∀ u s',
          GymEnv.monitor_close (GymEnv._env self) s = (Return u, s') →
          GymEnv.close self s
          = lift GymEnv.Propagated (GymEnv.env_close (GymEnv._env self)) s')).
Proof.
  unfold GymEnv.close, bind. split; intros ->; [done|].
  unfold lift at 1 3. split; by intros ? s' ->.
Qed.

(** X3: the adapter that [__init__] makes keeps the directory it is given
    and holds the environment of [gym.make]: as it is when the directory is
    [None] or the empty path, inside a monitor on that directory
    otherwise; its spaces are the ones of what it holds. *)
Theorem init_monitors_with_directory (env_name : string)
    (directory : option string) (videos : bool) :
  let self := GymEnv.__init__ make Monitor env_name directory videos in
  GymEnv._directory self = directory
  ∧ (directory = None ∨ directory = Some EmptyString →
     GymEnv._env self = make env_name
     ∧ GymEnv.observs self = GymEnv.observation_space (make env_name)
     ∧ GymEnv.actions self = GymEnv.action_space (make env_name))
  ∧ (∀ d, directory = Some d → d ≠ EmptyString →
       GymEnv._env self = Monitor (make env_name) d videos
       ∧ GymEnv.observs self
         = GymEnv.observation_space (Monitor (make env_name) d videos)
       ∧ GymEnv.actions self
         = GymEnv.action_space (Monitor (make env_name) d videos)).
Proof.
  unfold GymEnv.observs, GymEnv.actions. simpl. split; [done|]. split.
  - by intros [->| ->].
  - intros d -> Hd. unfold if_set. by rewrite bool_decide_false.
Qed.

(** X4: on a step that does not end the episode, [step] returns the reward
    and the observation of the wrapped environment as they are, once its
    three assertions hold; what the environment returns besides is
    dropped. *)
Theorem step_running_observation
    self action s observation reward info s' :
  GymEnv.env_step (GymEnv._env self) action s
    = (Return (observation, reward, false, info), s') →
  GymEnv.contains (GymEnv.actions self) action = true →
  GymEnv.contains (GymEnv.observs self) observation = true →
  isinstance reward ["int"; "float"] = true →
  GymEnv.step self action s = (Return (reward, observation), s').
Proof. intros Hstep Ha Ho Hr. by rewrite step_unfold, Ha, Hstep, Ho, Hr. Qed.

(** X5: [step] catches nothing: what the wrapped environment raises, on an
    action of the action space, is what [step] raises, in the state the
    environment is left in. *)
Theorem step_propagates self action s x s' :
  GymEnv.contains (GymEnv.actions self) action = true →
  GymEnv.env_step (GymEnv._env self) action s = (Raise x, s') →
  GymEnv.step self action s = (Raise (GymEnv.Propagated x), s').
Proof. intros Ha Hstep. by rewrite step_unfold, Ha, Hstep. Qed.

(** X6: when [step] returns, the action was in the action space, the
    wrapped environment has been stepped once with it and has returned the
    reward, and the observation is [None] or is the one of the
    environment, which is in the observation space. *)
Theorem step_returns_checked self action s reward observation s' :
  GymEnv.step self action s = (Return (reward, observation), s') →
  GymEnv.contains (GymEnv.actions self) action = true
  ∧ (observation = PyNone
     ∨ GymEnv.contains (GymEnv.observs self) observation = true)
  ∧ ∃ emitted terminal info,
      GymEnv.env_step (GymEnv._env self) action s
        = (Return (emitted, reward, terminal, info), s')
      ∧ GymEnv.contains (GymEnv.observs self) emitted = true
      ∧ observation = if terminal then PyNone else emitted.
Proof.
  rewrite step_unfold.
  destruct (GymEnv.contains (GymEnv.actions self) action); [|done].
  destruct (GymEnv.env_step _ action s)
    as [[[[[emitted reward'] terminal] info]|x] s1]; [|done].
  destruct (GymEnv.contains _ emitted) eqn:Ho; [|done].
  destruct (isinstance reward' _); [|done].
  intros [= <- <- <-]. split; [done|]. split.
  - destruct terminal; [by left|by right].
  - by exists emitted, terminal, info.
Qed.

End gym_env_life_cycle.

Lemma reset_hands_over_witness :
  GymEnv.reset Sample.stuck_env 2%nat = (Return PyNone, 0%nat)
  ∧ GymEnv.contains (GymEnv.observs Sample.stuck_env) PyNone = false
  ∧ GymEnv.reset Sample.dead_env 2%nat
    = (Raise (GymEnv.Propagated "AssertionError: no display"), 2%nat).
Proof.
  split; [|split; [reflexivity|]].
  - apply (proj1 (reset_hands_over Sample.stuck_env 2%nat)). reflexivity.
  - apply (proj1 (proj2 (reset_hands_over Sample.dead_env 2%nat))).
    reflexivity.
Defined.

Lemma close_monitor_then_env_witness :
  let monitored :=
    GymEnv.__init__ Sample.make Sample.Monitor "Chain-v0" (Some "/tmp/videos")
      false in
  GymEnv.close Sample.chain_env 1%nat = (Return tt, 1%nat)
  ∧ GymEnv.close monitored 1%nat
    = (Raise (GymEnv.Propagated "episode running"), 1%nat)
  ∧ GymEnv.close monitored 3%nat = (Return tt, 0%nat).
Proof.
  intros monitored. split; [|split].
  - apply (proj1 (close_monitor_then_env Sample.chain_env 1%nat)). reflexivity.
  - apply (proj1 (proj2 (close_monitor_then_env monitored 1%nat) eq_refl)).
    reflexivity.
  - apply (proj2 (proj2 (close_monitor_then_env monitored 3%nat) eq_refl)
             tt 13%nat).
    reflexivity.
Defined.

Lemma init_monitors_with_directory_witness :
  GymEnv._env (GymEnv.__init__ Sample.make Sample.Monitor "Chain-v0"
                 (Some EmptyString) true)
  = Sample.chain
  ∧ GymEnv._env (GymEnv.__init__ Sample.make Sample.Monitor "Chain-v0"
                   (Some "/tmp/videos") true)
    = Sample.Monitor Sample.chain "/tmp/videos" true.
Proof.
  split.
  - apply (proj1 (proj2 (init_monitors_with_directory Sample.make
                           Sample.Monitor "Chain-v0" (Some EmptyString) true))).
    right. reflexivity.
  - apply (proj2 (proj2 (init_monitors_with_directory Sample.make
                           Sample.Monitor "Chain-v0" (Some "/tmp/videos") true))
             "/tmp/videos"); [reflexivity|discriminate].
Defined.

Lemma step_running_observation_witness :
  GymEnv.step Sample.chain_env (PyInt 1) 0%nat
  = (Return (PyFloat 1%Q, PyInt 1), 1%nat).
Proof.
  apply (step_running_observation Sample.chain_env (PyInt 1) 0%nat (PyInt 1)
           (PyFloat 1%Q) PyNone 1%nat); reflexivity.
Defined.

Lemma step_propagates_witness :
  GymEnv.step Sample.stuck_env (PyInt 1) 0%nat
  = (Raise (GymEnv.Propagated "stuck"), 1%nat).
Proof.
  apply (step_propagates Sample.stuck_env (PyInt 1) 0%nat "stuck" 1%nat);
    reflexivity.
Defined.

Lemma step_returns_checked_witness :
  GymEnv.contains (GymEnv.actions Sample.chain_env) (PyInt 0) = true
  ∧ (PyNone = PyNone
     ∨ GymEnv.contains (GymEnv.observs Sample.chain_env) PyNone = true)
  ∧ ∃ emitted terminal info,
      GymEnv.env_step (GymEnv._env Sample.chain_env) (PyInt 0) 2%nat
        = (Return (emitted, PyFloat 1%Q, terminal, info), 3%nat)
      ∧ GymEnv.contains (GymEnv.observs Sample.chain_env) emitted = true
      ∧ PyNone = if terminal then PyNone else emitted.
Proof.
  apply (step_returns_checked Sample.chain_env (PyInt 0) 2%nat (PyFloat 1%Q)
           PyNone 3%nat).
  reflexivity.
Defined.

(** ** Starting an experiment *)

Section start.
Import Benchmark Spec.
Local Arguments String.append : simpl nomatch.
Implicit Types (self : Benchmark) (w : world) (name : string).

Lemma dash_nonempty (s1 s2 : string) : s1 +:+ "-" +:+ s2 ≠ EmptyString.
Proof. by destruct s1. Qed.

(** X7: [__init__] keeps the repeat count and the configuration of the
    trainers; a root directory that is [None] or the empty path is kept as
    it is, and every experiment then is a dry run: [_start_experiment]
    returns [None] and prints the notice of a dry run, nothing else
    changes.  Any other root directory is normalised. *)
Theorem init_without_directory_is_dry (abspath : string → string)
    (directory : option string) (repeats : Z) (config : kwargs) name w :
  let self := __init__ abspath directory repeats config in
  _repeats self = repeats ∧ _trainer_kwargs self = config
  ∧ (truthy directory = false →
     _directory self = directory
     ∧ _start_experiment self name w
       = (Return None, set_stdout (stdout w ++ [Start_experiment_dry_run]) w))
  ∧ (∀ d, directory = Some d → d ≠ EmptyString →
       _directory self = Some (abspath d)).
Proof.
  simpl. split; [done|]. split; [done|]. split.
  - unfold __init__, _start_experiment, truthy, if_set. simpl.
    destruct directory as [d|]; [|done]. case_bool_decide as Hd; [|done].
    intros _. by rewrite Hd.
  - intros d -> Hd. unfold __init__, if_set. simpl. by rewrite bool_decide_false.
Qed.

(** X8: with a root directory, [_start_experiment] returns the path of the
    experiment, which is the root directory joined with the time, a dash
    and the name; it prints that path and changes nothing else.  The path
    is never empty, so the run is not taken for a dry one later on; and its
    last component is the time, a dash and the name when these hold no
    slash. *)
Theorem start_experiment_with_directory self name w :
  truthy (_directory self) = true →
  ∃ root experiment,
    _directory self = Some root
    ∧ experiment = os.path.join root (utcnow w +:+ "-" +:+ name)
    ∧ _start_experiment self name w
      = (Return (Some experiment),
         set_stdout (stdout w ++ [Start_experiment experiment]) w)
    ∧ truthy (Some experiment) = true
    ∧ (occurs "/" (utcnow w) = false → occurs "/" name = false →
       os.path.basename experiment = utcnow w +:+ "-" +:+ name).
Proof.
  unfold truthy, if_set. destruct (_directory self) as [root|] eqn:Hroot; [|done].
  case_bool_decide as Hne; [done|]. intros _.
  exists root, (os.path.join root (utcnow w +:+ "-" +:+ name)).
  split; [done|]. split; [done|]. split; [|split].
  - unfold _start_experiment, if_set. rewrite Hroot, bool_decide_false by done.
    done.
  - rewrite bool_decide_false; [done|]. apply join_nonempty, dash_nonempty.
  - intros Hts Hname. apply basename_join.
    by rewrite !occurs_app, Hts, Hname.
Qed.

End start.

Section start_witnesses.
Import Benchmark Spec Sample.

Lemma init_without_directory_is_dry_witness :
  _start_experiment (__init__ (String.append "/home/user/") (Some EmptyString)
                       3 []) "demo" blank
  = (Return None, set_stdout [Start_experiment_dry_run] blank)
  ∧ _directory (__init__ (String.append "/home/user/") (Some "experiments")
                  3 [])
    = Some "/home/user/experiments".
Proof.
  split.
  - apply (proj1 (proj2 (proj2 (init_without_directory_is_dry
             (String.append "/home/user/") (Some EmptyString) 3 [] "demo"
             blank))) eq_refl).
  - apply (proj2 (proj2 (proj2 (init_without_directory_is_dry
             (String.append "/home/user/") (Some "experiments") 3 [] "demo"
             blank))) "experiments"); [reflexivity|discriminate].
Defined.

Lemma start_experiment_with_directory_witness :
  ∃ root experiment,
    _directory (saved 2) = Some root
    ∧ experiment = os.path.join root (utcnow blank +:+ "-" +:+ "demo")
    ∧ _start_experiment (saved 2) "demo" blank
      = (Return (Some experiment),
         set_stdout (stdout blank ++ [Start_experiment experiment]) blank)
    ∧ truthy (Some experiment) = true
    ∧ (occurs "/" (utcnow blank) = false → occurs "/" "demo" = false →
       os.path.basename experiment = utcnow blank +:+ "-" +:+ "demo").
Proof.
  apply (start_experiment_with_directory (saved 2) "demo" blank). reflexivity.
Defined.

End start_witnesses.

(** ** Listing and reading directories *)

Section listing.
Import Benchmark Spec.
Local Arguments String.append : simpl nomatch.
Implicit Types (w : world) (directory experiment : string).

(** X9: on a path that names nothing, as the empty path does,
    [_get_subdirs] raises [FileNotFoundError]; on a path that names a file,
    or that goes through a file, as the path of an entry of a file does, it
    raises [NotADirectoryError]; and so does [read] of such a path; the
    state is left as it was. *)
Theorem missing_directory_raises directory w :
  let raises e :=
    _get_subdirs directory w = (Raise e, w) ∧ read directory w = (Raise e, w) in
  (locate (fs w) directory = inl ENOENT →
   raises (FileNotFoundError directory))
  ∧ (directory = EmptyString → raises (FileNotFoundError directory))
  ∧ (locate (fs w) directory = inl ENOTDIR →
     raises (NotADirectoryError directory))
  ∧ (∀ f, locate (fs w) directory = inr (File f) →
       raises (NotADirectoryError directory))
  ∧ (∀ d x f, directory = os.path.join d x → valid_name x →
       locate (fs w) d = inr (File f) →
       raises (NotADirectoryError directory)).
Proof.
  intros raises. subst raises. cbv beta.
  rewrite get_subdirs_unfold, read_unfold. unfold subdirs, os.listdir.
  split; [by intros ->|]. split; [by intros ->|]. split; [by intros ->|].
  split; [by intros f ->|].
  intros d x f -> Hx Hd. by rewrite (locate_join_File _ _ _ _ Hx Hd).
Qed.

(** X10: what [_get_subdirs] returns is in the order of [sorted], and holds
    the paths, made of the directory and of one of its entries, that are
    directories, and no other path: the files are left out.  The state is
    left as it was. *)
Theorem get_subdirs_returns directory w l w' :
  _get_subdirs directory w = (Return l, w') →
  w' = w ∧ Sorted String.le l
  ∧ ∃ names,
      os.listdir (fs w) directory = Return names
      ∧ ∀ p, p ∈ l ↔ os.path.isdir (fs w) p = true
                     ∧ ∃ x, x ∈ names ∧ p = os.path.join directory x.
Proof.
  rewrite get_subdirs_unfold. intros [= Hsub <-]. split; [done|].
  split; [by eapply subdirs_sorted|].
  unfold subdirs in Hsub.
  destruct (os.listdir (fs w) directory) as [names|e]; [|done].
  injection Hsub as <-. exists names. split; [done|]. intros p.
  unfold sorted. rewrite merge_sort_Permutation, list_elem_of_filter.
  rewrite list_elem_of_fmap, Is_true_true.
  split; intros [Hdir (x & Hx1 & Hx2)]; (split; [done|by exists x]).
Qed.

(** X11: [read] only reads: it leaves the state as it was, whatever it
    returns or raises, and its outcome depends on the files alone. *)
Theorem read_only_reads experiment w :
  (read experiment w).2 = w
  ∧ ∀ w2, fs w2 = fs w → (read experiment w2).1 = (read experiment w).1.
Proof.
  split; [apply read_state|]. intros w2 Hfs. by rewrite !read_unfold, Hfs.
Qed.

(** X12: the name of a benchmark directory is taken apart at its last dash;
    a name without a dash cannot be, and [read] raises the [ValueError] of
    the failed unpacking when the first directory it finds has such a
    name. *)
Theorem read_needs_dash experiment w benchmark rest :
  _get_subdirs experiment w = (Return (benchmark :: rest), w) →
  occurs "-" (os.path.basename benchmark) = false →
  read experiment w = (Raise cannot_unpack, w).
Proof.
  rewrite get_subdirs_unfold. intros [= Hsub] Hdash.
  rewrite read_unfold, Hsub. simpl. unfold read_one, key_of.
  by rewrite rpartition_None.
Qed.

(** X13: the directory of a pair is named by the environment, a dash and
    the name of the agent, and [read] takes the name apart at its last
    dash.  So an environment is read back whatever dashes its name holds,
    and an agent is when its name holds none; a dash in the name of the
    agent moves what is before it to the environment. *)
Theorem read_splits_at_last_dash experiment (env name : string) :
  occurs "/" env = false → occurs "/" name = false →
  unpack2 (rsplit1 "-"
             (os.path.basename (os.path.join experiment (env +:+ "-" +:+ name))))
  = Return (match rpartition "-" name with
            | None => (env, name)
            | Some (l, r) => (env +:+ "-" +:+ l, r)
            end).
Proof.
  intros Henv Hname. rewrite basename_join by by rewrite !occurs_app, Henv, Hname.
  rewrite unpack2_rsplit1.
  destruct (rpartition "-" name) as [[l r]|] eqn:Hsplit.
  - apply rpartition_Some in Hsplit as [-> Hr].
    assert (env +:+ "-" +:+ l +:+ String "-" r
            = (env +:+ "-" +:+ l) +:+ String "-" r) as ->.
    { by rewrite !string_app_assoc. }
    by rewrite rpartition_app.
  - assert (occurs "-" name = false) as Hdash.
    { destruct (occurs "-" name) eqn:Hocc; [|done].
      clear Hname. induction name as [|c name IH]; [done|]. simpl in *.
      destruct (rpartition "-" name) as [[l r]|]; [done|].
      case_bool_decide; [done|]. simpl in Hocc. by apply IH. }
    change (env +:+ "-" +:+ name) with (env +:+ String "-" name).
    by rewrite rpartition_app.
Qed.

(** X14: an experiment directory none of whose entries is a directory
    reads as no result at all, not as an error. *)
Theorem read_without_subdirectories experiment w names :
  os.listdir (fs w) experiment = Return names →
  Forall (λ x, os.path.isdir (fs w) (os.path.join experiment x) = false) names →
  read experiment w = (Return (∅, ∅), w).
Proof.
  intros Hls Hfiles. rewrite read_unfold. unfold subdirs. rewrite Hls.
  assert (filter (λ x, os.path.isdir (fs w) x) (os.path.join experiment <$> names)
          = []) as ->; [|done].
  clear Hls. induction Hfiles as [|x names Hx Hfiles IH]; [done|].
  rewrite fmap_cons, filter_cons_False; [done|]. simpl. rewrite Hx. intros [].
Qed.

End listing.

Section listing_witnesses.
Import Benchmark Spec Sample.

Lemma missing_directory_raises_witness :
  read "/exp" blank = (Raise (FileNotFoundError "/exp"), blank)
  ∧ read EmptyString archive = (Raise (FileNotFoundError EmptyString), archive)
  ∧ _get_subdirs "/exp/Pong-Random/notes.txt" archive
    = (Raise (NotADirectoryError "/exp/Pong-Random/notes.txt"), archive)
  ∧ _get_subdirs "/exp/Pong-Random/notes.txt/x" archive
    = (Raise (NotADirectoryError "/exp/Pong-Random/notes.txt/x"), archive)
  ∧ read "/exp/Pong-Random/notes.txt/x/y" archive
    = (Raise (NotADirectoryError "/exp/Pong-Random/notes.txt/x/y"), archive).
Proof.
  split; [|split; [|split; [|split]]].
  - apply (proj1 (missing_directory_raises "/exp" blank)). reflexivity.
  - apply (proj1 (proj2 (missing_directory_raises EmptyString archive))).
    reflexivity.
  - apply (proj1 (proj2 (proj2 (proj2 (missing_directory_raises
             "/exp/Pong-Random/notes.txt" archive)))) (Bytes "to do")).
    vm_compute. reflexivity.
  - apply (proj2 (proj2 (proj2 (proj2 (missing_directory_raises
             "/exp/Pong-Random/notes.txt/x" archive))))
             "/exp/Pong-Random/notes.txt" "x" (Bytes "to do")).
    + reflexivity.
    + repeat split; discriminate.
    + vm_compute. reflexivity.
  - apply (proj1 (proj2 (proj2 (missing_directory_raises
             "/exp/Pong-Random/notes.txt/x/y" archive)))).
    vm_compute. reflexivity.
Defined.

Lemma get_subdirs_returns_witness :
  let l := ["/exp/Pong-Random/repeat-02"; "/exp/Pong-Random/repeat-10"] in
  archive = archive ∧ Sorted String.le l
  ∧ ∃ names,
      os.listdir (fs archive) "/exp/Pong-Random" = Return names
      ∧ ∀ p, p ∈ l ↔ os.path.isdir (fs archive) p = true
                     ∧ ∃ x, x ∈ names ∧ p = os.path.join "/exp/Pong-Random" x.
Proof.
  intros l.
  apply (get_subdirs_returns "/exp/Pong-Random" archive l archive).
  vm_compute. reflexivity.
Defined.

Lemma read_only_reads_witness :
  (read "/exp" (set_stdout [Start_experiment_dry_run] archive)).1
  = (read "/exp" archive).1.
Proof.
  apply (proj2 (read_only_reads "/exp" archive)). reflexivity.
Defined.

Lemma read_needs_dash_witness :
  read "/" archive = (Raise cannot_unpack, archive).
Proof.
  apply (read_needs_dash "/" archive "/exp" []); vm_compute; reflexivity.
Defined.

Lemma read_splits_at_last_dash_witness :
  unpack2 (rsplit1 "-"
             (os.path.basename (os.path.join "/exp" ("CartPole-v0" +:+ "-" +:+ "DQN"))))
  = Return ("CartPole-v0", "DQN")
  ∧ unpack2 (rsplit1 "-"
               (os.path.basename
                  (os.path.join "/exp" ("Pong" +:+ "-" +:+ "Double-DQN"))))
    = Return ("Pong-Double", "DQN").
Proof.
  split.
  - apply (read_splits_at_last_dash "/exp" "CartPole-v0" "DQN"); reflexivity.
  - apply (read_splits_at_last_dash "/exp" "Pong" "Double-DQN"); reflexivity.
Defined.

Lemma read_without_subdirectories_witness :
  read "/exp/Pong-Random/repeat-02" archive = (Return (∅, ∅), archive).
Proof.
  eapply (read_without_subdirectories "/exp/Pong-Random/repeat-02" archive).
  - vm_compute. reflexivity.
  - repeat constructor.
Defined.

End listing_witnesses.

(** ** What [read] returns *)

Section reading_results.
Import Benchmark Spec.
Implicit Types (root : node) (w : world) (acc res : results * results).

Lemma load_all_length root (repeats : list string) ss ds :
  load_all root repeats = Return (ss, ds) →
  length ss = length repeats ∧ length ds = length repeats.
Proof.
  intros [Hss Hds]%load_all_Forall2.
  by rewrite <- (Forall2_length _ _ _ Hss), <- (Forall2_length _ _ _ Hds).
Qed.

Lemma read_all_alike root (benchmarks : list string) acc res :
  read_all root benchmarks acc = Return res →
  (∀ env k,
     match getitem acc.1 env k, getitem acc.2 env k with
     | Some ss, Some ds => length ss = length ds ∧ ∃ name, k = inr name
     | None, None => True
     | _, _ => False
     end) →
  ∀ env k,
    match getitem res.1 env k, getitem res.2 env k with
    | Some ss, Some ds => length ss = length ds ∧ ∃ name, k = inr name
    | None, None => True
    | _, _ => False
    end.
Proof.
  revert acc. induction benchmarks as [|b benchmarks IH]; intros acc; simpl.
  { by intros [= <-]. }
  destruct (read_one root b acc) as [acc'|e] eqn:Hone; [|done].
  intros Hrest Hacc. apply (IH acc' Hrest). clear IH Hrest.
  unfold read_one in Hone.
  destruct (key_of b) as [[env0 agent0]|]; [|done].
  destruct (subdirs root b) as [repeats|]; [|done].
  destruct (load_all root repeats) as [[ss ds]|] eqn:Hload; [|done].
  injection Hone as <-. simpl. intros env k. rewrite !getitem_setitem.
  case_decide as Hk; [|apply Hacc]. destruct Hk as [_ <-].
  apply load_all_length in Hload as [-> ->]. split; [done|by eexists].
Qed.

Lemma read_all_returns root (benchmarks : list string) acc res :
  read_all root benchmarks acc = Return res →
  ∀ b, b ∈ benchmarks →
    ∃ key repeats loaded,
      key_of b = Some key ∧ subdirs root b = Return repeats
      ∧ load_all root repeats = Return loaded.
Proof.
  revert acc. induction benchmarks as [|b0 benchmarks IH]; intros acc; simpl.
  { by intros _ b ?%elem_of_nil. }
  destruct (read_one root b0 acc) as [acc'|e] eqn:Hone; [|done].
  intros Hrest b [->|Hb]%elem_of_cons; [|by eapply IH].
  unfold read_one in Hone.
  destruct (key_of b0) as [key|]; [|done]. destruct key as [env0 agent0].
  destruct (subdirs root b0) as [repeats|]; [|done].
  destruct (load_all root repeats) as [loaded|] eqn:Hload; [|done].
  by exists (env0, agent0), repeats, loaded.
Qed.

(** X15: what [read] returns is filed under names only, never under an
    agent class; the scores and the durations have the same keys, and under
    each key as many repeats. *)
Theorem read_files_under_names (experiment : string) w sc du w' :
  read experiment w = (Return (sc, du), w') →
  ∀ env k,
    (is_Some (getitem sc env k) ↔ is_Some (getitem du env k))
    ∧ (is_Some (getitem sc env k) → ∃ name, k = inr name)
    ∧ ∀ ss ds, getitem sc env k = Some ss → getitem du env k = Some ds →
        length ss = length ds.
Proof.
  rewrite read_unfold. intros [= Hread _].
  destruct (subdirs (fs w) experiment) as [benchmarks|]; [|done].
  intros env k.
  pose proof (read_all_alike _ _ _ _ Hread) as Halike. simpl in Halike.
  specialize (Halike (λ _ _, I) env k).
  destruct (getitem sc env k) as [ss|], (getitem du env k) as [ds|];
    try done.
  destruct Halike as [Hlen Hname]. split; [done|]. split; [done|].
  by intros ? ? [= <-] [= <-].
Qed.

(** X16: [read] returns only when it can read all there is: the name of
    every directory of the experiment holds a dash, and every directory
    below these holds the two arrays, of scores and of durations. *)
Theorem read_returns_only_if (experiment : string) w sc du w' :
  read experiment w = (Return (sc, du), w') →
  ∃ benchmarks,
    _get_subdirs experiment w = (Return benchmarks, w)
    ∧ ∀ benchmark, benchmark ∈ benchmarks →
        occurs "-" (os.path.basename benchmark) = true
        ∧ ∃ repeats,
            _get_subdirs benchmark w = (Return repeats, w)
            ∧ ∀ repeat, repeat ∈ repeats →
                ∃ s d,
                  np_load (fs w) (os.path.join repeat "scores.npy") = Return s
                  ∧ np_load (fs w) (os.path.join repeat "durations.npy")
                    = Return d.
Proof.
  rewrite read_unfold. intros [= Hread _].
  destruct (subdirs (fs w) experiment) as [benchmarks|] eqn:Hsub; [|done].
  exists benchmarks. rewrite get_subdirs_unfold, Hsub. split; [done|].
  intros benchmark Hin.
  destruct (read_all_returns _ _ _ _ Hread benchmark Hin)
    as (key & repeats & [ss ds] & Hkey & Hrepeats & Hload).
  split.
  - unfold key_of in Hkey.
    destruct (occurs "-" (os.path.basename benchmark)) eqn:Hdash; [done|].
    by rewrite rpartition_None in Hkey.
  - exists repeats. rewrite get_subdirs_unfold, Hrepeats. split; [done|].
    apply load_all_Forall2 in Hload as [Hss Hds].
    intros repeat Hrepeat.
    destruct (proj1 (list_elem_of_lookup _ _) Hrepeat) as [i Hi].
    destruct (Forall2_lookup_l _ _ _ _ _ Hss Hi) as (s & _ & Hs).
    destruct (Forall2_lookup_l _ _ _ _ _ Hds Hi) as (d & _ & Hd).
    by exists s, d.
Qed.

End reading_results.

Section reading_results_witnesses.
Import Benchmark Spec Sample.

Lemma read_files_under_names_witness :
  ∃ sc du,
    read "/exp" archive = (Return (sc, du), archive)
    ∧ ∀ env k,
        (is_Some (getitem sc env k) ↔ is_Some (getitem du env k))
        ∧ (is_Some (getitem sc env k) → ∃ name, k = inr name)
        ∧ ∀ ss ds, getitem sc env k = Some ss → getitem du env k = Some ds →
            length ss = length ds.
Proof.
  assert (match read "/exp" archive with
          | (Return _, _) => True
          | (Raise _, _) => False
          end) as Hret by (vm_compute; exact I).
  pose proof (read_state "/exp" archive) as Hstate.
  destruct (read "/exp" archive) as [[[sc du]|e] w'] eqn:Hread; [|destruct Hret].
  simpl in Hstate. subst w'. exists sc, du. split; [reflexivity|].
  exact (read_files_under_names "/exp" archive sc du archive Hread).
Defined.

Lemma read_returns_only_if_witness :
  ∃ benchmarks,
    _get_subdirs "/exp" archive = (Return benchmarks, archive)
    ∧ ∀ benchmark, benchmark ∈ benchmarks →
        occurs "-" (os.path.basename benchmark) = true
        ∧ ∃ repeats,
            _get_subdirs benchmark archive = (Return repeats, archive)
            ∧ ∀ repeat, repeat ∈ repeats →
                ∃ s d,
                  np_load (fs archive) (os.path.join repeat "scores.npy")
                  = Return s
                  ∧ np_load (fs archive) (os.path.join repeat "durations.npy")
                    = Return d.
Proof.
  assert (match read "/exp" archive with
          | (Return _, _) => True
          | (Raise _, _) => False
          end) as Hret by (vm_compute; exact I).
  destruct (read "/exp" archive) as [[[sc du]|e] w'] eqn:Hread; [|destruct Hret].
  exact (read_returns_only_if "/exp" archive sc du w' Hread).
Defined.

End reading_results_witnesses.

(** ** The repeats of a pair: names, trainers and failures *)

Section repeats.
Import Benchmark Spec.
Local Arguments String.append : simpl nomatch.
Implicit Types (self : Benchmark) (directory : option string) (env : string)
  (a : agent) (w : world).

Lemma length_zeros (n : nat) : String.length (zeros n) = n.
Proof. induction n as [|n IH]; simpl; [done|]. by rewrite IH. Qed.

Lemma length_zero_pad (width : nat) (s : string) :
  String.length s ≤ width → String.length (zero_pad width s) = width.
Proof.
  intros Hs. unfold zero_pad. rewrite string_app_length, length_zeros. lia.
Qed.

Lemma length_pretty_mono (i j : Z) :
  (0 ≤ i ≤ j)%Z → String.length (pretty i) ≤ String.length (pretty j).
Proof.
  intros Hij. rewrite !pretty_Z_nonneg by lia.
  destruct (decide (Z.to_N j = 0%N)) as [Hj|Hj].
  { assert (Z.to_N i = 0%N) as -> by lia. by rewrite Hj. }
  rewrite (length_pretty_N (Z.to_N j)) by lia.
  destruct (decide (Z.to_N i = 0%N)) as [->|Hi].
  - rewrite digits_step by lia. simpl. lia.
  - rewrite length_pretty_N by lia. apply digits_mono. lia.
Qed.

(** X17: the names of the repeats of a run all have the same length, the
    seven characters of [repeat-] and as many as the number of the last
    repeat has digits; and two repeats of a pair get two different
    directories. *)
Theorem repeat_names_fixed_width (repeats i j : Z) (directory : string) :
  (0 ≤ i < repeats)%Z → (0 ≤ j < repeats)%Z →
  String.length (template_format repeats i)
  = 7 + String.length (pretty (repeats - 1)%Z)
  ∧ (directory ≠ EmptyString →
     subdirectory_of (Some directory) (template_format repeats i)
     = subdirectory_of (Some directory) (template_format repeats j) →
     i = j).
Proof.
  intros Hi Hj. split.
  - unfold template_format. rewrite string_app_length. simpl.
    by rewrite length_zero_pad by (apply length_pretty_mono; lia).
  - intros Hd. rewrite !subdirectory_of_Some by done. intros [= Heq].
    apply join_inj in Heq; [|by apply template_format_valid..].
    by apply template_format_inj in Heq.
Qed.

(** X18: when [_benchmark] returns it has made one trainer for each repeat,
    in the order of the repeats and nothing else: the trainer of repeat [i]
    is made for the environment of the pair, with the configuration of the
    benchmark, and with the directory of the repeat (none in a dry run);
    the [i]-th scores and durations returned are the ones it exposes. *)
Theorem benchmark_makes_trainers self directory env a w scs dus w' :
  _benchmark self directory env a w = (Return (scs, dus), w') →
  ∃ ts,
    heap w' = heap w ++ ts ∧ length ts = Z.to_nat (_repeats self)
    ∧ ∀ i t, ts !! i = Some t →
        trainer_directory t
        = subdirectory_of directory
            (template_format (_repeats self) (Z.of_nat i))
        ∧ trainer_env t = env
        ∧ trainer_kwargs t = _trainer_kwargs self
        ∧ scs !! i = Some (scores t) ∧ dus !! i = Some (durations t).
Proof.
  intros (Hheap & _ & _ & -> & ->)%benchmark_returns.
  exists (pair_trainers self directory env a (length (heap w))).
  split; [done|]. split.
  { unfold pair_trainers. by rewrite length_imap, length_seqZ. }
  intros i t Hi. rewrite !list_lookup_fmap, Hi. simpl.
  unfold pair_trainers in Hi. rewrite list_lookup_imap in Hi.
  destruct (seqZ 0 (_repeats self) !! i) as [repeat|] eqn:Hrepeat; [|done].
  apply lookup_seqZ in Hrepeat as [-> _]. injection Hi as <-.
  by rewrite Z.add_0_l.
Qed.

Lemma repeats_before_crash self directory env a (n : nat) (m : Z) acc w :
  truthy directory = false →
  (∀ k : nat, k < n →
     ¬ crashed (repeat_ended self directory env a (m + Z.of_nat k)
                  (length (heap w) + k))) →
  ∃ acc' w',
    for_each (seqZ m (Z.of_nat n)) (benchmark_repeat self directory env a) acc w
    = (Return acc', w')
    ∧ length (heap w') = length (heap w) + n ∧ fs w' = fs w.
Proof.
  intros Hdry. revert m acc w.
  induction n as [|n IH]; intros m [scs dus] w Hok.
  { simpl. eexists _, _. split; [done|]. split; [lia|done]. }
  rewrite seqZ_cons by lia. simpl. unfold bind.
  rewrite benchmark_repeat_unfold. cbv zeta.
  rewrite persist_dry.
  2:{ unfold repeat_trainer; simpl. by rewrite subdirectory_of_dry. }
  pose proof (Hok 0 ltac:(lia)) as Hfirst.
  rewrite Z.add_0_r, Nat.add_0_r in Hfirst.
  set (w1 := set_fs (fs w) (set_heap (heap w ++ [_]) w)).
  assert (length (heap w1) = S (length (heap w))) as Hlen.
  { subst w1. simpl. rewrite length_app. simpl. lia. }
  replace (Z.pred (Z.of_nat (S n))) with (Z.of_nat n) by lia.
  assert (∀ acc1,
    ∃ acc' w',
      for_each (seqZ (Z.succ m) (Z.of_nat n))
        (benchmark_repeat self directory env a) acc1 w1
      = (Return acc', w')
      ∧ length (heap w') = length (heap w) + S n ∧ fs w' = fs w) as Hrest.
  { intros acc1. destruct (IH (Z.succ m) acc1 w1) as (acc' & w' & Hrun & Hh & Hf).
    - intros k Hk. rewrite Hlen.
      replace (Z.succ m + Z.of_nat k)%Z with (m + Z.of_nat (S k))%Z by lia.
      replace (S (length (heap w)) + k) with (length (heap w) + S k) by lia.
      apply Hok. lia.
    - exists acc', w'. split; [done|]. split; [lia|done]. }
  destruct (repeat_ended self directory env a m (length (heap w)));
    [apply Hrest..|by destruct Hfirst].
Qed.

(** X19: what an agent raises, [StopTraining] apart, is not caught: in a
    dry run, when the training of repeat [i] is the first to fail,
    [_benchmark] raises what it raised; the trainers of the repeats up to
    [i] have been made, the repeats after it are not run, and the files are
    left as they were. *)
Theorem crash_ends_the_pair self directory env a w (i : nat) description :
  truthy directory = false →
  (Z.of_nat i < _repeats self)%Z →
  (∀ k : nat, k < i →
     ¬ crashed (repeat_ended self directory env a (Z.of_nat k)
                  (length (heap w) + k))) →
  repeat_ended self directory env a (Z.of_nat i) (length (heap w) + i)
  = Crashed description →
  ∃ w',
    _benchmark self directory env a w = (Raise (AgentError description), w')
    ∧ length (heap w') = length (heap w) + i + 1
    ∧ fs w' = fs w.
Proof.
  intros Hdry Hi Hok Hcrash. unfold _benchmark.
  replace (_repeats self) with (Z.of_nat i + (_repeats self - Z.of_nat i))%Z
    by lia.
  rewrite seqZ_app by lia. rewrite for_each_app.
  destruct (repeats_before_crash self directory env a i 0 ([], []) w Hdry)
    as ([scs dus] & w1 & -> & Hlen & Hfs).
  { intros k Hk. rewrite Z.add_0_l. by apply Hok. }
  rewrite Z.add_0_l, seqZ_cons by lia. simpl. unfold bind.
  rewrite benchmark_repeat_unfold. cbv zeta.
  rewrite persist_dry.
  2:{ unfold repeat_trainer; simpl. by rewrite subdirectory_of_dry. }
  rewrite Hlen, Hcrash. eexists. split; [done|]. simpl.
  rewrite length_app, Hlen. simpl. split; [lia|done].
Qed.

End repeats.

Section repeats_witnesses.
Import Benchmark Spec Sample.

Lemma repeat_names_fixed_width_witness :
  String.length (template_format 11 2)
  = 7 + String.length (pretty (11 - 1)%Z).
Proof.
  apply (repeat_names_fixed_width 11 2 10 "/exp/Pong-Random"); lia.
Defined.

Lemma benchmark_makes_trainers_witness :
  ∃ scs dus w' ts,
    _benchmark (dry 2) None "Pong" DQN blank = (Return (scs, dus), w')
    ∧ heap w' = heap blank ++ ts ∧ length ts = Z.to_nat 2
    ∧ ∀ i t, ts !! i = Some t →
        trainer_directory t
        = subdirectory_of None (template_format 2 (Z.of_nat i))
        ∧ trainer_env t = "Pong"
        ∧ trainer_kwargs t = [("timesteps", PyInt 1000)]
        ∧ scs !! i = Some (scores t) ∧ dus !! i = Some (durations t).
Proof.
  assert (match _benchmark (dry 2) None "Pong" DQN blank with
          | (Return _, _) => True
          | (Raise _, _) => False
          end) as Hret by (vm_compute; exact I).
  destruct (_benchmark (dry 2) None "Pong" DQN blank)
    as [[[scs dus]|e] w'] eqn:Hrun; [|destruct Hret].
  destruct (benchmark_makes_trainers (dry 2) None "Pong" DQN blank scs dus w'
              Hrun) as (ts & Hts).
  exists scs, dus, w', ts. split; [reflexivity|exact Hts].
Defined.

Lemma crash_ends_the_pair_witness :
  ∃ w',
    _benchmark (dry 3) None "Pong" Flaky blank
    = (Raise (AgentError "diverged"), w')
    ∧ length (heap w') = length (heap blank) + 1 + 1
    ∧ fs w' = fs blank.
Proof.
  apply (crash_ends_the_pair (dry 3) None "Pong" Flaky blank 1 "diverged").
  - reflexivity.
  - simpl. lia.
  - intros k Hk. assert (k = 0) as -> by lia. exact (λ H : False, H).
  - reflexivity.
Defined.

End repeats_witnesses.

(** ** Runs *)

Section runs.
Import Benchmark Spec.
Context `{!Arithmetic}.
Local Arguments String.append : simpl nomatch.
Implicit Types (self : Benchmark) (w : world) (name : string)
  (envs : list string) (agents : list agent).

Lemma experiment_of_nonempty self name w (experiment : string) :
  experiment_of self name w = Some experiment → experiment ≠ EmptyString.
Proof.
  unfold experiment_of, if_set. destruct (_directory self) as [d|]; [|done].
  case_bool_decide; [done|]. intros [= <-]. apply join_nonempty, dash_nonempty.
Qed.

(** A run: the pairs, then what is read back when the run is not dry. *)
Lemma call_unfold self name envs agents w :
  __call__ self name envs agents w =
  match train_all self (experiment_of self name w) envs agents
          (started self name w) with
  | (Raise e, w1) => (Raise e, w1)
  | (Return (sc, du), w1) =>
      match experiment_of self name w with
      | None => (Return (None, sc, du), w1)
      | Some experiment =>
          match subdirs (fs w1) experiment with
          | Raise e => (Raise e, w1)
          | Return benchmarks =>
              match read_all (fs w1) benchmarks (∅, ∅) with
              | Raise e => (Raise e, w1)
              | Return (sc', du') => (Return (Some experiment, sc', du'), w1)
              end
          end
      end
  end.
Proof.
  unfold __call__, bind. rewrite start_experiment_unfold.
  destruct (train_all _ _ _ _ _) as [[[sc du]|e] w1]; [|done].
  destruct (experiment_of self name w) as [experiment|] eqn:Hexp; [|done].
  unfold if_set.
  rewrite bool_decide_false by by eapply experiment_of_nonempty.
  unfold bind. rewrite read_unfold.
  destruct (subdirs (fs w1) experiment) as [benchmarks|e]; [|done].
  by destruct (read_all (fs w1) benchmarks (∅, ∅)) as [[sc' du']|e].
Qed.

Lemma report_snoc (pairs : list (string * agent)) (means : list string)
    pair mean :
  length pairs = length means →
  report (pairs ++ [pair]) (means ++ [mean])
  = report pairs means
    ++ [Benchmark_on (__name__ pair.2) pair.1; Mean_best_score mean].
Proof.
  intros Hlen. unfold report. rewrite zip_with_app by done.
  rewrite concat_app. simpl. done.
Qed.

(** The trainers that the pairs of a run make and the lines they print. *)
Lemma train_all_trace self experiment envs agents w sc du w' :
  train_all self experiment envs agents w = (Return (sc, du), w') →
  length (heap w')
  = length (heap w)
    + length (list_prod envs agents) * Z.to_nat (_repeats self)
  ∧ ∃ means,
      length means = length (list_prod envs agents)
      ∧ stdout w' = stdout w ++ report (list_prod envs agents) means.
Proof.
  unfold train_all. intros Hrun.
  apply (for_each_returns
    (λ seen acc w1,
       length (heap w1)
       = length (heap w) + length seen * Z.to_nat (_repeats self)
       ∧ ∃ means,
           length means = length seen
           ∧ stdout w1 = stdout w ++ report seen means)
    _ _ _ _ _ _) in Hrun; [done| |].
  - simpl. split; [lia|]. exists []. split; [done|]. by rewrite app_nil_r.
  - clear. intros seen [env a] [sc du] w1 [sc' du'] w2
      (Hheap & means & Hlen & Hout).
    rewrite benchmark_pair_unfold. cbv zeta.
    destruct (_benchmark _ _ _ _ _) as [[[score duration]|e] w1'] eqn:Hpair;
      [|done].
    apply benchmark_returns in Hpair as (Hheap' & Hout' & _ & _ & _).
    simpl in Hheap', Hout'.
    destruct (mean_best score) as [mean|e]; [|done].
    intros [= <- <- <-]. simpl. split.
    + rewrite Hheap', !length_app, Hheap. unfold pair_trainers.
      rewrite length_imap, length_seqZ. simpl. lia.
    + exists (means ++ [str mean]). split; [rewrite !length_app; simpl; lia|].
      rewrite Hout', Hout, report_snoc by done.
      by rewrite <- !(assoc_L (++)).
Qed.

(** X20: a run that returns has printed the line of its start, then, for
    each pair in the order of [itertools.product] (the agents run through
    for each environment in turn), the line of the pair followed by the
    summary of its scores; and nothing else. *)
Theorem run_prints_its_pairs self name envs agents w experiment sc du w' :
  __call__ self name envs agents w = (Return (experiment, sc, du), w') →
  ∃ means,
    length means = length (list_prod envs agents)
    ∧ stdout w'
      = stdout w
        ++ [match experiment with
            | Some path => Start_experiment path
            | None => Start_experiment_dry_run
            end]
        ++ report (list_prod envs agents) means.
Proof.
  rewrite call_unfold.
  destruct (train_all _ _ _ _ _) as [[[sc1 du1]|e] w1] eqn:Hrun; [|done].
  apply train_all_trace in Hrun as (_ & means & Hlen & Hout).
  intros Hread. exists means. split; [done|].
  assert (w' = w1 ∧ experiment = experiment_of self name w) as [-> ->].
  { destruct (experiment_of self name w) as [path|]; [|by injection Hread].
    destruct (subdirs (fs w1) path) as [benchmarks|]; [|done].
    destruct (read_all (fs w1) benchmarks (∅, ∅)) as [[sc' du']|]; [|done].
    by injection Hread. }
  rewrite Hout. simpl. by rewrite <- !(assoc_L (++)).
Qed.

(** X21: a run that returns has made one trainer for each repeat of each
    pair: as many as environments times agents times repeats. *)
Theorem run_makes_all_trainers self name envs agents w v w' :
  __call__ self name envs agents w = (Return v, w') →
  length (heap w')
  = length (heap w)
    + length envs * length agents * Z.to_nat (_repeats self).
Proof.
  rewrite call_unfold.
  destruct (train_all _ _ _ _ _) as [[[sc1 du1]|e] w1] eqn:Hrun; [|done].
  apply train_all_trace in Hrun as (Hheap & _).
  rewrite length_prod in Hheap. simpl in Hheap. intros Hread.
  assert (w' = w1) as ->; [|done].
  destruct (experiment_of self name w) as [path|]; [|by injection Hread].
  destruct (subdirs (fs w1) path) as [benchmarks|]; [|done].
  destruct (read_all (fs w1) benchmarks (∅, ∅)) as [[sc' du']|]; [|done].
  by injection Hread.
Qed.

(** X22: nothing makes the directory of the experiment but the trainers.
    So a run over no pair, with a root directory, fails when it reads the
    experiment back, unless something is at its path before the run: it
    raises [FileNotFoundError] when the path names nothing, and
    [NotADirectoryError] when the path goes through a file, as it does when
    the root directory is a file.  A dry run over no pair returns empty
    results. *)
Theorem run_without_pairs self name envs agents w :
  list_prod envs agents = [] →
  (∀ w0, _start_experiment self name w = (Return None, w0) →
     __call__ self name envs agents w = (Return (None, ∅, ∅), w0))
  ∧ (∀ (experiment : string) w0,
       _start_experiment self name w = (Return (Some experiment), w0) →
       (locate (fs w) experiment = inl ENOENT →
        __call__ self name envs agents w
        = (Raise (FileNotFoundError experiment), w0))
       ∧ (locate (fs w) experiment = inl ENOTDIR →
          __call__ self name envs agents w
          = (Raise (NotADirectoryError experiment), w0))).
Proof.
  intros Hnone. rewrite call_unfold, start_experiment_unfold.
  unfold train_all. rewrite Hnone. simpl. split.
  - by intros w0 [= -> <-].
  - intros experiment w0 [= -> <-]. unfold subdirs, os.listdir. simpl.
    split; by intros ->.
Qed.

(** The pairs of a run return only below a plain path. *)
Lemma train_all_plain self (experiment : string) envs agents w sc du w' :
  experiment ≠ EmptyString → well_named envs agents →
  envs ≠ [] → agents ≠ [] →
  train_all self (Some experiment) envs agents w = (Return (sc, du), w') →
  plain experiment = true.
Proof.
  intros Hexp (Henvs & Hagents & _) Hne1 Hne2.
  destruct envs as [|env0 envs]; [done|].
  destruct agents as [|a0 agents]; [done|].
  apply Forall_cons in Henvs as [Henv0 _].
  apply Forall_cons in Hagents as [[Hslash0 _] _].
  pose proof (pair_name_valid env0 a0 Henv0 Hslash0) as Hpn.
  unfold train_all. simpl. unfold bind at 1.
  rewrite benchmark_pair_unfold. cbv zeta.
  rewrite subdirectory_of_Some by done. fold (pair_name env0 a0).
  destruct (_benchmark _ _ _ _ _) as [[[score duration]|e] w1] eqn:Hpair;
    [|done].
  destruct (mean_best score) as [m|e] eqn:Hmean; [|done].
  intros _. apply mean_best_Return in Hmean as [Hscore _].
  pose proof Hpair as (_ & _ & _ & Hs & _)%benchmark_returns.
  assert (1 ≤ _repeats self)%Z as HR.
  { destruct (decide (1 ≤ _repeats self)%Z); [done|]. destruct Hscore.
    rewrite Hs. unfold pair_trainers. by rewrite seqZ_nil by lia. }
  unfold _benchmark in Hpair. rewrite seqZ_cons in Hpair by lia.
  simpl in Hpair. unfold bind in Hpair.
  rewrite benchmark_repeat_unfold in Hpair. cbv zeta in Hpair.
  destruct (persist _ _) as [root|e] eqn:Hpersist; [|done].
  pose proof (template_format_valid (_repeats self) 0 ltac:(lia)) as Hr.
  eapply (persist_plain _
            (os.path.join (os.path.join experiment (pair_name env0 a0))
               (template_format (_repeats self) 0))) in Hpersist.
  - apply plain_join in Hpersist; [|apply Hr].
    apply plain_join in Hpersist; [done|apply Hpn].
  - unfold repeat_trainer; simpl.
    apply subdirectory_of_Some, join_nonempty, Hpn.
  - apply join_nonempty, Hr.
Qed.

Lemma call_read self name envs agents w (experiment : string)
    sc du w1 sc' du' :
  experiment_of self name w = Some experiment →
  train_all self (Some experiment) envs agents (started self name w)
    = (Return (sc, du), w1) →
  read experiment w1 = (Return (sc', du'), w1) →
  __call__ self name envs agents w = (Return (Some experiment, sc', du'), w1).
Proof.
  intros Hexp Hrun. rewrite call_unfold, Hexp, Hrun, read_unfold.
  destruct (subdirs (fs w1) experiment) as [benchmarks|]; [|done].
  destruct (read_all (fs w1) benchmarks (∅, ∅)) as [[sc2 du2]|]; [|done].
  by intros [= <- <-].
Qed.

Lemma read_keys_are_names (experiment : string) w sc du w' env k :
  read experiment w = (Return (sc, du), w') →
  is_Some (getitem sc env k) → ∃ agent_name : string, k = inr agent_name.
Proof.
  rewrite read_unfold. intros [= Hread _].
  destruct (subdirs (fs w) experiment) as [benchmarks|]; [|done].
  pose proof (read_all_alike _ _ _ _ Hread (λ _ _, I) env k) as Halike.
  simpl in Halike. intros [ss Hss]. rewrite Hss in Halike.
  destruct (getitem du env k); [by destruct Halike|done].
Qed.

(** What a run reads back, pair by pair, and the keys on both sides. *)
Lemma run_read_back
    self name envs agents w (experiment : string) sc du w1 :
  experiment_of self name w = Some experiment →
  resolve (fs w) experiment = None →
  well_named envs agents →
  envs ≠ [] → agents ≠ [] →
  train_all self (Some experiment) envs agents (started self name w)
    = (Return (sc, du), w1) →
  ∃ sc' du',
    __call__ self name envs agents w = (Return (Some experiment, sc', du'), w1)
    ∧ read experiment w1 = (Return (sc', du'), w1)
    ∧ (∀ env a, env ∈ envs → a ∈ agents →
         ∃ scs dus,
           getitem sc env (inl (agent_id a)) = Some scs
           ∧ getitem du env (inl (agent_id a)) = Some dus
           ∧ getitem sc' env (inr (__name__ a)) = Some scs
           ∧ getitem du' env (inr (__name__ a)) = Some dus)
    ∧ (∀ env k,
         is_Some (getitem sc' env k) ∨ is_Some (getitem du' env k) →
         ∃ a, env ∈ envs ∧ a ∈ agents ∧ k = inr (__name__ a))
    ∧ (∀ env k,
         is_Some (getitem sc env k) ∨ is_Some (getitem du env k) →
         ∃ a, env ∈ envs ∧ a ∈ agents ∧ k = inl (agent_id a)).
Proof.
  intros Hexp Hfresh Hnamed Henvs Hagents Hrun.
  pose proof (experiment_of_nonempty _ _ _ _ Hexp) as Hne.
  pose proof (train_all_plain _ _ _ _ _ _ _ _ Hne Hnamed Henvs Hagents Hrun)
    as Hplain.
  destruct (train_all_image self experiment envs agents (started self name w)
              sc du w1 Hne Hnamed)
    as (D & Himage & Hdisk & Hall); [|done|].
  { simpl. by apply resolve_None_plain. }
  pose proof (train_all_returns _ _ _ _ _ _ _ _ Hrun) as (_ & _ & _ & Hheld).
  destruct Hnamed as (Hslash & Hnames & Hids).
  assert (∀ env a, env ∈ envs → a ∈ agents →
            occurs "/" env = false ∧ occurs "/" (__name__ a) = false
            ∧ occurs "-" (__name__ a) = false) as Hok.
  { intros env a Henv Ha. eapply Forall_forall in Hslash, Hnames; [|done..].
    by destruct Hnames. }
  assert (resolve (fs w1) experiment = Some (Dir (pair_node <$> D))) as Hdir.
  { destruct envs as [|env0 envs']; [done|].
    destruct agents as [|a0 agents']; [done|].
    destruct (Hall env0 a0) as [reps Hreps].
    { apply elem_of_list_prod_iff. split; left. }
    assert (entries_of (walk (components experiment) (Some (fs w1)))
              !! pair_name env0 a0 = Some (pair_node reps)) as Hentry.
    { by rewrite Himage, lookup_fmap, Hreps. }
    apply resolve_Some, locate_plain; [done..|].
    destruct (walk (components experiment) (Some (fs w1))) as [[f|entries]|];
      simpl in *; [done| |done].
    by rewrite Himage. }
  destruct (read_image (fs w1) experiment D (_repeats self) Hdir)
    as (benchmarks & [sc' du'] & Hsub & Hread & Hfiled & Honly).
  { intros n reps Hn.
    destruct (Hdisk n reps Hn)
      as (env & a & scs & dus & Hin & -> & _ & _ & -> & Hls & Hld).
    apply elem_of_list_prod_iff in Hin as [Henv Ha].
    destruct (Hok env a Henv Ha) as (H1 & H2 & H3).
    split; [by apply pair_name_valid|].
    split; [rewrite rpartition_pair_name by done; by eexists|].
    by exists scs, dus. }
  simpl in Hfiled, Honly.
  exists sc', du'. split; [|split].
  { by rewrite call_unfold, Hexp, Hrun, Hsub, Hread. }
  { by rewrite read_unfold, Hsub, Hread. }
  assert (∀ env a, env ∈ envs → a ∈ agents →
            ∃ scs dus,
              getitem sc env (inl (agent_id a)) = Some scs
              ∧ getitem du env (inl (agent_id a)) = Some dus
              ∧ getitem sc' env (inr (__name__ a)) = Some scs
              ∧ getitem du' env (inr (__name__ a)) = Some dus) as Hboth.
  { intros env a Henv Ha.
    destruct (Hall env a) as [reps Hreps].
    { by apply elem_of_list_prod_iff. }
    destruct (Hdisk _ _ Hreps)
      as (env' & a' & scs & dus & Hin & Hn & Hsc & Hdu & -> & Hls & Hld).
    apply elem_of_list_prod_iff in Hin as [Henv' Ha'].
    destruct (Hok env a Henv Ha) as (_ & _ & Hdash).
    destruct (Hok env' a' Henv' Ha') as (_ & _ & Hdash').
    apply pair_name_inj in Hn as [<- Hname]; [|done..].
    apply (Hids a a' Ha Ha') in Hname. rewrite <- Hname in Hsc, Hdu.
    exists scs, dus. split; [done|]. split; [done|].
    apply (Hfiled (pair_name env a)); [done..|].
    by apply rpartition_pair_name. }
  assert (∀ env k,
            is_Some (getitem sc' env k) ∨ is_Some (getitem du' env k) →
            ∃ a, env ∈ envs ∧ a ∈ agents ∧ k = inr (__name__ a)) as Hread_keys.
  { intros env k (n & name' & -> & [reps Hreps] & Hsplit)%Honly.
    destruct (Hdisk _ _ Hreps) as (env' & a' & _ & _ & Hin & -> & _).
    apply elem_of_list_prod_iff in Hin as [Henv' Ha'].
    destruct (Hok env' a' Henv' Ha') as (_ & _ & Hdash').
    rewrite rpartition_pair_name in Hsplit by done.
    injection Hsplit as <- <-. by exists a'. }
  assert (∀ env k,
            is_Some (getitem sc env k) ∨ is_Some (getitem du env k) →
            ∃ a, env ∈ envs ∧ a ∈ agents ∧ k = inl (agent_id a)) as Hmem_keys.
  { intros env k (a & h & Hin & -> & _)%Hheld.
    apply elem_of_list_prod_iff in Hin as [Henv Ha]. by exists a. }
  exact (conj Hboth (conj Hread_keys Hmem_keys)).
Qed.

(** X23: a run with a root directory reads back what it holds in memory,
    under the names of the agents where the memory has the agents
    themselves: when the directory of the experiment is new, the names of
    the environments and of the agents hold no slash, the names of the
    agents hold no dash and tell the agents apart, and the pairs of the run
    have returned (with the trainers writing their two arrays, as
    modelled), the run returns what [read] returns for the experiment, and
    that is, for each environment and each agent, the scores and the
    durations of the repeats of the pair, in the order of the repeats. *)
Theorem run_reads_back_what_it_holds
    self name envs agents w (experiment : string) sc du w1 :
  experiment_of self name w = Some experiment →
  resolve (fs w) experiment = None →
  well_named envs agents →
  envs ≠ [] → agents ≠ [] →
  train_all self (Some experiment) envs agents (started self name w)
    = (Return (sc, du), w1) →
  ∃ sc' du',
    __call__ self name envs agents w = (Return (Some experiment, sc', du'), w1)
    ∧ read experiment w1 = (Return (sc', du'), w1)
    ∧ renamed agents sc sc' ∧ renamed agents du du'.
Proof.
  intros Hexp Hfresh Hnamed Henvs Hagents Hrun.
  destruct (run_read_back _ _ _ _ _ _ _ _ _ Hexp Hfresh Hnamed Henvs Hagents
              Hrun)
    as (sc' & du' & Hcall & Hread & Hboth & Hread_keys & Hmem_keys).
  destruct Hnamed as (_ & _ & Hids).
  exists sc', du'. split; [done|]. split; [done|].
  split; apply (renamed_intro envs agents); try done.
  - intros env a Henv Ha.
    destruct (Hboth env a Henv Ha) as (scs & dus & H1 & _ & H3 & _).
    by exists scs.
  - intros env k Hk. apply Hread_keys. by left.
  - intros env k Hk. apply Hmem_keys. by left.
  - intros env a Henv Ha.
    destruct (Hboth env a Henv Ha) as (scs & dus & _ & H2 & _ & H4).
    by exists dus.
  - intros env k Hk. apply Hread_keys. by right.
  - intros env k Hk. apply Hmem_keys. by right.
Qed.

(** C1: what [read] returns for the experiment of a run is not what the
    run holds in memory: the memory files the results of a pair under the
    class of the agent, [read] under the name of the agent, which it takes
    from the name of a directory.  Up to that, they are the same: when the
    directory of the experiment is new, the names of the environments and
    of the agents hold no slash, the names of the agents hold no dash and
    tell the agents apart, and the pairs of the run have returned (with the
    trainers writing their two arrays, as modelled), [read] holds for each
    environment and each agent, under the name of the agent, the scores and
    the durations that the memory holds under the agent: the same repeats,
    in the same order; and neither holds anything else. *)
Theorem read_returns_memory_by_name
    self name envs agents w (experiment : string) sc du w1 :
  experiment_of self name w = Some experiment →
  resolve (fs w) experiment = None →
  well_named envs agents →
  envs ≠ [] → agents ≠ [] →
  train_all self (Some experiment) envs agents (started self name w)
    = (Return (sc, du), w1) →
  ∃ sc' du',
    __call__ self name envs agents w = (Return (Some experiment, sc', du'), w1)
    ∧ read experiment w1 = (Return (sc', du'), w1)
    ∧ (∀ env a, env ∈ envs → a ∈ agents →
         ∃ scs dus,
           getitem sc env (inl (agent_id a)) = Some scs
           ∧ getitem sc' env (inr (__name__ a)) = Some scs
           ∧ getitem du env (inl (agent_id a)) = Some dus
           ∧ getitem du' env (inr (__name__ a)) = Some dus)
    ∧ (∀ env k,
         is_Some (getitem sc' env k) ∨ is_Some (getitem du' env k) →
         ∃ a, env ∈ envs ∧ a ∈ agents ∧ k = inr (__name__ a))
    ∧ (∀ env k,
         is_Some (getitem sc env k) ∨ is_Some (getitem du env k) →
         ∃ a, env ∈ envs ∧ a ∈ agents ∧ k = inl (agent_id a))
    ∧ sc ≠ sc' ∧ du ≠ du'.
Proof.
  intros Hexp Hfresh Hnamed Henvs Hagents Hrun.
  destruct (run_read_back _ _ _ _ _ _ _ _ _ Hexp Hfresh Hnamed Henvs Hagents
              Hrun)
    as (sc' & du' & Hcall & Hread & Hboth & Hread_keys & Hmem_keys).
  exists sc', du'. split; [done|]. split; [done|]. split.
  { intros env a Henv Ha.
    destruct (Hboth env a Henv Ha) as (scs & dus & H1 & H2 & H3 & H4).
    by exists scs, dus. }
  split; [done|]. split; [done|].
  destruct envs as [|env0 envs']; [done|].
  destruct agents as [|a0 agents']; [done|].
  destruct (Hboth env0 a0) as (scs & dus & H1 & H2 & _ & _); [by left..|].
  split; intros Heq.
  - destruct (Hread_keys env0 (inl (agent_id a0))) as (a & _ & _ & [=]).
    left. rewrite <- Heq, H1. by eexists.
  - destruct (Hread_keys env0 (inl (agent_id a0))) as (a & _ & _ & [=]).
    right. rewrite <- Heq, H2. by eexists.
Qed.

End runs.

(** ** [StopTraining] *)

Section stop_training.
Import Benchmark Spec.
Context `{!Arithmetic}.
Implicit Types (self : Benchmark) (w : world).


End stop_training.

Section stop_training_witnesses.
Import Benchmark Spec Sample.



End stop_training_witnesses.

Section runs_witnesses.
Import Benchmark Spec Sample.

Lemma run_prints_its_pairs_witness :
  ∃ experiment sc du w' means,
    __call__ (dry 2) "demo" ["Pong"] [Random; DQN] blank
    = (Return (experiment, sc, du), w')
    ∧ length means = length (list_prod ["Pong"] [Random; DQN])
    ∧ stdout w'
      = stdout blank
        ++ [match experiment with
            | Some path => Start_experiment path
            | None => Start_experiment_dry_run
            end]
        ++ report (list_prod ["Pong"] [Random; DQN]) means.
Proof.
  assert (match __call__ (dry 2) "demo" ["Pong"] [Random; DQN] blank with
          | (Return _, _) => True
          | (Raise _, _) => False
          end) as Hret by (vm_compute; exact I).
  destruct (__call__ (dry 2) "demo" ["Pong"] [Random; DQN] blank)
    as [[[[experiment sc] du]|e] w'] eqn:Hrun; [|destruct Hret].
  destruct (run_prints_its_pairs (dry 2) "demo" ["Pong"] [Random; DQN] blank
              experiment sc du w' Hrun) as (means & Hmeans).
  exists experiment, sc, du, w', means. split; [reflexivity|exact Hmeans].
Defined.

Lemma run_makes_all_trainers_witness :
  ∃ v w',
    __call__ (dry 2) "demo" ["Pong"] [Random; DQN] blank = (Return v, w')
    ∧ length (heap w')
      = length (heap blank)
        + length ["Pong"] * length [Random; DQN] * Z.to_nat 2.
Proof.
  assert (match __call__ (dry 2) "demo" ["Pong"] [Random; DQN] blank with
          | (Return _, _) => True
          | (Raise _, _) => False
          end) as Hret by (vm_compute; exact I).
  destruct (__call__ (dry 2) "demo" ["Pong"] [Random; DQN] blank)
    as [[v|e] w'] eqn:Hrun; [|destruct Hret].
  exists v, w'. split; [reflexivity|].
  exact (run_makes_all_trainers (dry 2) "demo" ["Pong"] [Random; DQN] blank
           v w' Hrun).
Defined.

Lemma run_without_pairs_witness :
  __call__ (saved 2) "demo" [] [Random; DQN] blank
  = (Raise (FileNotFoundError
              "/home/user/experiments/2017-01-01T00-00-00-demo"),
     set_stdout
       [Start_experiment "/home/user/experiments/2017-01-01T00-00-00-demo"]
       blank)
  ∧ __call__ {| _directory := Some "/exp/Pong-Random/notes.txt";
                _repeats := 2;
                _trainer_kwargs := [] |} "demo" [] [Random; DQN] archive
    = (Raise (NotADirectoryError
                "/exp/Pong-Random/notes.txt/2017-01-02T00-00-00-demo"),
       set_stdout
         [Start_experiment
            "/exp/Pong-Random/notes.txt/2017-01-02T00-00-00-demo"]
         archive).
Proof.
  split.
  - apply (proj2 (run_without_pairs (saved 2) "demo" [] [Random; DQN] blank
                    eq_refl)).
    + reflexivity.
    + reflexivity.
  - apply (proj2 (run_without_pairs _ "demo" [] [Random; DQN] archive
                    eq_refl)).
    + reflexivity.
    + vm_compute. reflexivity.
Defined.

Lemma run_reads_back_what_it_holds_witness :
  let experiment := "/home/user/experiments/2017-01-01T00-00-00-demo" in
  ∃ sc du sc' du' w1,
    train_all (saved 2) (Some experiment) ["Pong"] [Random; DQN]
      (started (saved 2) "demo" blank)
    = (Return (sc, du), w1)
    ∧ __call__ (saved 2) "demo" ["Pong"] [Random; DQN] blank
      = (Return (Some experiment, sc', du'), w1)
    ∧ read experiment w1 = (Return (sc', du'), w1)
    ∧ renamed [Random; DQN] sc sc' ∧ renamed [Random; DQN] du du'.
Proof.
  intros experiment.
  assert (match train_all (saved 2) (Some experiment) ["Pong"] [Random; DQN]
                  (started (saved 2) "demo" blank) with
          | (Return _, _) => True
          | (Raise _, _) => False
          end) as Hret by (vm_compute; exact I).
  destruct (train_all (saved 2) (Some experiment) ["Pong"] [Random; DQN]
              (started (saved 2) "demo" blank))
    as [[[sc du]|e] w1] eqn:Hrun; [|destruct Hret].
  assert (well_named ["Pong"] [Random; DQN]) as Hnamed.
  { split; [|split].
    - repeat constructor.
    - repeat constructor.
    - intros a b Ha%list_elem_of_In Hb%list_elem_of_In. simpl in Ha, Hb.
      destruct Ha as [<-|[<-|[]]], Hb as [<-|[<-|[]]];
        split; (reflexivity || discriminate). }
  destruct (run_reads_back_what_it_holds (saved 2) "demo" ["Pong"]
              [Random; DQN] blank experiment sc du w1)
    as (sc' & du' & Hcall & Hread & Hsc & Hdu).
  - reflexivity.
  - reflexivity.
  - exact Hnamed.
  - discriminate.
  - discriminate.
  - exact Hrun.
  - exists sc, du, sc', du', w1. split; [reflexivity|].
    split; [exact Hcall|]. split; [exact Hread|]. split; [exact Hsc|exact Hdu].
Defined.

Lemma read_returns_memory_by_name_witness :
  let experiment := "/home/user/experiments/2017-01-01T00-00-00-demo" in
  ∃ sc du sc' du' w1,
    train_all (saved 2) (Some experiment) ["Pong"] [Random; DQN]
      (started (saved 2) "demo" blank)
    = (Return (sc, du), w1)
    ∧ read experiment w1 = (Return (sc', du'), w1)
    ∧ (∀ env a, env ∈ ["Pong"] → a ∈ [Random; DQN] →
         ∃ scs dus,
           getitem sc env (inl (agent_id a)) = Some scs
           ∧ getitem sc' env (inr (__name__ a)) = Some scs
           ∧ getitem du env (inl (agent_id a)) = Some dus
           ∧ getitem du' env (inr (__name__ a)) = Some dus)
    ∧ sc ≠ sc' ∧ du ≠ du'.
Proof.
  intros experiment.
  assert (match train_all (saved 2) (Some experiment) ["Pong"] [Random; DQN]
                  (started (saved 2) "demo" blank) with
          | (Return _, _) => True
          | (Raise _, _) => False
          end) as Hret by (vm_compute; exact I).
  destruct (train_all (saved 2) (Some experiment) ["Pong"] [Random; DQN]
              (started (saved 2) "demo" blank))
    as [[[sc du]|e] w1] eqn:Hrun; [|destruct Hret].
  assert (well_named ["Pong"] [Random; DQN]) as Hnamed.
  { split; [|split].
    - repeat constructor.
    - repeat constructor.
    - intros a b Ha%list_elem_of_In Hb%list_elem_of_In. simpl in Ha, Hb.
      destruct Ha as [<-|[<-|[]]], Hb as [<-|[<-|[]]];
        split; (reflexivity || discriminate). }
  destruct (read_returns_memory_by_name (saved 2) "demo" ["Pong"]
              [Random; DQN] blank experiment sc du w1)
    as (sc' & du' & _ & Hread & Hsame & _ & _ & Hsc & Hdu).
  - reflexivity.
  - reflexivity.
  - exact Hnamed.
  - discriminate.
  - discriminate.
  - exact Hrun.
  - exists sc, du, sc', du', w1. split; [reflexivity|].
    split; [exact Hread|]. split; [exact Hsame|]. split; [exact Hsc|exact Hdu].
Defined.

(** The results of a run in memory and the results that [read] returns
    for it differ: the ones have an entry under the class of the agent,
    where the others have none. *)
Lemma read_keys_are_not_memory_keys :
  let experiment := "/home/user/experiments/2017-01-01T00-00-00-demo" in
  ∃ sc du sc' du' w1,
    train_all (saved 1) (Some experiment) ["Pong"] [DQN]
      (started (saved 1) "demo" blank)
    = (Return (sc, du), w1)
    ∧ __call__ (saved 1) "demo" ["Pong"] [DQN] blank
      = (Return (Some experiment, sc', du'), w1)
    ∧ read experiment w1 = (Return (sc', du'), w1)
    ∧ is_Some (getitem sc "Pong" (inl (agent_id DQN)))
    ∧ getitem sc' "Pong" (inl (agent_id DQN)) = None
    ∧ sc ≠ sc'.
Proof.
  intros experiment.
  assert (match train_all (saved 1) (Some experiment) ["Pong"] [DQN]
                  (started (saved 1) "demo" blank) with
          | (Return _, w1) =>
              match read experiment w1 with
              | (Return _, _) => True
              | (Raise _, _) => False
              end
          | (Raise _, _) => False
          end) as Hret by (vm_compute; exact I).
  destruct (train_all (saved 1) (Some experiment) ["Pong"] [DQN]
              (started (saved 1) "demo" blank))
    as [[[sc du]|e] w1] eqn:Hrun; [|destruct Hret].
  pose proof (read_state experiment w1) as Hstate.
  destruct (read experiment w1) as [[[sc' du']|e] w2] eqn:Hread;
    [|destruct Hret].
  simpl in Hstate. subst w2.
  assert (is_Some (getitem sc "Pong" (inl (agent_id DQN)))) as Hmem.
  { apply train_all_returns in Hrun as (_ & _ & Hin & _). apply Hin. left. }
  assert (getitem sc' "Pong" (inl (agent_id DQN)) = None) as Hnone.
  { destruct (getitem sc' "Pong" (inl (agent_id DQN))) as [ss|] eqn:Hss;
      [|reflexivity].
    destruct (read_keys_are_names experiment w1 sc' du' w1 "Pong"
                (inl (agent_id DQN)) Hread) as [agent_name Hname].
    - rewrite Hss. by eexists.
    - discriminate Hname. }
  exists sc, du, sc', du', w1. split; [reflexivity|].
  split; [exact (call_read (saved 1) "demo" ["Pong"] [DQN] blank experiment
                   sc du w1 sc' du' eq_refl Hrun Hread)|].
  split; [exact Hread|]. split; [exact Hmem|]. split; [exact Hnone|].
  intros Heq. rewrite <- Heq in Hnone. rewrite Hnone in Hmem.
  by destruct Hmem.
Defined.

End runs_witnesses.

Section returned.
Import Benchmark Spec.
Context `{!Arithmetic}.
Implicit Types (self : Benchmark) (w : world).

(** X24: with a root directory, a run returns what [read] returns for the
    experiment once the pairs are through, not what it holds in memory: the
    results it returns are filed under names, none of them under an agent
    class. *)
Theorem run_returns_what_read_returns
    self (name : string) (envs : list string) (agents : list agent) w
    (experiment : string) sc du w' :
  __call__ self name envs agents w = (Return (Some experiment, sc, du), w') →
  read experiment w' = (Return (sc, du), w')
  ∧ ∀ env k,
      is_Some (getitem sc env k) ∨ is_Some (getitem du env k) →
      ∃ agent_name : string, k = inr agent_name.
Proof.
  rewrite call_unfold.
  destruct (train_all _ _ _ _ _) as [[[sc1 du1]|e] w1]; [|done].
  destruct (experiment_of self name w) as [path|]; [|done].
  destruct (subdirs (fs w1) path) as [benchmarks|] eqn:Hsub; [|done].
  destruct (read_all (fs w1) benchmarks (∅, ∅)) as [[sc' du']|] eqn:Hread;
    [|done].
  intros [= <- <- <- <-]. split.
  - by rewrite read_unfold, Hsub, Hread.
  - intros env k Hsome.
    pose proof (read_all_alike _ _ _ _ Hread (λ _ _, I) env k) as Halike.
    simpl in Halike.
    destruct (getitem sc' env k) as [ss|], (getitem du' env k) as [ds|];
      try done.
    + by destruct Halike.
    + by destruct Hsome as [[? [=]]|[? [=]]].
Qed.

End returned.

Section returned_witnesses.
Import Benchmark Spec Sample.

Lemma run_returns_what_read_returns_witness :
  ∃ experiment sc du w',
    __call__ (saved 2) "demo" ["Pong"] [Random; DQN] blank
    = (Return (Some experiment, sc, du), w')
    ∧ read experiment w' = (Return (sc, du), w')
    ∧ ∀ env k,
        is_Some (getitem sc env k) ∨ is_Some (getitem du env k) →
        ∃ agent_name : string, k = inr agent_name.
Proof.
  assert (match __call__ (saved 2) "demo" ["Pong"] [Random; DQN] blank with
          | (Return (Some _, _, _), _) => True
          | _ => False
          end) as Hret by (vm_compute; exact I).
  destruct (__call__ (saved 2) "demo" ["Pong"] [Random; DQN] blank)
    as [[[[[experiment|] sc] du]|e] w'] eqn:Hrun;
    [|destruct Hret|destruct Hret].
  exists experiment, sc, du, w'. split; [reflexivity|].
  exact (run_returns_what_read_returns (saved 2) "demo" ["Pong"] [Random; DQN]
           blank experiment sc du w' Hrun).
Defined.

End returned_witnesses.
